(** * Release script of the dev-essentials-pack extension pack

    A shallow embedding of [scripts/release.js] and [scripts/utils.js]:
    the extension-list merge, the change report, the version bump, and the
    git-staging workflow that commits the project and extension files. *)

From Stdlib Require Import Ascii String.
From Stdlib Require Import List NArith Bool Lia Permutation Sorted DecimalN.
Import ListNotations.

Local Open Scope N_scope.
Local Open Scope list_scope.

(** ** JavaScript strings

    A JavaScript string is a sequence of UTF-16 code units.  Every operation
    the script applies to strings ([includes], [split], [trim], [sort], the
    regular expression of [removeANSI]) works on code units, so a string is
    the list of its code units. *)

Definition jsstring := list N.

(** A literal made of ASCII characters only. *)
Definition lit (s : string) : jsstring :=
  map N_of_ascii (list_ascii_of_string s).

(** Code units the script names. *)
Definition LF : N := 10.        (* line feed *)
Definition ESC : N := 27.       (* escape *)
Definition QUOTE : N := 34.     (* double quote *)
Definition DOLLAR : N := 36.    (* dollar *)
Definition PLUS : N := 43.      (* plus *)
Definition MINUS : N := 45.     (* minus *)
Definition DOT : N := 46.       (* dot *)
Definition LBRACKET : N := 91.  (* left bracket *)
Definition BACKSLASH : N := 92. (* backslash *)
Definition LOWER_M : N := 109.  (* letter m *)
Definition BAR : N := 124.      (* vertical bar *)
Definition BULLET : N := 8226.  (* U+2022, the bullet of a kept line *)

(** The comparison behind the relational operators on strings and behind
    [Array.prototype.sort] without a comparator: code unit by code unit, a
    proper prefix before the longer string. *)
Fixpoint compare_units (x y : jsstring) : comparison :=
  match x, y with
  | [], [] => Eq
  | [], _ :: _ => Lt
  | _ :: _, [] => Gt
  | a :: x', b :: y' =>
      match a ?= b with
      | Eq => compare_units x' y'
      | c => c
      end
  end.

Definition str_eqb (x y : jsstring) : bool :=
  match compare_units x y with Eq => true | _ => false end.

Definition str_ltb (x y : jsstring) : bool :=
  match compare_units x y with Lt => true | _ => false end.

(** [x] is not after [y] in the lexicographic order of code units. *)
Definition str_le (x y : jsstring) : Prop := compare_units x y <> Gt.

(** [s.startsWith(p)], [s.endsWith(p)] and [s.includes(p)]. *)
Fixpoint startsWith (s p : jsstring) {struct p} : bool :=
  match p, s with
  | [], _ => true
  | _ :: _, [] => false
  | a :: p', b :: s' => (a =? b) && startsWith s' p'
  end.

Definition endsWith (s p : jsstring) : bool := startsWith (rev s) (rev p).

Fixpoint str_includes (s p : jsstring) : bool :=
  startsWith s p
  || match s with
     | [] => false
     | _ :: s' => str_includes s' p
     end.

(** White space and line terminators, the code units [trim] removes. *)
Definition is_ws (c : N) : bool :=
  existsb (N.eqb c)
          [9; 10; 11; 12; 13; 32; 160; 5760; 8232; 8233; 8239; 8287; 12288; 65279]
  || ((8192 <=? c) && (c <=? 8202)).

Fixpoint trimStart (s : jsstring) : jsstring :=
  match s with
  | [] => []
  | c :: s' => if is_ws c then trimStart s' else s
  end.

Definition trimEnd (s : jsstring) : jsstring := rev (trimStart (rev s)).

Definition trim (s : jsstring) : jsstring := trimEnd (trimStart s).

(** [s.trim() === ''] *)
Definition blank (s : jsstring) : bool :=
  match trim s with [] => true | _ :: _ => false end.

(** [s.split(sep)] for a separator of one code unit, which is all the script
    uses ('\n', '.', '|').  The result is never empty: the empty string
    splits into one empty piece. *)
Fixpoint split (s : jsstring) (sep : N) : list jsstring :=
  match s with
  | [] => [[]]
  | c :: s' =>
      if c =? sep then [] :: split s' sep
      else match split s' sep with
           | [] => [[c]]
           | piece :: pieces => (c :: piece) :: pieces
           end
  end.

(** [pieces.join(sep)] *)
Fixpoint join (pieces : list jsstring) (sep : jsstring) : jsstring :=
  match pieces with
  | [] => []
  | [x] => x
  | x :: rest => x ++ sep ++ join rest sep
  end.

(** The replacement text of [String.prototype.replace] for a string pattern
    (GetSubstitution without captures): [$$] is a dollar, [$&] the match,
    [$`] the text before it, [$'] the text after it, and any other dollar
    stands for itself. *)
Fixpoint getSubstitution (matched before after template : jsstring) : jsstring :=
  match template with
  | [] => []
  | a :: t =>
      if a =? DOLLAR then
        match t with
        | [] => [DOLLAR]
        | c :: r =>
            if c =? DOLLAR then DOLLAR :: getSubstitution matched before after r
            else if c =? 38 then matched ++ getSubstitution matched before after r
            else if c =? 96 then before ++ getSubstitution matched before after r
            else if c =? 39 then after ++ getSubstitution matched before after r
            else DOLLAR :: getSubstitution matched before after t
        end
      else a :: getSubstitution matched before after t
  end.

(** [s.replace(pattern, replacement)] with a string pattern: the first
    occurrence only.  [before] is what has been passed over so far. *)
Fixpoint replace_from (before s pattern replacement : jsstring) : jsstring :=
  if startsWith s pattern then
    let after := skipn (length pattern) s in
    before ++ getSubstitution pattern before after replacement ++ after
  else
    match s with
    | [] => before
    | c :: s' => replace_from (before ++ [c]) s' pattern replacement
    end.

Definition replace (s pattern replacement : jsstring) : jsstring :=
  replace_from [] s pattern replacement.

(** [getCommitMessageByStagedFiles] ends with a global replace that puts a
    backslash before every double quote. *)
Definition escapeQuotes (s : jsstring) : jsstring :=
  flat_map (fun c => if c =? QUOTE then [BACKSLASH; QUOTE] else [c]) s.

(** ** Arrays of strings *)

(** [Array.prototype.includes] on an array of strings. *)
Definition includes (l : list jsstring) (x : jsstring) : bool :=
  existsb (str_eqb x) l.

(** [Array.prototype.sort()] with the default comparator.  The order on
    strings is total and two strings that compare equal are the same string,
    so the sorted array does not depend on the algorithm; this is a stable
    insertion sort. *)
Fixpoint sort_insert (x : jsstring) (l : list jsstring) : list jsstring :=
  match l with
  | [] => [x]
  | y :: l' => if str_ltb y x then y :: sort_insert x l' else x :: l
  end.

Fixpoint sort (l : list jsstring) : list jsstring :=
  match l with
  | [] => []
  | x :: l' => sort_insert x (sort l')
  end.

(** A checker for duplicate-free arrays, for concrete inputs. *)
Fixpoint nodupb (l : list jsstring) : bool :=
  match l with
  | [] => true
  | x :: l' => negb (includes l' x) && nodupb l'
  end.

(** ** Errors

    The script throws [Error] and its subclass [LoggerErrorHandler], which
    carries a verbose text next to the message. *)

Inductive exn : Type :=
| Error (message : jsstring)
| LoggerErrorHandler (message verboseContent : jsstring).

Definition err_message (e : exn) : jsstring :=
  match e with
  | Error m => m
  | LoggerErrorHandler m _ => m
  end.

(** The result of a function that returns or throws and has no other
    effect. *)
Inductive res (A : Type) : Type :=
| Ok (a : A)
| Raise (e : exn).
Arguments Ok {A} a.
Arguments Raise {A} e.

(** ** utils.js *)

(** [colorize(color, text)]: the text between the colour's escape sequence
    and the reset sequence; any other colour name throws. *)
Definition colorCode (color : jsstring) : option jsstring :=
  if str_eqb color (lit "red") then Some (lit "31")
  else if str_eqb color (lit "green") then Some (lit "32")
  else if str_eqb color (lit "yellow") then Some (lit "33")
  else if str_eqb color (lit "blue") then Some (lit "34")
  else if str_eqb color (lit "magenta") then Some (lit "35")
  else if str_eqb color (lit "cyan") then Some (lit "36")
  else if str_eqb color (lit "white") then Some (lit "37")
  else None.

Definition colorize (color text : jsstring) : res jsstring :=
  match colorCode color with
  | Some code =>
      Ok (ESC :: LBRACKET :: code ++ [LOWER_M]
          ++ text ++ [ESC; LBRACKET; 48; LOWER_M])
  | None => Raise (Error (lit "Invalid color: " ++ color))
  end.

(** The colours of the type [Color]. *)
Definition colors : list jsstring :=
  [lit "red"; lit "green"; lit "yellow"; lit "blue"; lit "magenta";
   lit "cyan"; lit "white"].

Definition is_digit (c : N) : bool := (48 <=? c) && (c <=? 57).

(** The regular expression of [removeANSI], [/\x1b\[\d+m|\x1b\[0m/g].  Its
    second alternative matches nothing the first does not, so a match at the
    head of [s] is ESC, '[', one or more digits, 'm'.  [ansi_tail] reads the
    digits after the first one and the closing 'm' and counts them;
    [ansi_match] gives the length of the match at the head of [s]. *)
Fixpoint ansi_tail (s : jsstring) : option nat :=
  match s with
  | [] => None
  | c :: s' =>
      if c =? LOWER_M then Some 1%nat
      else if is_digit c then option_map S (ansi_tail s')
      else None
  end.

Definition ansi_match (s : jsstring) : option nat :=
  match s with
  | e :: b :: d :: s' =>
      if (e =? ESC) && (b =? LBRACKET) && is_digit d
      then option_map (fun n => (3 + n)%nat) (ansi_tail s')
      else None
  | _ => None
  end.

(** [text.replace(re, '')] scans from the left: a match is dropped and the
    scan goes on after it, any other code unit is kept.  [skip] counts the
    code units of the current match still to drop. *)
Fixpoint strip (skip : nat) (s : jsstring) : jsstring :=
  match s with
  | [] => []
  | c :: s' =>
      match skip with
      | S k => strip k s'
      | O =>
          match ansi_match s with
          | Some (S k) => strip k s'
          | _ => c :: strip 0 s'
          end
      end
  end.

Definition removeANSI (text : jsstring) : jsstring := strip 0 text.

(** ** release.js: the extension list and the change report *)

(** [mergeExtensions]:
    [[...current.filter(e => new.includes(e)),
      ...new.filter(e => !current.includes(e))].sort()].
    Nothing in the body throws on arrays of strings, so the [try] block is
    the whole function. *)
Definition mergeExtensions (currentExtensions newExtensions : list jsstring)
  : list jsstring :=
  sort (filter (fun ext => includes newExtensions ext) currentExtensions
        ++ filter (fun ext => negb (includes currentExtensions ext)) newExtensions).

(** The first loop of [getCommitMessageByExtensionListChanges] pushes
    [ext + '|keep'] or [ext + '|remove'] for every current extension, the
    second [ext + '|add'] for every updated extension that is not current. *)
Definition changeList (currentExtensions updatedExtensions : list jsstring)
  : list jsstring :=
  map (fun ext =>
         if includes updatedExtensions ext then ext ++ lit "|keep"
         else ext ++ lit "|remove")
      currentExtensions
  ++ map (fun ext => ext ++ lit "|add")
         (filter (fun ext => negb (includes currentExtensions ext))
                 updatedExtensions).

(** The body of the loop over the sorted list: [ext.split('|')] gives the
    name and the action, and the [switch] appends a colorized line for
    'keep', 'remove' and 'add' and nothing for anything else. *)
Definition appendChange (message ext : jsstring) : res jsstring :=
  match split ext BAR with
  | name :: action :: _ =>
      if str_eqb action (lit "keep") then
        match colorize (lit "white") ([32; 32; BULLET; 32] ++ name ++ [LF]) with
        | Ok line => Ok (message ++ line)
        | Raise e => Raise e
        end
      else if str_eqb action (lit "remove") then
        match colorize (lit "red") ([32; 32; MINUS; 32] ++ name ++ [LF]) with
        | Ok line => Ok (message ++ line)
        | Raise e => Raise e
        end
      else if str_eqb action (lit "add") then
        match colorize (lit "green") ([32; 32; PLUS; 32] ++ name ++ [LF]) with
        | Ok line => Ok (message ++ line)
        | Raise e => Raise e
        end
      else Ok message
  | _ => Ok message
  end.

Fixpoint appendChanges (message : jsstring) (list : list jsstring) : res jsstring :=
  match list with
  | [] => Ok message
  | ext :: rest =>
      match appendChange message ext with
      | Ok message' => appendChanges message' rest
      | Raise e => Raise e
      end
  end.

Definition reportHeader : jsstring :=
  lit "feat(extension): Updates to v{{version}}" ++ [LF; LF]
  ++ lit "New extension list:" ++ [LF].

(** [getCommitMessageByExtensionListChanges]: the empty message when every
    entry ends in '|keep', else the header followed by the lines of the
    sorted list.  An error thrown inside is rethrown as a
    [LoggerErrorHandler]. *)
Definition getCommitMessageByExtensionListChanges
  (currentExtensions updatedExtensions : list jsstring) : res jsstring :=
  let list := changeList currentExtensions updatedExtensions in
  if Nat.eqb (length (filter (fun ext => negb (endsWith ext (lit "|keep"))) list)) 0
  then Ok []
  else
    match appendChanges reportHeader (sort list) with
    | Ok message => Ok message
    | Raise err =>
        Raise (LoggerErrorHandler (lit "Failed to get commit message")
                                  (err_message err))
    end.

(** ** Numbers

    [increaseVersion] turns the pieces of the version into numbers, adds one
    and prints them.  JavaScript numbers are binary64 floating-point values.
    The integers from 0 to 2^53 are all exact and are modelled as such
    ([Int]); NaN is [NaN]; any other value is carried as its bit pattern
    ([Other]) and what the language does with it is left to the parameters
    of [Runtime]. *)

Inductive jsnum : Type :=
| Int (n : N)
| NaN
| Other (bits : N).

(** ** JSON values

    An object is the list of its properties in property order. *)
#[warnings="-register-all"]
Inductive json : Type :=
| JNull
| JBool (b : bool)
| JNumber (x : jsnum)
| JString (s : jsstring)
| JArray (items : list json)
| JObject (fields : list (jsstring * json)).

(** What the embedding takes from the language runtime and from Node
    without looking inside. *)
Class Runtime : Type := {
  (** [Number(s)] for a string that is not a run of decimal digits of value
      at most 2^53 *)
  Number_other : jsstring -> jsnum;
  (** [x + 1] for a value that is not an integer of 0..2^53 *)
  succ_other : N -> jsnum;
  (** the string of a value that is not an integer of 0..2^53 *)
  toString_other : N -> jsstring;
  (** [JSON.parse(text)]: the value, or the message of the SyntaxError *)
  JSON_parse : jsstring -> json + jsstring;
  (** [JSON.stringify(value, null, 4)] *)
  JSON_stringify : json -> jsstring;
  (** [path.join(...parts)] *)
  path_join : list jsstring -> jsstring;
  (** [path.resolve(p)] in a working directory *)
  path_resolve : jsstring -> jsstring -> jsstring;
  (** [path.relative(from, to)] *)
  path_relative : jsstring -> jsstring -> jsstring
}.

Definition two53 : N := 9007199254740992.

(** The decimal digits of a string, if it has nothing else. *)
Fixpoint digitsOf (s : jsstring) : option Decimal.uint :=
  match s with
  | [] => Some Decimal.Nil
  | c :: s' =>
      match digitsOf s' with
      | None => None
      | Some u =>
          if c =? 48 then Some (Decimal.D0 u)
          else if c =? 49 then Some (Decimal.D1 u)
          else if c =? 50 then Some (Decimal.D2 u)
          else if c =? 51 then Some (Decimal.D3 u)
          else if c =? 52 then Some (Decimal.D4 u)
          else if c =? 53 then Some (Decimal.D5 u)
          else if c =? 54 then Some (Decimal.D6 u)
          else if c =? 55 then Some (Decimal.D7 u)
          else if c =? 56 then Some (Decimal.D8 u)
          else if c =? 57 then Some (Decimal.D9 u)
          else None
      end
  end.

Fixpoint unitsOf (u : Decimal.uint) : jsstring :=
  match u with
  | Decimal.Nil => []
  | Decimal.D0 u' => 48 :: unitsOf u'
  | Decimal.D1 u' => 49 :: unitsOf u'
  | Decimal.D2 u' => 50 :: unitsOf u'
  | Decimal.D3 u' => 51 :: unitsOf u'
  | Decimal.D4 u' => 52 :: unitsOf u'
  | Decimal.D5 u' => 53 :: unitsOf u'
  | Decimal.D6 u' => 54 :: unitsOf u'
  | Decimal.D7 u' => 55 :: unitsOf u'
  | Decimal.D8 u' => 56 :: unitsOf u'
  | Decimal.D9 u' => 57 :: unitsOf u'
  end.

(** The decimal numeral of a natural number. *)
Definition decimal (n : N) : jsstring := unitsOf (N.to_uint n).

(** A semantic version written out, for the statements below. *)
Definition formatVersion (major minor patch : N) : jsstring :=
  decimal major ++ [DOT] ++ decimal minor ++ [DOT] ++ decimal patch.

Section Release.

Context {R : Runtime}.

(** [Number(s)]: a run of decimal digits (the empty string too, which is 0)
    whose value is at most 2^53 is that integer. *)
Definition Number (s : jsstring) : jsnum :=
  match digitsOf s with
  | Some u => if N.of_uint u <=? two53 then Int (N.of_uint u) else Number_other s
  | None => Number_other s
  end.

(** [x + 1], where [x] may be [undefined] ([None]), which gives NaN.
    2^53 + 1 is not a binary64 value and rounds back to 2^53. *)
Definition plusOne (x : option jsnum) : jsnum :=
  match x with
  | None => NaN
  | Some (Int n) => if n <? two53 then Int (n + 1) else Int n
  | Some NaN => NaN
  | Some (Other bits) => succ_other bits
  end.

Definition numToString (x : jsnum) : jsstring :=
  match x with
  | Int n => decimal n
  | NaN => lit "NaN"
  | Other bits => toString_other bits
  end.

(** A value inside a template literal. *)
Definition show (x : option jsnum) : jsstring :=
  match x with
  | None => lit "undefined"
  | Some v => numToString v
  end.

(** [increaseVersion(version, type)] *)
Definition increaseVersion (version type : jsstring) : jsstring :=
  let parts := map Number (split version DOT) in
  let major := nth_error parts 0 in
  let minor := nth_error parts 1 in
  let patch := nth_error parts 2 in
  if str_eqb type (lit "major") then
    numToString (plusOne major) ++ lit ".0.0"
  else if str_eqb type (lit "minor") then
    show major ++ [DOT] ++ numToString (plusOne minor) ++ lit ".0"
  else if str_eqb type (lit "patch") then
    show major ++ [DOT] ++ show minor ++ [DOT] ++ numToString (plusOne patch)
  else version.

(** ** The data of a run *)

Record ExtensionPackData : Type := {
  extensionFiles : list jsstring;
  packageJsonPath : jsstring;
  (** the properties of the parsed manifest *)
  packageJson : list (jsstring * json);
  currentVersion : jsstring;
  (** [None] before [bumpVersion] has set it *)
  updatedVersion : option jsstring;
  currentExtensions : list jsstring;
  updatedExtensions : list jsstring;
  message : jsstring
}.

Definition set_message (data : ExtensionPackData) (m : jsstring)
  : ExtensionPackData :=
  {| extensionFiles := extensionFiles data;
     packageJsonPath := packageJsonPath data;
     packageJson := packageJson data;
     currentVersion := currentVersion data;
     updatedVersion := updatedVersion data;
     currentExtensions := currentExtensions data;
     updatedExtensions := updatedExtensions data;
     message := m |}.

Definition set_packageJson (data : ExtensionPackData)
  (manifest : list (jsstring * json)) : ExtensionPackData :=
  {| extensionFiles := extensionFiles data;
     packageJsonPath := packageJsonPath data;
     packageJson := manifest;
     currentVersion := currentVersion data;
     updatedVersion := updatedVersion data;
     currentExtensions := currentExtensions data;
     updatedExtensions := updatedExtensions data;
     message := message data |}.

Definition set_updatedVersion (data : ExtensionPackData) (v : jsstring)
  : ExtensionPackData :=
  {| extensionFiles := extensionFiles data;
     packageJsonPath := packageJsonPath data;
     packageJson := packageJson data;
     currentVersion := currentVersion data;
     updatedVersion := Some v;
     currentExtensions := currentExtensions data;
     updatedExtensions := updatedExtensions data;
     message := message data |}.

(** The version type [bumpVersion] reads off the message: 'major' when a
    line of the message without its escape sequences starts, after trimming,
    with '-', else 'minor' when one starts with '+', else 'patch'. *)
Definition versionType (message : jsstring) : jsstring :=
  let lines := split (removeANSI message) LF in
  if existsb (fun l => startsWith (trim l) [MINUS]) lines then lit "major"
  else if existsb (fun l => startsWith (trim l) [PLUS]) lines then lit "minor"
  else lit "patch".

(** [bumpVersion(data)].  [increaseVersion] does not throw on a string, so
    the [catch] is never entered. *)
Definition bumpVersion (data : ExtensionPackData) : ExtensionPackData :=
  set_updatedVersion data
    (increaseVersion (currentVersion data) (versionType (message data))).

End Release.

(** ** The world of the script

    The script talks to git, to the file system, to the terminal and to its
    logger.  Git is seen through the four commands the script runs: a
    working tree with modified paths, a staging area, and the commits made.
    A command can fail; whether it does is for the world to say.  The
    working directory is the root of the repository, the system is a POSIX
    one, and git has its default configuration. *)

Inductive GitCommand : Type :=
| GitAdd (paths : list jsstring)      (* git add <paths> *)
| GitDiffCached                       (* git diff --name-only --cached . *)
| GitRestoreStaged                    (* git restore --staged . *)
| GitCommit (message : jsstring).     (* git commit -m <message> *)

Inductive LogType : Type := TInfo | TSuccess | TWarning | TQuestion | TError.

(** What a run leaves behind besides the state of git, latest first. *)
Inductive event : Type :=
| Logged (type : LogType) (message : jsstring) (verboseContent : option jsstring)
| Printed (text : jsstring)
| Wrote (path content : jsstring).

(** A directory entry: a file, or a directory with its entries. *)
#[warnings="-register-all"]
Inductive node : Type :=
| File
| Dir (entries : list (jsstring * node)).

Record World : Type := {
  cwd : jsstring;
  (** the entries of the working directory *)
  tree : list (jsstring * node);
  (** the text files, the first binding of a path being its content *)
  files : list (jsstring * jsstring);
  (** the log file of the run *)
  logPath : jsstring;
  (** the paths whose changes git can stage *)
  modified : list jsstring;
  staged : list jsstring;
  (** the message [git commit] is handed and the paths of each commit,
      latest first; what git makes of the empty lines and the trailing
      blanks of a message when it stores it is left out *)
  commits : list (jsstring * list jsstring);
  (** the lines the user types at the prompts to come; at a prompt with no
      line left the user presses Ctrl-C *)
  stdin : list jsstring;
  (** the error text of a command that fails *)
  gitFailure : GitCommand -> option jsstring;
  events : list event
}.

Definition with_staged (w : World) (s : list jsstring) : World :=
  {| cwd := cwd w; tree := tree w; files := files w; logPath := logPath w;
     modified := modified w; staged := s; commits := commits w;
     stdin := stdin w; gitFailure := gitFailure w; events := events w |}.

Definition with_stdin (w : World) (i : list jsstring) : World :=
  {| cwd := cwd w; tree := tree w; files := files w; logPath := logPath w;
     modified := modified w; staged := staged w; commits := commits w;
     stdin := i; gitFailure := gitFailure w; events := events w |}.

Definition with_event (w : World) (e : event) : World :=
  {| cwd := cwd w; tree := tree w; files := files w; logPath := logPath w;
     modified := modified w; staged := staged w; commits := commits w;
     stdin := stdin w; gitFailure := gitFailure w; events := e :: events w |}.

Definition with_file (w : World) (path content : jsstring) : World :=
  {| cwd := cwd w; tree := tree w; files := (path, content) :: files w;
     logPath := logPath w; modified := modified w; staged := staged w;
     commits := commits w; stdin := stdin w; gitFailure := gitFailure w;
     events := Wrote path content :: events w |}.

Definition with_commit (w : World) (message : jsstring) : World :=
  {| cwd := cwd w; tree := tree w; files := files w; logPath := logPath w;
     modified := filter (fun f => negb (includes (staged w) f)) (modified w);
     staged := []; commits := (message, staged w) :: commits w;
     stdin := stdin w; gitFailure := gitFailure w; events := events w |}.

(** A path is selected by the arguments of [git add] when they hold it or
    hold the dot that stands for the whole tree.  The arguments are taken to
    be words that /bin/sh hands to git as they are written and that name
    files, or the dot. *)
Definition selected (paths : list jsstring) (f : jsstring) : bool :=
  includes paths (lit ".") || includes paths f.

(** The command as the script writes it, for the text of the error. *)
Definition commandText (c : GitCommand) : jsstring :=
  match c with
  | GitAdd paths => lit "git add " ++ join paths (lit " ")
  | GitDiffCached => lit "git diff --name-only --cached ."
  | GitRestoreStaged => lit "git restore --staged ."
  | GitCommit message => lit "git commit -m " ++ [QUOTE] ++ message ++ [QUOTE]
  end.

(** *** The names git prints

    Git keeps a path as bytes, the UTF-8 encoding of its name, and
    [git diff --name-only] prints a path between double quotes, with
    escapes, as soon as one of its bytes is a control character, a double
    quote, a backslash or, with [core.quotePath] at its default, a byte
    above 127 ([quote_c_style] of git).  A surrogate without its partner
    has no encoding and is written as U+FFFD. *)
Definition is_lead (c : N) : bool := (55296 <=? c) && (c <=? 56319).
Definition is_trail (c : N) : bool := (56320 <=? c) && (c <=? 57343).

Definition utf8 (point : N) : list N :=
  if point <? 128 then [point]
  else if point <? 2048 then [192 + point / 64; 128 + point mod 64]
  else if point <? 65536 then
    [224 + point / 4096; 128 + (point / 64) mod 64; 128 + point mod 64]
  else
    [240 + point / 262144; 128 + (point / 4096) mod 64;
     128 + (point / 64) mod 64; 128 + point mod 64].

Fixpoint utf8Bytes (s : jsstring) : list N :=
  match s with
  | [] => []
  | c :: s' =>
      if is_lead c then
        match s' with
        | d :: s'' =>
            if is_trail d
            then utf8 (65536 + (c - 55296) * 1024 + (d - 56320)) ++ utf8Bytes s''
            else [239; 191; 189] ++ utf8Bytes s'
        | [] => [239; 191; 189]
        end
      else if is_trail c then [239; 191; 189] ++ utf8Bytes s'
      else utf8 c ++ utf8Bytes s'
  end.

(** A backslash and three octal digits. *)
Definition octal (byte : N) : jsstring :=
  [BACKSLASH; 48 + (byte / 64) mod 4; 48 + (byte / 8) mod 8; 48 + byte mod 8].

(** The escape of a byte that git does not print as it is. *)
Definition cquoteByte (byte : N) : option jsstring :=
  if byte =? 7 then Some [BACKSLASH; 97]
  else if byte =? 8 then Some [BACKSLASH; 98]
  else if byte =? 9 then Some [BACKSLASH; 116]
  else if byte =? 10 then Some [BACKSLASH; 110]
  else if byte =? 11 then Some [BACKSLASH; 118]
  else if byte =? 12 then Some [BACKSLASH; 102]
  else if byte =? 13 then Some [BACKSLASH; 114]
  else if byte =? QUOTE then Some [BACKSLASH; QUOTE]
  else if byte =? BACKSLASH then Some [BACKSLASH; BACKSLASH]
  else if (byte <? 32) || (127 <=? byte) then Some (octal byte)
  else None.

Definition cquote (path : jsstring) : jsstring :=
  let bytes := utf8Bytes path in
  if existsb (fun byte => match cquoteByte byte with
                          | Some _ => true
                          | None => false
                          end) bytes
  then [QUOTE]
       ++ flat_map (fun byte => match cquoteByte byte with
                                | Some escape => escape
                                | None => [byte]
                                end) bytes
       ++ [QUOTE]
  else bytes.

(** *** The message the shell hands on

    [execSync] runs the command line with /bin/sh.  The message of
    [git commit -m "..."] stands between double quotes, where the shell
    takes a backslash away from before a dollar sign, a backquote, a double
    quote and a backslash, drops a backslash with the line feed after it,
    and keeps every other code unit.  There is no reading the embedding
    follows ([None]) when the text holds a dollar sign or a backquote that
    is not behind a backslash (an expansion), a double quote that is not
    behind one or a backslash at the very end (the argument ends
    elsewhere), or a null character. *)
Fixpoint shellDoubleQuoted (text : jsstring) : option jsstring :=
  match text with
  | [] => Some []
  | c :: rest =>
      if c =? BACKSLASH then
        match rest with
        | [] => None
        | d :: rest' =>
            if (d =? DOLLAR) || (d =? 96) || (d =? QUOTE) || (d =? BACKSLASH)
            then option_map (cons d) (shellDoubleQuoted rest')
            else if d =? LF then shellDoubleQuoted rest'
            else if d =? 0 then None
            else option_map (fun read => c :: d :: read) (shellDoubleQuoted rest')
        end
      else if (c =? DOLLAR) || (c =? 96) || (c =? QUOTE) || (c =? 0) then None
      else option_map (cons c) (shellDoubleQuoted rest)
  end.

(** What a command comes to: its output, the text of its error, or a
    command line whose reading by the shell the embedding does not
    follow. *)
Inductive gitResult : Type :=
| Output (text : jsstring)
| Failed (err : jsstring)
| NotFollowed.

(** What git does with a command.  The commit is recorded with the message
    git is given, which is the message of the script as the shell has read
    it. *)
Definition git (c : GitCommand) (w : World) : gitResult * World :=
  match c with
  | GitCommit message =>
      match shellDoubleQuoted message with
      | None => (NotFollowed, w)
      | Some given =>
          match gitFailure w c with
          | Some err => (Failed err, w)
          | None =>
              match staged w with
              | [] => (Failed (lit "nothing to commit"), w)
              | _ :: _ => (Output [], with_commit w given)
              end
          end
      end
  | GitAdd paths =>
      match gitFailure w c with
      | Some err => (Failed err, w)
      | None =>
          (Output [],
           with_staged w
             (staged w
              ++ filter (fun f => selected paths f && negb (includes (staged w) f))
                        (modified w)))
      end
  | GitDiffCached =>
      match gitFailure w c with
      | Some err => (Failed err, w)
      | None =>
          (Output (concat (map (fun f => cquote f ++ [LF]) (staged w))), w)
      end
  | GitRestoreStaged =>
      match gitFailure w c with
      | Some err => (Failed err, w)
      | None => (Output [], with_staged w [])
      end
  end.

(** ** Computations

    A function of the script returns a value, throws, or ends the process
    with [process.exit]; on the way it changes the world.  [Unmodelled] is
    for the runs the embedding does not follow: an extension list that
    holds a value other than a string, and a commit message the shell does
    not hand on as it is written. *)

Inductive outcome (A : Type) : Type :=
| Ret (a : A)
| Throw (e : exn)
| Exit (code : N)
| Unmodelled.
Arguments Ret {A} a.
Arguments Throw {A} e.
Arguments Exit {A} code.
Arguments Unmodelled {A}.

Definition M (A : Type) : Type := World -> outcome A * World.

Definition ret {A} (a : A) : M A := fun w => (Ret a, w).

Definition bind {A B} (m : M A) (k : A -> M B) : M B :=
  fun w =>
    match m w with
    | (Ret a, w') => k a w'
    | (Throw e, w') => (Throw e, w')
    | (Exit code, w') => (Exit code, w')
    | (Unmodelled, w') => (Unmodelled, w')
    end.

Declare Scope release_scope.
Delimit Scope release_scope with release.
Notation "x <- m ;; k" := (bind m (fun x => k))
  (at level 61, m at next level, right associativity) : release_scope.
Notation "m ;; k" := (bind m (fun _ => k))
  (at level 61, right associativity) : release_scope.
Local Open Scope release_scope.

Definition throw {A} (e : exn) : M A := fun w => (Throw e, w).

(** [process.exit(code)] *)
Definition exit {A} (code : N) : M A := fun w => (Exit code, w).

(** [try { m } catch (err) { handler err }]: only a throw is caught. *)
Definition try_catch {A} (m : M A) (handler : exn -> M A) : M A :=
  fun w =>
    match m w with
    | (Throw e, w') => handler e w'
    | r => r
    end.

Definition lift {A} (r : res A) : M A :=
  match r with
  | Ok a => ret a
  | Raise e => throw e
  end.

(** The logger records the message and the verbose content it is given. *)
Definition log (type : LogType) (message : jsstring)
  (verboseContent : option jsstring) : M unit :=
  fun w => (Ret tt, with_event w (Logged type message verboseContent)).

Definition info := log TInfo.
Definition question := log TQuestion.
Definition error := log TError.

(** [console.log(text)] *)
Definition console_log (text : jsstring) : M unit :=
  fun w => (Ret tt, with_event w (Printed text)).

(** [fs.readFileSync(path, 'utf8')]; a missing file throws. *)
Fixpoint lookup {A} (k : jsstring) (l : list (jsstring * A)) : option A :=
  match l with
  | [] => None
  | (k', v) :: l' => if str_eqb k k' then Some v else lookup k l'
  end.

Definition readFileSync (path : jsstring) : M jsstring :=
  fun w =>
    match lookup path (files w) with
    | Some text => (Ret text, w)
    | None =>
        (Throw (Error (lit "ENOENT: no such file or directory, open '"
                       ++ path ++ lit "'")), w)
    end.

(** [fs.writeFileSync(path, content)]; the write of the model always
    succeeds. *)
Definition writeFileSync (path content : jsstring) : M unit :=
  fun w => (Ret tt, with_file w path content).

(** [prompt(text)] of prompt-sync, created with [sigint: true] and read
    at a terminal: the line the user types, or, when the user presses
    Ctrl-C instead, the end of the process with status 130 inside the
    call. *)
Definition prompt (text : jsstring) : M jsstring :=
  fun w =>
    match stdin w with
    | [] => (Exit 130, w)
    | answer :: rest => (Ret answer, with_stdin w rest)
    end.

(** [answer.charAt(0).toLowerCase() === 'y']: only the letters y and Y
    lower-case to y. *)
Definition startsWithYes (answer : jsstring) : bool :=
  match answer with
  | [] => false
  | c :: _ => (c =? 121) || (c =? 89)
  end.

(** [confirm(message, logger)] (utils.js) *)
Definition confirm (message : jsstring)
  (logger : jsstring -> option jsstring -> M unit) : M bool :=
  y <- lift (colorize (lit "green") (lit "y")) ;;
  n <- lift (colorize (lit "red") (lit "n")) ;;
  let message := message ++ lit " (" ++ y ++ lit "/" ++ n ++ lit "): " in
  tag <- lift (colorize (lit "magenta") (lit "[QUESTION] ")) ;;
  answer <- prompt (tag ++ message) ;;
  logger (message ++ answer) None ;;
  ret (startsWithYes answer).

(** ** release.js: git and the commit messages *)

(** [execGitCommand(command)].  The script writes four command lines, which
    [GitCommand] names and [commandText] spells out; [execSync] hands the
    line to /bin/sh, whose reading of the quoted message is part of [git].
    A command that fails makes [execSync] throw. *)
Definition execGitCommand (command : GitCommand) : M jsstring :=
  fun w =>
    match git command w with
    | (Output output, w') => (Ret output, w')
    | (Failed err, w') =>
        (Throw (LoggerErrorHandler
                  (lit "Git command failed")
                  (lit "Command: " ++ commandText command ++ [LF]
                   ++ lit "Error: " ++ err)), w')
    | (NotFollowed, w') => (Unmodelled, w')
    end.

(** [getStagedFiles()] *)
Definition getStagedFiles : M (list jsstring) :=
  output <- execGitCommand GitDiffCached ;;
  ret (filter (fun file => negb (blank file)) (split output LF)).

(** [getCommitMessageByStagedFiles(stagedFiles, title)] *)
Definition getCommitMessageByStagedFiles (stagedFiles : list jsstring)
  (title : jsstring) : jsstring :=
  let message :=
    if Nat.ltb 0 (length stagedFiles)
    then title ++ [LF; LF] ++ lit "- "
         ++ join stagedFiles ([LF] ++ lit "- ") ++ [LF]
    else [] in
  escapeQuotes message.

(** The test of [addAdditionalInfoToMessage]: some staged file passes the
    filter, which lets through every file when there is no message yet and
    only the files whose path does not hold 'package.json' when there is
    one. *)
Definition listsStagedFiles (hasMessage : bool) (stagedFiles : list jsstring)
  : bool :=
  Nat.ltb 0 (length (filter (fun f =>
                               if hasMessage
                               then negb (str_includes f (lit "package.json"))
                               else true)
                            stagedFiles)).

(** [addAdditionalInfoToMessage(data)].  The record is changed in place in
    the script; here the changed record is returned. *)
Definition addAdditionalInfoToMessage (data : ExtensionPackData)
  : M ExtensionPackData :=
  execGitCommand (GitAdd (extensionFiles data)) ;;
  stagedFiles <- getStagedFiles ;;
  let hasMessage := negb (blank (message data)) in
  let data' :=
    if listsStagedFiles hasMessage stagedFiles then
      set_message data
        ((if hasMessage then message data ++ [LF; LF]
          else lit "feat(extension): Updates to v{{version}}" ++ [LF; LF])
         ++ getCommitMessageByStagedFiles stagedFiles
              (lit "Extension files updated:"))
    else data in
  execGitCommand GitRestoreStaged ;;
  ret data'.

(** ** release.js: the manifest *)

Fixpoint get_field (k : jsstring) (fields : list (jsstring * json)) : option json :=
  match fields with
  | [] => None
  | (k', v) :: rest => if str_eqb k k' then Some v else get_field k rest
  end.

(** [object[k] = v]: an own property keeps its place, a new one goes last
    (the two keys the script assigns are not array indices). *)
Fixpoint set_field (k : jsstring) (v : json) (fields : list (jsstring * json))
  : list (jsstring * json) :=
  match fields with
  | [] => [(k, v)]
  | (k', v') :: rest =>
      if str_eqb k k' then (k, v) :: rest else (k', v') :: set_field k v rest
  end.

(** A property set to [undefined] is left out by [JSON.stringify]; JSON has
    no such value, so the property is dropped. *)
Fixpoint drop_field (k : jsstring) (fields : list (jsstring * json))
  : list (jsstring * json) :=
  match fields with
  | [] => []
  | (k', v') :: rest =>
      if str_eqb k k' then rest else (k', v') :: drop_field k rest
  end.

Definition strings (l : list jsstring) : json := JArray (map JString l).

(** [JSON.stringify(array)] for an array of strings, the comparison key of
    [hasChangesOnExtensionList]: the quoted strings between brackets, with
    commas.  QuoteJSONString escapes the double quote, the backslash and the
    control characters, and writes a surrogate that has no partner as a
    [\u] escape; a leading surrogate followed by a trailing one is one code
    point and stays as it is. *)
Definition hexDigit (n : N) : N := if n <? 10 then 48 + n else 87 + n.

Definition unicodeEscape (c : N) : jsstring :=
  [BACKSLASH; 117; hexDigit (c / 4096); hexDigit ((c / 256) mod 16);
   hexDigit ((c / 16) mod 16); hexDigit (c mod 16)].

Definition quoteUnit (c : N) : jsstring :=
  if c =? 8 then [BACKSLASH; 98]
  else if c =? 9 then [BACKSLASH; 116]
  else if c =? 10 then [BACKSLASH; 110]
  else if c =? 12 then [BACKSLASH; 102]
  else if c =? 13 then [BACKSLASH; 114]
  else if c =? QUOTE then [BACKSLASH; QUOTE]
  else if c =? BACKSLASH then [BACKSLASH; BACKSLASH]
  else if (c <? 32) || is_lead c || is_trail c then unicodeEscape c
  else [c].

(** [paired] says that the code unit at the head is the trailing half of a
    pair whose leading half has just been written. *)
Fixpoint quoteUnits (paired : bool) (s : jsstring) : jsstring :=
  match s with
  | [] => []
  | c :: s' =>
      if paired then c :: quoteUnits false s'
      else if is_lead c && match s' with d :: _ => is_trail d | [] => false end
      then c :: quoteUnits true s'
      else quoteUnit c ++ quoteUnits false s'
  end.

Definition quoteJSONString (s : jsstring) : jsstring :=
  QUOTE :: quoteUnits false s ++ [QUOTE].

Definition stringifyStrings (l : list jsstring) : jsstring :=
  [91] ++ join (map quoteJSONString l) [44] ++ [93].

(** The strings of an array of strings. *)
Fixpoint asStrings (items : list json) : option (list jsstring) :=
  match items with
  | [] => Some []
  | JString s :: rest => option_map (cons s) (asStrings rest)
  | _ :: _ => None
  end.

(** [value.key] for a parsed JSON value and one of the three keys the
    script reads, none of which is a property of a string, a number, a
    boolean or an array: reading a property of [null] throws a TypeError
    (the text is that of Node), and a value that is not an object has no such
    property ([None] is [undefined]). *)
Definition readProperty (k : jsstring) (j : json) : M (option json) :=
  match j with
  | JNull =>
      throw (Error (lit "Cannot read properties of null (reading '"
                    ++ k ++ lit "')"))
  | JObject fields => ret (get_field k fields)
  | _ => ret None
  end.

(** [process.cwd()] *)
Definition get_cwd : M jsstring := fun w => (Ret (cwd w), w).

(** [fs.readdirSync] and [fs.statSync] on the working directory *)
Definition get_tree : M (list (jsstring * node)) := fun w => (Ret (tree w), w).

(** [fs.existsSync(path)] *)
Definition existsSync (path : jsstring) : M bool :=
  fun w =>
    (Ret (match lookup path (files w) with Some _ => true | None => false end),
     w).

Section Workflow.

Context {R : Runtime}.

(** [listProjectDir(dir, ignore)]: every file below [dir], the entries whose
    name is in [ignore] left out.  The directory is given with its entries;
    a file stands for the path that leads to it.  The tree of the model can
    always be read, so the [catch] is never entered. *)
Fixpoint listProjectDir (dir : jsstring) (ignore : list jsstring) (n : node)
  : list jsstring :=
  match n with
  | File => [dir]
  | Dir entries =>
      (fix each (entries : list (jsstring * node)) : list jsstring :=
         match entries with
         | [] => []
         | (item, child) :: rest =>
             if includes ignore item then each rest
             else listProjectDir (path_join [dir; item]) ignore child ++ each rest
         end) entries
  end.

(** [getProjectFiles(extensionFiles)] *)
Definition getProjectFiles (extensionFiles : list jsstring) : M (list jsstring) :=
  try_catch
    (dir <- get_cwd ;;
     found <- existsSync (path_join [dir; lit ".gitignore"]) ;;
     ignore <-
       (if found then
          text <- readFileSync (path_join [dir; lit ".gitignore"]) ;;
          ret ([lit ".git"] ++ split text LF)
        else ret [lit ".git"]) ;;
     entries <- get_tree ;;
     ret (map (fun file => path_relative dir file)
            (filter (fun file =>
                       negb (existsb (fun ext =>
                                        endsWith (path_resolve dir file)
                                                 (path_resolve dir ext))
                                     extensionFiles))
                    (listProjectDir dir ignore (Dir entries)))))
    (fun err =>
       throw (LoggerErrorHandler (lit "Failed to get project files")
                                 (err_message err))).

(** [readJsonFile(filePath)]: the lines that are blank or start with '//'
    are left out before the text is parsed. *)
Definition readJsonFile (filePath : jsstring) : M json :=
  try_catch
    (text <- readFileSync filePath ;;
     let content :=
       join (filter (fun line =>
                       negb (blank line)
                       && negb (startsWith (trim line) (lit "//")))
                    (split text LF))
            [LF] in
     match JSON_parse content with
     | inl json => ret json
     | inr message => throw (Error message)
     end)
    (fun err =>
       throw (LoggerErrorHandler (lit "Failed to read file: " ++ filePath)
                                 (err_message err))).

(** [getExtensionPackData(extensionFiles)].  [mergeExtensions] throws
    unless both extension lists are arrays: a value that is not an array has
    no [filter].  With arrays of strings the merge and the report are
    computed, and then [bumpVersion] throws unless the version is a string:
    no other value has a [split].  The handlers of both keep the message of
    the TypeError as a verbose text that the handler here drops, so that
    text is left out.  With arrays that hold a value other than a string the
    script goes on with values that are not strings, and the embedding does
    not follow. *)
Definition getExtensionPackData (extensionFiles : list jsstring)
  : M ExtensionPackData :=
  try_catch
    (dir <- get_cwd ;;
     let packageJsonPath := path_join [dir; lit "package.json"] in
     let extensionsJsonPath := path_join [dir; lit ".vscode"; lit "extensions.json"] in
     packageJson <- readJsonFile packageJsonPath ;;
     extensions <- readJsonFile extensionsJsonPath ;;
     currentVersion <- readProperty (lit "version") packageJson ;;
     currentExtensions <- readProperty (lit "extensionPack") packageJson ;;
     newExtensions <- readProperty (lit "recommendations") extensions ;;
     match packageJson, currentExtensions, newExtensions with
     | JObject fields, Some (JArray current), Some (JArray recommended) =>
         match asStrings current, asStrings recommended with
         | Some currentExtensions, Some newExtensions =>
             let updatedExtensions :=
               mergeExtensions currentExtensions newExtensions in
             report <- lift (getCommitMessageByExtensionListChanges
                               currentExtensions updatedExtensions) ;;
             match currentVersion with
             | Some (JString currentVersion) =>
                 let data :=
                   {| extensionFiles := extensionFiles;
                      packageJsonPath := packageJsonPath;
                      packageJson := fields;
                      currentVersion := currentVersion;
                      updatedVersion := None;
                      currentExtensions := currentExtensions;
                      updatedExtensions := updatedExtensions;
                      message := report |} in
                 let data := bumpVersion data in
                 data <- addAdditionalInfoToMessage data ;;
                 ret (set_message data
                        (replace (message data) (lit "{{version}}")
                                 (match updatedVersion data with
                                  | Some v => v
                                  | None => lit "undefined"
                                  end)))
             | _ =>
                 throw (LoggerErrorHandler (lit "Failed to bump version") [])
             end
         | _, _ => fun w => (Unmodelled, w)
         end
     | _, _, _ =>
         throw (LoggerErrorHandler (lit "Failed to merge extensions") [])
     end)
    (fun err =>
       throw (LoggerErrorHandler (lit "Failed to get metadata") (err_message err))).

(** [hasChangesOnExtensionList(data)].  [Array.prototype.sort] sorts in
    place: after the call both arrays of the record are sorted, and so is
    the [extensionPack] of the manifest, which is the same array as
    [currentExtensions]. *)
Definition hasChangesOnExtensionList (data : ExtensionPackData)
  : bool * ExtensionPackData :=
  let current := sort (currentExtensions data) in
  let updated := sort (updatedExtensions data) in
  (negb (str_eqb (stringifyStrings current) (stringifyStrings updated)),
   {| extensionFiles := extensionFiles data;
      packageJsonPath := packageJsonPath data;
      packageJson :=
        match get_field (lit "extensionPack") (packageJson data) with
        | Some _ => set_field (lit "extensionPack") (strings current)
                              (packageJson data)
        | None => packageJson data
        end;
      currentVersion := currentVersion data;
      updatedVersion := updatedVersion data;
      currentExtensions := current;
      updatedExtensions := updated;
      message := message data |}).

(** The manifest after the two assignments of [updatePackageJson]. *)
Definition updatedManifest (data : ExtensionPackData) : list (jsstring * json) :=
  set_field (lit "extensionPack") (strings (updatedExtensions data))
    (match updatedVersion data with
     | Some v => set_field (lit "version") (JString v) (packageJson data)
     | None => drop_field (lit "version") (packageJson data)
     end).

(** [updatePackageJson(data)] *)
Definition updatePackageJson (data : ExtensionPackData) : M ExtensionPackData :=
  try_catch
    (let manifest := updatedManifest data in
     writeFileSync (packageJsonPath data) (JSON_stringify (JObject manifest)) ;;
     ret (set_packageJson data manifest))
    (fun err =>
       throw (LoggerErrorHandler (lit "Error updating package.json")
                                 (err_message err))).

(** [updateExtensionPack(data)] *)
Definition updateExtensionPack (data : ExtensionPackData) : M ExtensionPackData :=
  try_catch
    (let (changed, data) := hasChangesOnExtensionList data in
     if negb changed && blank (message data) then
       info (lit "No changes needed in `package.json` file.") None ;;
       ret data
     else updatePackageJson data)
    (fun err =>
       throw (LoggerErrorHandler (lit "Failed to update extension pack")
                                 (err_message err))).

(** ** release.js: the two commits *)

(** [commitProjectFiles(projectFiles)] *)
Definition commitProjectFiles (projectFiles : list jsstring) : M bool :=
  try_catch
    (execGitCommand (GitAdd projectFiles) ;;
     stagedFiles <- getStagedFiles ;;
     let message :=
       getCommitMessageByStagedFiles stagedFiles
         (lit "chore: Updated project files") in
     if blank message then
       info (lit "No changes to commit for project files.") None ;;
       ret false
     else
       info (lit "The following changes will be applied:" ++ [LF]) (Some message) ;;
       console_log message ;;
       yes <- confirm (lit "Do you want to apply the changes?") question ;;
       (if negb yes then
          execGitCommand GitRestoreStaged ;;
          info (lit "Aborted! No changes applied.")
               (Some (lit "User aborted the operation `commitProjectFiles`.")) ;;
          exit 0
        else ret tt) ;;
       execGitCommand (GitCommit message) ;;
       ret true)
    (fun err =>
       execGitCommand GitRestoreStaged ;;
       throw (LoggerErrorHandler (lit "Failed to commit project files")
                                 (err_message err))).

(** [commitExtensionFiles(data)] *)
Definition commitExtensionFiles (data : ExtensionPackData) : M bool :=
  try_catch
    (execGitCommand (GitAdd [lit "."]) ;;
     if blank (message data) then
       info (lit "No changes to commit for extension files.") None ;;
       ret false
     else
       info (lit "The following changes will be applied:" ++ [LF]) (Some (message data)) ;;
       console_log (message data) ;;
       yes <- confirm (lit "Do you want to apply the changes?") question ;;
       (if negb yes then
          execGitCommand GitRestoreStaged ;;
          info (lit "Aborted! No changes applied.")
               (Some (lit "User aborted the operation `commitExtensionFiles`.")) ;;
          exit 0
        else ret tt) ;;
       execGitCommand (GitCommit (message data)) ;;
       ret true)
    (fun err =>
       execGitCommand GitRestoreStaged ;;
       throw (LoggerErrorHandler (lit "Failed to commit changes")
                                 (err_message err))).

(** [publish(data)], not called by [makeRelease]. *)
Definition publish (data : ExtensionPackData) : M unit :=
  throw (LoggerErrorHandler (lit "Not implemented yet")
                            (lit "The `publish` function is not implemented yet.")).

(** [LoggerErrorHandler.handle(err.message, err, error)] (logger.js): the
    error is logged and the process ends with status 1. *)
Definition handle (err : exn) : M unit :=
  match err with
  | LoggerErrorHandler message verboseContent => error message (Some verboseContent)
  | Error message => error message (Some message)
  end ;;
  path <- (fun w => (Ret (logPath w), w)) ;;
  console_log (lit "See " ++ path ++ lit " for more details." ++ [LF]) ;;
  exit 1.

(** [makeRelease()] *)
Definition makeRelease : M unit :=
  try_catch
    (let extensionFiles :=
       [lit ".vscode/extensions.json"; lit "package.json";
        lit "assets/icon_128.png"; lit "README.md"] in
     projectFiles <- getProjectFiles extensionFiles ;;
     data <- getExtensionPackData extensionFiles ;;
     commitProjectFiles projectFiles ;;
     data <- updateExtensionPack data ;;
     commitExtensionFiles data ;;
     ret tt)
    handle.

End Workflow.

(** ** Vocabulary of the statements *)

(** An ANSI escape sequence as [removeANSI] sees it: escape, left bracket,
    one or more decimal digits, the letter m. *)
Definition ANSI_code (code : jsstring) : Prop :=
  exists digits,
    digits <> [] /\ Forall (fun d => is_digit d = true) digits
    /\ code = ESC :: LBRACKET :: digits ++ [LOWER_M].

(** The string holds no ANSI escape sequence. *)
Definition noANSI (s : jsstring) : Prop :=
  forall before code after, ANSI_code code -> s <> before ++ code ++ after.

(** A decision of [noANSI], for concrete strings. *)
Fixpoint hasANSI (s : jsstring) : bool :=
  match s with
  | [] => false
  | _ :: s' =>
      match ansi_match s with Some _ => true | None => false end || hasANSI s'
  end.

(** A code unit that is no left bracket, no digit and no m ends every
    attempt to match that has not finished before it. *)
Definition breaks (c : N) : Prop :=
  c <> LBRACKET /\ c <> LOWER_M /\ is_digit c = false.

(** The three classes of the change report. *)
Inductive action : Type := Keep | Remove | Add.

Definition actionName (a : action) : jsstring :=
  match a with
  | Keep => lit "keep"
  | Remove => lit "remove"
  | Add => lit "add"
  end.

(** Every current extension is kept or removed, every updated extension
    that is not current is added. *)
Definition classify (current updated : list jsstring) : list (jsstring * action) :=
  map (fun ext => (ext, if includes updated ext then Keep else Remove)) current
  ++ map (fun ext => (ext, Add))
         (filter (fun ext => negb (includes current ext)) updated).

(** The key an entry is sorted by. *)
Definition sortKey (entry : jsstring * action) : jsstring :=
  fst entry ++ [BAR] ++ actionName (snd entry).

(** The marker of a class: a bullet for kept, a minus for removed, a plus
    for added. *)
Definition marker (a : action) : N :=
  match a with
  | Keep => BULLET
  | Remove => MINUS
  | Add => PLUS
  end.

Definition colorOf (a : action) : jsstring :=
  match a with
  | Keep => lit "37"
  | Remove => lit "31"
  | Add => lit "32"
  end.

(** The line of an entry in the report: two spaces, the marker, a space,
    the name and a line feed, inside the colour of the class. *)
Definition reportLine (entry : jsstring * action) : jsstring :=
  [ESC; LBRACKET] ++ colorOf (snd entry) ++ [LOWER_M]
  ++ ([32; 32; marker (snd entry); 32] ++ fst entry ++ [LF])
  ++ [ESC; LBRACKET; 48; LOWER_M].

(** The same line once [removeANSI] has gone over it. *)
Definition plainLine (entry : jsstring * action) : jsstring :=
  [32; 32; marker (snd entry); 32] ++ removeANSI (fst entry).

(** Some current extension is not among the updated ones. *)
Definition hasRemoved (current updated : list jsstring) : bool :=
  existsb (fun ext => negb (includes updated ext)) current.

(** Some updated extension is not among the current ones. *)
Definition hasAdded (current updated : list jsstring) : bool :=
  existsb (fun ext => negb (includes current ext)) updated.

(** An identifier the report can carry on a line of its own: it holds no
    vertical bar, which separates name and action in the sorted list, and no
    line feed. *)
Definition identifier (ext : jsstring) : Prop :=
  ~ In BAR ext /\ ~ In LF ext.

Definition identifierb (ext : jsstring) : bool :=
  negb (existsb (N.eqb BAR) ext) && negb (existsb (N.eqb LF) ext).

(** No identifier of the list is the beginning of another one. *)
Definition prefixFree (names : list jsstring) : Prop :=
  forall x y, In x names -> In y names -> startsWith y x = true -> x = y.

(** Reading a quoted string back, to show that [stringifyStrings] tells
    arrays apart: the text up to the closing quote with its escapes undone,
    and what follows the quote. *)
Definition unhexDigit (c : N) : N := if c <? 58 then c - 48 else c - 87.

Definition unescape (e : N) : N :=
  if e =? 98 then 8
  else if e =? 116 then 9
  else if e =? 110 then 10
  else if e =? 102 then 12
  else if e =? 114 then 13
  else e.

Fixpoint unquote (s : jsstring) : option (jsstring * jsstring) :=
  match s with
  | [] => None
  | c :: r =>
      if c =? QUOTE then Some ([], r)
      else if c =? BACKSLASH then
        match r with
        | [] => None
        | e :: r1 =>
            if e =? 117 then
              match r1 with
              | h1 :: h2 :: h3 :: h4 :: r2 =>
                  match unquote r2 with
                  | Some (t, rest) =>
                      Some ((4096 * unhexDigit h1 + 256 * unhexDigit h2
                             + 16 * unhexDigit h3 + unhexDigit h4) :: t, rest)
                  | None => None
                  end
              | _ => None
              end
            else
              match unquote r1 with
              | Some (t, rest) => Some (unescape e :: t, rest)
              | None => None
              end
        end
      else
        match unquote r with
        | Some (t, rest) => Some (c :: t, rest)
        | None => None
        end
  end.

(** What follows the first quoted string of an array. *)
Fixpoint afterFirst (l : list jsstring) : jsstring :=
  match l with
  | [] => [93]
  | x :: l' => 44 :: quoteJSONString x ++ afterFirst l'
  end.

(** The staging area after [git add paths]. *)
Definition stageOf (paths : list jsstring) (w : World) : list jsstring :=
  staged w
  ++ filter (fun f => selected paths f && negb (includes (staged w) f))
            (modified w).

(** The files [getStagedFiles] reads off the output of git for a staging
    area. *)
Definition listedFiles (stagedPaths : list jsstring) : list jsstring :=
  filter (fun file => negb (blank file))
         (split (concat (map (fun f => cquote f ++ [LF]) stagedPaths)) LF).

(** A staged file other than the manifest, as the script tells them apart:
    its path does not hold 'package.json'. *)
Definition nonManifest (f : jsstring) : bool :=
  negb (str_includes f (lit "package.json")).

(** A key other than the two [updatePackageJson] assigns. *)
Definition otherKey (k : jsstring) : bool :=
  negb (str_eqb k (lit "version")) && negb (str_eqb k (lit "extensionPack")).

(** The message of a run so far: empty, or opened by the title line with
    the version placeholder. *)
Definition titled (m : jsstring) : Prop :=
  m = [] \/ exists rest, m = lit "feat(extension): Updates to v{{version}}" ++ rest.

(** The notice of [updateExtensionPack] when it writes nothing. *)
Definition noChangesNotice : event :=
  Logged TInfo (lit "No changes needed in `package.json` file.") None.

(** The extension files [makeRelease] names. *)
Definition releaseFiles : list jsstring :=
  [lit ".vscode/extensions.json"; lit "package.json";
   lit "assets/icon_128.png"; lit "README.md"].

(** ** A world and a runtime for the worked examples *)


Definition exampleManifest : json :=
  JObject [(lit "name", JString (lit "dev-essentials-pack"));
           (lit "version", JString (lit "1.2.3"));
           (lit "extensionPack", strings [lit "a.b"; lit "c.d"])].

Definition exampleRecommendations : json :=
  JObject [(lit "recommendations", strings [lit "c.d"; lit "e.f"])].

(** The runtime of the examples parses three texts only, finds no number
    outside the modelled integers, and joins paths with a slash. *)
Definition exampleRuntime : Runtime :=
  {| Number_other := fun _ => NaN;
     succ_other := fun _ => NaN;
     toString_other := fun _ => lit "NaN";
     JSON_parse := fun text =>
       if str_eqb text (lit "manifest") then inl exampleManifest
       else if str_eqb text (lit "recommendations") then inl exampleRecommendations
       else if str_eqb text (lit "same") then
              inl (JObject [(lit "recommendations", strings [lit "c.d"; lit "a.b"])])
       else inr (lit "Unexpected token");
     JSON_stringify := fun _ => lit "{}";
     path_join := fun parts => join parts (lit "/");
     path_resolve := fun dir p =>
       if startsWith p (lit "/") then p else dir ++ lit "/" ++ p;
     path_relative := fun from to =>
       if startsWith to (from ++ lit "/") then skipn (S (length from)) to
       else to |}.

(** A repository where the manifest and a project file are modified, the
    user answers no, and no git command fails. *)
Definition exampleWorld : World :=
  {| cwd := lit "/repo";
     tree := [(lit ".git", Dir [(lit "HEAD", File)]);
              (lit ".vscode", Dir [(lit "extensions.json", File)]);
              (lit "package.json", File);
              (lit "src", Dir [(lit "index.js", File)])];
     logPath := lit "/repo/scripts/.tmp/release.log";
     files := [(lit "/repo/package.json", lit "manifest");
               (lit "/repo/.vscode/extensions.json", lit "recommendations")];
     modified := [lit "package.json"; lit "src/index.js"];
     staged := [];
     commits := [];
     stdin := [lit "n"];
     gitFailure := fun _ => None;
     events := [] |}.

Definition exampleData : ExtensionPackData :=
  {| extensionFiles := releaseFiles;
     packageJsonPath := lit "/repo/package.json";
     packageJson := [(lit "name", JString (lit "dev-essentials-pack"));
                     (lit "version", JString (lit "1.2.3"));
                     (lit "extensionPack", strings [lit "a.b"; lit "c.d"])];
     currentVersion := lit "1.2.3";
     updatedVersion := None;
     currentExtensions := [lit "a.b"; lit "c.d"];
     updatedExtensions := [lit "c.d"; lit "e.f"];
     message := [] |}.

(** The same repository with nothing modified and recommendations that are
    the current extensions in another order. *)
Definition quietWorld : World :=
  {| cwd := lit "/repo";
     tree := tree exampleWorld;
     logPath := logPath exampleWorld;
     files := [(lit "/repo/package.json", lit "manifest");
               (lit "/repo/.vscode/extensions.json", lit "same")];
     modified := [];
     staged := [];
     commits := [];
     stdin := [];
     gitFailure := fun _ => None;
     events := [] |}.

(** ** logger.js: [Logger.__log]

    The text the logger shows on the console and the text it appends to the
    log file.  The placeholders of the message are [{{0}}], [{{1}}], ...;
    [String.prototype.replace] with the regular expression
    [/\{\{(\d+)\}\}/g] scans from the left as [removeANSI] does. *)

(** The digits after the first one and the two closing braces: the digits
    read and the number of code units passed. *)
Fixpoint placeholder_tail (s : jsstring) : option (jsstring * nat) :=
  match s with
  | [] => None
  | c :: s' =>
      if is_digit c then
        match placeholder_tail s' with
        | Some (digits, n) => Some (c :: digits, S n)
        | None => None
        end
      else if c =? 125 then
        match s' with
        | c' :: _ => if c' =? 125 then Some ([], 2%nat) else None
        | [] => None
        end
      else None
  end.

(** The match at the head of [s]: its digits and its length. *)
Definition placeholder_match (s : jsstring) : option (jsstring * nat) :=
  match s with
  | a :: b :: d :: s' =>
      if (a =? 123) && (b =? 123) && is_digit d then
        match placeholder_tail s' with
        | Some (digits, n) => Some (d :: digits, (3 + n)%nat)
        | None => None
        end
      else None
  | _ => None
  end.

(** [options.args[Number(p1)]] inside the template literal of [colorize]:
    the argument, or 'undefined' past the end of the array. *)
Definition argText (args : list jsstring) (digits : jsstring) : jsstring :=
  match digitsOf digits with
  | Some u =>
      match nth_error args (N.to_nat (N.of_uint u)) with
      | Some a => a
      | None => lit "undefined"
      end
  | None => lit "undefined"
  end.

(** The replace with the callback: every placeholder gives way to its
    argument in blue. *)
Fixpoint fillPlaceholders (args : list jsstring) (skip : nat) (s : jsstring)
  : res jsstring :=
  match s with
  | [] => Ok []
  | c :: s' =>
      match skip with
      | S k => fillPlaceholders args k s'
      | O =>
          match placeholder_match s with
          | Some (digits, S k) =>
              match colorize (lit "blue") (argText args digits) with
              | Ok text =>
                  match fillPlaceholders args k s' with
                  | Ok rest => Ok (text ++ rest)
                  | Raise e => Raise e
                  end
              | Raise e => Raise e
              end
          | _ =>
              match fillPlaceholders args 0 s' with
              | Ok rest => Ok (c :: rest)
              | Raise e => Raise e
              end
          end
      end
  end.

(** The colour and the tag the [switch] puts before the message. *)
Definition typeColor (type : LogType) : jsstring :=
  match type with
  | TInfo => lit "cyan"
  | TSuccess => lit "green"
  | TWarning => lit "yellow"
  | TQuestion => lit "magenta"
  | TError => lit "red"
  end.

Definition typeTag (type : LogType) : jsstring :=
  match type with
  | TInfo => lit "[INFO] "
  | TSuccess => lit "[SUCCESS] "
  | TWarning => lit "[WARNING] "
  | TQuestion => lit "[QUESTION] "
  | TError => lit "[ERROR] "
  end.

(** [show(value)]: printed unless the type is 'question'. *)
Definition show_unless_question (type : LogType) (value : jsstring)
  : list jsstring :=
  match type with
  | TQuestion => []
  | _ => [value]
  end.

(** The body of the [try] of [Logger.__log]: the lines shown on the console
    and the text appended to the log file.  [verbose] is
    [Logger.__VERBOSE]; a verbose content that is missing or empty is
    falsy. *)
Definition Logger_log_body (verbose : bool) (type : LogType)
  (message : jsstring) (verboseContent : option jsstring)
  (args : list jsstring) : res (list jsstring * jsstring) :=
  match colorize (lit "white") message with
  | Raise e => Raise e
  | Ok white =>
      match (if Nat.ltb 0 (length args) then fillPlaceholders args 0 white
             else Ok white) with
      | Raise e => Raise e
      | Ok filled =>
          match colorize (typeColor type) (typeTag type) with
          | Raise e => Raise e
          | Ok tag =>
              let line := tag ++ filled in
              let shown := show_unless_question type line in
              match verboseContent with
              | Some (c :: content) =>
                  match colorize (lit "white") (c :: content) with
                  | Raise e => Raise e
                  | Ok more =>
                      Ok (shown
                          ++ (if verbose
                              then show_unless_question type (c :: content)
                              else []),
                          removeANSI (line ++ [LF] ++ more) ++ [LF; LF])
                  end
              | _ => Ok (shown, removeANSI line ++ [LF; LF])
              end
          end
      end
  end.

(** [Logger.__log(options)]: an error inside is thrown again as an
    [Error]. *)
Definition Logger_log (verbose : bool) (type : LogType) (message : jsstring)
  (verboseContent : option jsstring) (args : list jsstring)
  : res (list jsstring * jsstring) :=
  match Logger_log_body verbose type message verboseContent args with
  | Ok r => Ok r
  | Raise err =>
      match colorize (lit "red") (lit "[ERROR]") with
      | Ok tag =>
          Raise (Error (tag ++ lit " Failed to log message:" ++ [LF]
                        ++ err_message err ++ [LF; LF]))
      | Raise e => Raise e
      end
  end.

(** ** Vocabulary of the further statements *)

(** A code unit git prints as it is: a printable ASCII character other
    than the double quote and the backslash. *)
Definition plainUnit (c : N) : bool :=
  (32 <=? c) && (c <=? 126) && negb (c =? QUOTE) && negb (c =? BACKSLASH).

(** A path git prints as it is, on a line [getStagedFiles] keeps: its code
    units are plain and it is not blank. *)
Definition properPath (f : jsstring) : Prop :=
  forallb plainUnit f = true /\ blank f = false.

Definition properPathb (f : jsstring) : bool :=
  forallb plainUnit f && negb (blank f).

(** A code unit that the shell, between double quotes, and git, in a name,
    both leave as it is: a plain one other than the dollar sign and the
    backquote. *)
Definition quietUnit (c : N) : bool :=
  plainUnit c && negb (c =? DOLLAR) && negb (c =? 96).

Definition quietPath (f : jsstring) : Prop :=
  forallb quietUnit f = true /\ blank f = false.

Definition quietPathb (f : jsstring) : bool :=
  forallb quietUnit f && negb (blank f).

(** A code unit the shell hands on as it is between double quotes. *)
Definition handedOn (c : N) : bool :=
  negb ((c =? BACKSLASH) || (c =? DOLLAR) || (c =? 96) || (c =? QUOTE)
        || (c =? 0)).

(** An argument of [git add] that the shell hands to git as one word, as
    it is written, and that git reads as a path: letters, digits, dots,
    underscores, slashes and hyphens, the first not a hyphen. *)
Definition wordUnit (c : N) : bool :=
  ((48 <=? c) && (c <=? 57)) || ((65 <=? c) && (c <=? 90))
  || ((97 <=? c) && (c <=? 122))
  || (c =? DOT) || (c =? 95) || (c =? 47) || (c =? MINUS).

Definition shellWord (f : jsstring) : bool :=
  match f with
  | [] => false
  | c :: _ => negb (c =? MINUS) && forallb wordUnit f
  end.

(** The message of [getCommitMessageByStagedFiles] for files and a title
    that hold no double quote. *)
Definition stagedFilesMessage (files : list jsstring) (title : jsstring)
  : jsstring :=
  title ++ [LF; LF]
  ++ concat (map (fun file => lit "- " ++ file ++ [LF]) files).

(** Every double quote of the text comes right after a backslash. *)
Definition quotesEscaped (s : jsstring) : Prop :=
  forall before after,
    s = before ++ QUOTE :: after -> exists before', before = before' ++ [BACKSLASH].

(** A line [readJsonFile] passes on to the parser. *)
Definition keptLine (line : jsstring) : bool :=
  negb (blank line) && negb (startsWith (trim line) (lit "//")).

(** A piece of coloured text, as [colorize] returns it. *)
Definition colorized (piece : jsstring * jsstring) : jsstring :=
  match colorize (fst piece) (snd piece) with
  | Ok text => text
  | Raise _ => []
  end.

(** A working directory without the manifest and the recommendations. *)
Definition bareWorld : World :=
  {| cwd := cwd exampleWorld;
     tree := [];
     files := [];
     logPath := logPath exampleWorld;
     modified := [];
     staged := [];
     commits := [];
     stdin := [];
     gitFailure := fun _ => None;
     events := [] |}.

(** What the two commit functions share once there is a message: the
    changes are shown, the user is asked, a refusal unstages and ends the
    process, an agreement commits.  [aborted] is the verbose text of the
    refusal, which names the function. *)
Definition confirmAndCommit (message aborted : jsstring) : M bool :=
  (info (lit "The following changes will be applied:" ++ [LF]) (Some message) ;;
   console_log message ;;
   yes <- confirm (lit "Do you want to apply the changes?") question ;;
   (if negb yes then
      execGitCommand GitRestoreStaged ;;
      info (lit "Aborted! No changes applied.") (Some aborted) ;;
      exit 0
    else ret tt) ;;
   execGitCommand (GitCommit message) ;;
   ret true)%release.

(** *** The command line as the shell reads it

    [execSync] hands the command line to /bin/sh, which cuts it into the
    words it runs.  Outside double quotes a blank ends a word, and the code
    units kept for a word are those that stand for themselves whatever
    surrounds them (those of [wordUnit]); between double quotes the text is
    read as [shellDoubleQuoted] reads it, and it goes on the word that is
    open.  Any other line (an expansion, a pattern, an operator, a quote
    that is left open) has no reading here. *)
Definition push (word : option jsstring) (units : jsstring) : option jsstring :=
  @Some jsstring (match word with Some w => w ++ units | None => units end).

Fixpoint shellWords (word : option jsstring) (quoted : bool) (line : jsstring)
  : option (list jsstring) :=
  match line with
  | [] =>
      if quoted then None
      else Some (match word with Some w => [w] | None => [] end)
  | c :: rest =>
      if quoted then
        if c =? QUOTE then shellWords word false rest
        else if c =? BACKSLASH then
          match rest with
          | [] => None
          | d :: rest' =>
              if (d =? DOLLAR) || (d =? 96) || (d =? QUOTE) || (d =? BACKSLASH)
              then shellWords (push word [d]) true rest'
              else if d =? LF then shellWords word true rest'
              else if d =? 0 then None
              else shellWords (push word [c; d]) true rest'
          end
        else if (c =? DOLLAR) || (c =? 96) || (c =? 0) then None
        else shellWords (push word [c]) true rest
      else if (c =? 32) || (c =? 9) then
        match word with
        | Some w => option_map (cons w) (shellWords None false rest)
        | None => shellWords None false rest
        end
      else if c =? QUOTE then shellWords (push word []) true rest
      else if wordUnit c then shellWords (push word [c]) false rest
      else None
  end.

(** The words of a command line. *)
Definition commandLine (line : jsstring) : option (list jsstring) :=
  shellWords None false line.
(** ** Facts about the string order *)

Lemma compare_units_refl x : compare_units x x = Eq.
Proof.
  induction x as [|a x IH]; simpl; [reflexivity|].
  now rewrite N.compare_refl.
Qed.

Lemma compare_units_eq x : forall y, compare_units x y = Eq -> x = y.
Proof.
  induction x as [|a x IH]; intros [|b y]; simpl; try discriminate; auto.
  destruct (a ?= b) eqn:E; try discriminate.
  intros H. apply N.compare_eq in E. subst. f_equal. now apply IH.
Qed.

Lemma compare_units_antisym x : forall y,
  compare_units y x = CompOpp (compare_units x y).
Proof.
  induction x as [|a x IH]; intros [|b y]; simpl; auto.
  rewrite (N.compare_antisym a b).
  destruct (a ?= b); simpl; auto.
Qed.

Lemma compare_units_lt_trans x : forall y z,
  compare_units x y = Lt -> compare_units y z = Lt -> compare_units x z = Lt.
Proof.
  induction x as [|a x IH]; intros [|b y] [|c z]; simpl; try discriminate; auto.
  destruct (a ?= b) eqn:Eab; try discriminate;
    destruct (b ?= c) eqn:Ebc; try discriminate; intros H1 H2.
  - apply N.compare_eq in Eab, Ebc. subst. rewrite N.compare_refl. eauto.
  - apply N.compare_eq in Eab. subst. now rewrite Ebc.
  - apply N.compare_eq in Ebc. subst. now rewrite Eab.
  - rewrite N.compare_lt_iff in Eab, Ebc.
    assert (E : (a ?= c) = Lt) by (apply N.compare_lt_iff; lia).
    now rewrite E.
Qed.

Lemma str_eqb_eq x y : str_eqb x y = true <-> x = y.
Proof.
  unfold str_eqb. split.
  - destruct (compare_units x y) eqn:E; try discriminate.
    intros _. now apply compare_units_eq.
  - intros ->. now rewrite compare_units_refl.
Qed.

Lemma str_eqb_refl x : str_eqb x x = true.
Proof. now apply str_eqb_eq. Qed.

Lemma str_eqb_neq x y : str_eqb x y = false <-> x <> y.
Proof.
  rewrite <- str_eqb_eq. destruct (str_eqb x y); intuition congruence.
Qed.

Lemma str_le_refl x : str_le x x.
Proof. unfold str_le. now rewrite compare_units_refl. Qed.

Lemma str_le_trans x y z : str_le x y -> str_le y z -> str_le x z.
Proof.
  unfold str_le. intros H1 H2.
  destruct (compare_units x y) eqn:Exy; [| |congruence].
  - apply compare_units_eq in Exy. now subst.
  - destruct (compare_units y z) eqn:Eyz; [| |congruence].
    + apply compare_units_eq in Eyz. subst. now rewrite Exy.
    + now rewrite (compare_units_lt_trans _ _ _ Exy Eyz).
Qed.

Lemma str_le_antisym x y : str_le x y -> str_le y x -> x = y.
Proof.
  unfold str_le. intros H1 H2. rewrite (compare_units_antisym x y) in H2.
  destruct (compare_units x y) eqn:E; simpl in *; try congruence.
  now apply compare_units_eq.
Qed.

Lemma str_ltb_false_le x y : str_ltb y x = false -> str_le x y.
Proof.
  unfold str_ltb, str_le. rewrite (compare_units_antisym y x).
  destruct (compare_units y x); simpl; congruence.
Qed.

Lemma str_ltb_true_le x y : str_ltb y x = true -> str_le y x.
Proof.
  unfold str_ltb, str_le. destruct (compare_units y x); congruence.
Qed.

(** ** Facts about [includes] and [sort] *)

Lemma includes_In l x : includes l x = true <-> In x l.
Proof.
  unfold includes. rewrite existsb_exists. split.
  - intros (y & Hy & E). apply str_eqb_eq in E. now subst.
  - intros H. exists x. split; [assumption | apply str_eqb_refl].
Qed.

Lemma includes_not_In l x : includes l x = false <-> ~ In x l.
Proof.
  rewrite <- includes_In. destruct (includes l x); intuition congruence.
Qed.

Lemma sort_insert_perm x l : Permutation (x :: l) (sort_insert x l).
Proof.
  induction l as [|y l IH]; simpl; [reflexivity|].
  destruct (str_ltb y x); [|reflexivity].
  rewrite perm_swap. now constructor.
Qed.

Lemma sort_perm l : Permutation l (sort l).
Proof.
  induction l as [|x l IH]; simpl; [constructor|].
  rewrite <- sort_insert_perm. now constructor.
Qed.

Lemma sort_In l x : In x (sort l) <-> In x l.
Proof.
  split; apply Permutation_in; [symmetry|]; apply sort_perm.
Qed.

Lemma sort_insert_sorted x l :
  StronglySorted str_le l -> StronglySorted str_le (sort_insert x l).
Proof.
  induction 1 as [|y l Hs IH Hall]; simpl.
  - repeat constructor.
  - destruct (str_ltb y x) eqn:E.
    + constructor; [assumption|].
      apply (Forall_forall (str_le y)). intros z Hz.
      apply (Permutation_in _ (Permutation_sym (sort_insert_perm x l))) in Hz.
      destruct Hz as [<-|Hz]; [now apply str_ltb_true_le|].
      now apply (proj1 (Forall_forall _ _) Hall).
    + apply str_ltb_false_le in E.
      constructor; [now constructor|].
      constructor; [assumption|].
      eapply Forall_impl; [|exact Hall].
      intros z Hz. eapply str_le_trans; eassumption.
Qed.

Lemma sort_sorted l : StronglySorted str_le (sort l).
Proof.
  induction l as [|x l IH]; simpl; [constructor | now apply sort_insert_sorted].
Qed.

(** Two sorted arrangements of the same strings are the same array. *)
Lemma sorted_perm_unique l : forall l',
  StronglySorted str_le l -> StronglySorted str_le l' ->
  Permutation l l' -> l = l'.
Proof.
  induction l as [|x l IH]; intros l' Hl Hl' HP.
  - now apply Permutation_nil in HP.
  - destruct l' as [|y l'].
    + symmetry in HP. now apply Permutation_nil in HP.
    + inversion Hl as [|? ? Hs Hall]; subst.
      inversion Hl' as [|? ? Hs' Hall']; subst.
      assert (x = y) as ->.
      { assert (Hx : In x (y :: l')) by (eapply Permutation_in; [exact HP | now left]).
        assert (Hy : In y (x :: l))
          by (eapply Permutation_in; [symmetry; exact HP | now left]).
        destruct Hx as [->|Hx]; [reflexivity|].
        destruct Hy as [->|Hy]; [reflexivity|].
        apply str_le_antisym.
        - now apply (proj1 (Forall_forall _ _) Hall).
        - now apply (proj1 (Forall_forall _ _) Hall'). }
      f_equal. apply IH; try assumption.
      now apply Permutation_cons_inv in HP.
Qed.

Lemma sort_of_perm l l' : Permutation l l' -> sort l = sort l'.
Proof.
  intros HP. apply sorted_perm_unique; try apply sort_sorted.
  rewrite <- (sort_perm l), <- (sort_perm l'). exact HP.
Qed.

Lemma sort_of_sorted l : StronglySorted str_le l -> sort l = l.
Proof.
  intros H. apply sorted_perm_unique;
    [apply sort_sorted | assumption | symmetry; apply sort_perm].
Qed.

Lemma nodupb_NoDup l : nodupb l = true -> NoDup l.
Proof.
  induction l as [|x l IH]; simpl; intros H; constructor;
    apply andb_true_iff in H; destruct H as [H1 H2].
  - apply includes_not_In. now apply negb_true_iff.
  - now apply IH.
Defined.

(** ** The merge *)

Lemma mergeExtensions_In cur rec x :
  In x (mergeExtensions cur rec) <-> In x rec.
Proof.
  unfold mergeExtensions. rewrite sort_In, in_app_iff, !filter_In.
  rewrite includes_In, negb_true_iff, includes_not_In.
  destruct (in_dec (list_eq_dec N.eq_dec) x cur); tauto.
Qed.

(** C1.  For duplicate-free [current] and [recommended], the merged list is
    sorted in the lexicographic order of code units, its elements are exactly
    those of (current ∩ recommended) ∪ (recommended \ current), it holds no
    element of current \ recommended, and it is empty when both inputs are. *)
Theorem mergeExtensions_sorted_union (current recommended : list jsstring) :
  NoDup current -> NoDup recommended ->
  StronglySorted str_le (mergeExtensions current recommended)
  /\ (forall x, In x (mergeExtensions current recommended) <->
                (In x current /\ In x recommended)
                \/ (In x recommended /\ ~ In x current))
  /\ (forall x, In x current -> ~ In x recommended ->
                ~ In x (mergeExtensions current recommended))
  /\ (current = [] -> recommended = [] ->
      mergeExtensions current recommended = []).
Proof.
  intros _ _. split; [apply sort_sorted|]. split; [|split].
  - intros x. rewrite mergeExtensions_In.
    destruct (in_dec (list_eq_dec N.eq_dec) x current); tauto.
  - intros x _ Hn. now rewrite mergeExtensions_In.
  - intros -> ->. reflexivity.
Qed.

Lemma mergeExtensions_sorted_union_witness :
  let current := [lit "a.b"; lit "c.d"] in
  let recommended := [lit "c.d"; lit "e.f"] in
  NoDup current /\ NoDup recommended
  /\ StronglySorted str_le (mergeExtensions current recommended)
  /\ ~ In (lit "a.b") (mergeExtensions current recommended).
Proof.
  intros current recommended.
  assert (H1 : NoDup current) by (apply nodupb_NoDup; reflexivity).
  assert (H2 : NoDup recommended) by (apply nodupb_NoDup; reflexivity).
  destruct (mergeExtensions_sorted_union current recommended H1 H2)
    as (Hs & _ & Hex & _).
  split; [exact H1|]. split; [exact H2|]. split; [exact Hs|].
  apply Hex.
  - now left.
  - apply includes_not_In. reflexivity.
Defined.

(** C9.  For duplicate-free inputs the merge is the sorted recommended list:
    the kept elements of [current] add nothing to the recommendations. *)
Theorem mergeExtensions_is_sorted_recommended (current recommended : list jsstring) :
  NoDup current -> NoDup recommended ->
  mergeExtensions current recommended = sort recommended.
Proof.
  intros Hc Hr. unfold mergeExtensions. apply sort_of_perm.
  apply NoDup_Permutation; [|assumption|].
  - apply NoDup_app; [now apply NoDup_filter | now apply NoDup_filter |].
    intros x H1 H2. apply filter_In in H1, H2.
    destruct H1 as [H1 _], H2 as [_ H2].
    apply negb_true_iff, includes_not_In in H2. contradiction.
  - intros x. rewrite in_app_iff, !filter_In.
    rewrite includes_In, negb_true_iff, includes_not_In.
    destruct (in_dec (list_eq_dec N.eq_dec) x current); tauto.
Qed.

Lemma mergeExtensions_is_sorted_recommended_witness :
  let current := [lit "a.b"; lit "c.d"] in
  let recommended := [lit "e.f"; lit "c.d"] in
  NoDup current /\ NoDup recommended
  /\ mergeExtensions current recommended = [lit "c.d"; lit "e.f"].
Proof.
  intros current recommended.
  assert (H1 : NoDup current) by (apply nodupb_NoDup; reflexivity).
  assert (H2 : NoDup recommended) by (apply nodupb_NoDup; reflexivity).
  split; [exact H1|]. split; [exact H2|].
  rewrite (mergeExtensions_is_sorted_recommended current recommended H1 H2).
  reflexivity.
Defined.

(** ** [removeANSI] *)

Lemma ansi_tail_app s c t :
  c <> LOWER_M -> is_digit c = false ->
  ansi_tail (s ++ c :: t) = ansi_tail s.
Proof.
  intros Hm Hd. induction s as [|a s IH]; simpl.
  - apply N.eqb_neq in Hm. now rewrite Hm, Hd.
  - destruct (a =? LOWER_M); [reflexivity|].
    destruct (is_digit a); [now rewrite IH | reflexivity].
Qed.

Lemma ansi_tail_le s : forall n, ansi_tail s = Some n -> (n <= length s)%nat.
Proof.
  induction s as [|a s IH]; simpl; intros n H; [discriminate|].
  destruct (a =? LOWER_M).
  - injection H as <-. lia.
  - destruct (is_digit a); [|discriminate].
    destruct (ansi_tail s) as [k|]; [|discriminate].
    injection H as <-. specialize (IH k eq_refl). lia.
Qed.

Lemma ansi_match_le s n : ansi_match s = Some n -> (n <= length s)%nat.
Proof.
  destruct s as [|e [|b [|d s]]]; simpl; try discriminate.
  destruct ((e =? ESC) && (b =? LBRACKET) && is_digit d); [|discriminate].
  destruct (ansi_tail s) as [k|] eqn:E; [|discriminate].
  intros H. injection H as <-. apply ansi_tail_le in E. lia.
Qed.

Lemma ansi_match_app s c t :
  s <> [] -> breaks c -> ansi_match (s ++ c :: t) = ansi_match s.
Proof.
  intros Hs (Hb & Hm & Hd).
  destruct s as [|e [|b [|d s]]]; [congruence| | |]; simpl.
  - destruct t as [|d t]; [reflexivity|].
    apply N.eqb_neq in Hb. now rewrite Hb, andb_false_r.
  - now rewrite Hd, andb_false_r.
  - destruct ((e =? ESC) && (b =? LBRACKET) && is_digit d); [|reflexivity].
    now rewrite ansi_tail_app.
Qed.

Lemma strip_app c t : breaks c -> forall s k,
  (k <= length s)%nat -> strip k (s ++ c :: t) = strip k s ++ strip 0 (c :: t).
Proof.
  intros Hc. induction s as [|a s IH]; intros k Hk.
  - simpl in Hk. assert (k = 0%nat) as -> by lia. reflexivity.
  - change ((a :: s) ++ c :: t) with (a :: (s ++ c :: t)).
    destruct k as [|k].
    + cbn [strip].
      change (a :: (s ++ c :: t)) with ((a :: s) ++ c :: t).
      rewrite (ansi_match_app (a :: s) c t) by (congruence || assumption).
      destruct (ansi_match (a :: s)) as [[|n]|] eqn:E.
      * simpl. now rewrite IH by lia.
      * apply ansi_match_le in E. simpl in E. apply IH. lia.
      * simpl. now rewrite IH by lia.
    + cbn [strip]. apply IH. simpl in Hk. lia.
Qed.

Lemma removeANSI_app s c t :
  breaks c -> removeANSI (s ++ c :: t) = removeANSI s ++ removeANSI (c :: t).
Proof. intros Hc. apply strip_app; [assumption | lia]. Qed.

Lemma removeANSI_cons c s :
  c <> ESC -> removeANSI (c :: s) = c :: removeANSI s.
Proof.
  intros Hc. unfold removeANSI. cbn [strip].
  assert (E : ansi_match (c :: s) = None).
  { destruct s as [|b [|d s]]; simpl; try reflexivity.
    apply N.eqb_neq in Hc. now rewrite Hc. }
  now rewrite E.
Qed.

Lemma ansi_tail_code s : forall n, ansi_tail s = Some n ->
  exists digits rest,
    s = digits ++ LOWER_M :: rest
    /\ Forall (fun d => is_digit d = true) digits.
Proof.
  induction s as [|a s IH]; simpl; intros n H; [discriminate|].
  destruct (a =? LOWER_M) eqn:Em.
  - apply N.eqb_eq in Em. subst. exists [], s. split; [reflexivity | constructor].
  - destruct (is_digit a) eqn:Ed; [|discriminate].
    destruct (ansi_tail s) as [k|]; [|discriminate].
    destruct (IH k eq_refl) as (ds & rest & -> & Hds).
    exists (a :: ds), rest. split; [reflexivity | now constructor].
Qed.

Lemma ansi_match_code s n : ansi_match s = Some n ->
  exists code rest, ANSI_code code /\ s = code ++ rest.
Proof.
  destruct s as [|e [|b [|d s]]]; simpl; try discriminate.
  destruct (e =? ESC) eqn:Ee; [|discriminate].
  destruct (b =? LBRACKET) eqn:Eb; [|discriminate].
  destruct (is_digit d) eqn:Ed; [|discriminate]. simpl.
  destruct (ansi_tail s) as [k|] eqn:E; [|discriminate]. intros _.
  apply N.eqb_eq in Ee, Eb. subst.
  destruct (ansi_tail_code _ _ E) as (ds & rest & -> & Hds).
  exists (ESC :: LBRACKET :: (d :: ds) ++ [LOWER_M]), rest. split.
  - exists (d :: ds). repeat split; [discriminate | now constructor].
  - simpl. now rewrite <- app_assoc.
Qed.

Lemma noANSI_tail c s : noANSI (c :: s) -> noANSI s.
Proof.
  intros H before code after Hc ->.
  now apply (H (c :: before) code after Hc).
Qed.

Lemma noANSI_no_match s : noANSI s -> ansi_match s = None.
Proof.
  intros H. destruct (ansi_match s) as [n|] eqn:E; [|reflexivity].
  destruct (ansi_match_code _ _ E) as (code & rest & Hc & ->).
  now destruct (H [] code rest Hc).
Qed.

Lemma removeANSI_noANSI s : noANSI s -> removeANSI s = s.
Proof.
  unfold removeANSI. induction s as [|c s IH]; intros H; [reflexivity|].
  cbn [strip]. rewrite (noANSI_no_match _ H).
  f_equal. apply IH. now apply noANSI_tail in H.
Qed.

Lemma breaks_ESC : breaks ESC.
Proof. repeat split; discriminate. Qed.

Lemma breaks_LF : breaks LF.
Proof. repeat split; discriminate. Qed.

(** C10.  For each of the seven colours and every string without an ANSI
    escape sequence, [colorize] returns, and [removeANSI] of what it returns
    is the string again. *)
Theorem removeANSI_colorize (color s : jsstring) :
  In color colors -> noANSI s ->
  exists colored, colorize color s = Ok colored /\ removeANSI colored = s.
Proof.
  intros Hc Hs.
  assert (Hend : removeANSI (s ++ [ESC; LBRACKET; 48; LOWER_M]) = s).
  { rewrite (removeANSI_app s ESC _ breaks_ESC), (removeANSI_noANSI s Hs).
    apply app_nil_r. }
  unfold colors in Hc. simpl in Hc.
  repeat (destruct Hc as [<-|Hc];
          [eexists; split; [reflexivity | exact Hend] |]).
  contradiction.
Qed.

Lemma ansi_tail_complete digits rest :
  Forall (fun d => is_digit d = true) digits ->
  ansi_tail (digits ++ LOWER_M :: rest) <> None.
Proof.
  induction 1 as [|d ds Hd _ IH]; simpl; [discriminate|].
  destruct (d =? LOWER_M); [discriminate|]. rewrite Hd.
  destruct (ansi_tail (ds ++ LOWER_M :: rest)); [discriminate | contradiction].
Qed.

Lemma hasANSI_noANSI s : hasANSI s = false -> noANSI s.
Proof.
  intros H before. revert s H.
  induction before as [|c before IH]; intros s H code after Hc ->.
  - destruct Hc as (ds & Hne & Hds & ->).
    destruct ds as [|d ds]; [congruence|].
    inversion Hds as [|? ? Hd Hds']; subst.
    simpl in H. rewrite Hd in H. simpl in H. rewrite <- app_assoc in H.
    pose proof (ansi_tail_complete ds after Hds') as Hn. simpl in H.
    destruct (ansi_tail (ds ++ LOWER_M :: after)); [discriminate | contradiction].
  - simpl in H. apply orb_false_iff in H. destruct H as [_ H].
    now apply (IH _ H code after Hc).
Defined.

Lemma removeANSI_colorize_witness :
  noANSI (lit "  - a.b")
  /\ exists colored,
       colorize (lit "red") (lit "  - a.b") = Ok colored
       /\ removeANSI colored = lit "  - a.b".
Proof.
  assert (H : noANSI (lit "  - a.b")) by (apply hasANSI_noANSI; reflexivity).
  split; [exact H|].
  apply (removeANSI_colorize (lit "red") (lit "  - a.b")); [now left | exact H].
Defined.

(** ** Strings: [split], [trim], [startsWith] *)

Lemma split_app sep x y :
  ~ In sep x -> split (x ++ sep :: y) sep = x :: split y sep.
Proof.
  induction x as [|a x IH]; intros H; simpl.
  - now rewrite N.eqb_refl.
  - assert (Ha : (a =? sep) = false)
      by (apply N.eqb_neq; intros ->; apply H; now left).
    rewrite Ha, IH; [reflexivity|]. intros Hin. apply H. now right.
Qed.

Lemma split_whole sep x : ~ In sep x -> split x sep = [x].
Proof.
  induction x as [|a x IH]; intros H; simpl; [reflexivity|].
  assert (Ha : (a =? sep) = false)
    by (apply N.eqb_neq; intros ->; apply H; now left).
  rewrite Ha, IH; [reflexivity|]. intros Hin. apply H. now right.
Qed.

Lemma not_In_check c s : existsb (N.eqb c) s = false -> ~ In c s.
Proof.
  intros H Hin. assert (E : existsb (N.eqb c) s = true).
  { apply existsb_exists. exists c. split; [assumption | apply N.eqb_refl]. }
  congruence.
Defined.

Lemma startsWith_app p s : startsWith (p ++ s) p = true.
Proof.
  induction p as [|a p IH]; simpl; [reflexivity|].
  now rewrite N.eqb_refl, IH.
Qed.

Lemma trimStart_snoc c : is_ws c = false ->
  forall s, exists s', trimStart (s ++ [c]) = s' ++ [c].
Proof.
  intros Hc. induction s as [|a s IH]; simpl.
  - rewrite Hc. now exists [].
  - destruct (is_ws a); [exact IH|]. now exists (a :: s).
Qed.

Lemma trimEnd_cons c s : is_ws c = false -> exists s', trimEnd (c :: s) = c :: s'.
Proof.
  intros Hc. unfold trimEnd. simpl.
  destruct (trimStart_snoc c Hc (rev s)) as (s' & ->).
  exists (rev s'). now rewrite rev_app_distr.
Qed.

(** A line that starts with a code unit other than white space is not
    blank, and its trimmed text starts with that code unit. *)
Lemma trim_cons c s : is_ws c = false -> exists s', trim (c :: s) = c :: s'.
Proof.
  intros Hc. unfold trim. simpl. rewrite Hc. now apply trimEnd_cons.
Qed.

Lemma blank_cons c s : is_ws c = false -> blank (c :: s) = false.
Proof.
  intros Hc. unfold blank. now destruct (trim_cons c s Hc) as (s' & ->).
Qed.

Lemma trim_marked c x s : is_ws c = false ->
  startsWith (trim ([32; 32; c; 32] ++ s)) [x] = (x =? c).
Proof.
  intros Hc. unfold trim.
  change (trimStart ([32; 32; c; 32] ++ s)) with (trimStart (c :: 32 :: s)).
  simpl trimStart. rewrite Hc.
  destruct (trimEnd_cons c (32 :: s) Hc) as (s' & ->).
  simpl. apply andb_true_r.
Qed.

Lemma existsb_map {A B} (f : B -> bool) (g : A -> B) l :
  existsb f (map g l) = existsb (fun x => f (g x)) l.
Proof. induction l as [|x l IH]; simpl; [reflexivity | now rewrite IH]. Qed.

Lemma existsb_ext {A} (f g : A -> bool) l :
  (forall x, f x = g x) -> existsb f l = existsb g l.
Proof.
  intros H. induction l as [|x l IH]; simpl; [reflexivity | now rewrite H, IH].
Qed.

Lemma existsb_filter_all {A} (f : A -> bool) l :
  existsb (fun _ => true) (filter f l) = existsb f l.
Proof.
  induction l as [|x l IH]; simpl; [reflexivity|].
  destruct (f x); simpl; [reflexivity | exact IH].
Qed.

Lemma filter_none {A} (f : A -> bool) l :
  Nat.eqb (length (filter f l)) 0 = negb (existsb f l).
Proof.
  induction l as [|x l IH]; simpl; [reflexivity|].
  destruct (f x); simpl; [reflexivity | exact IH].
Qed.

Lemma existsb_perm {A} (f : A -> bool) l l' :
  Permutation l l' -> existsb f l = existsb f l'.
Proof.
  induction 1 as [|x l l' _ IH|x y l|l l' l'' _ IH1 _ IH2]; simpl.
  - reflexivity.
  - now rewrite IH.
  - destruct (f x), (f y); reflexivity.
  - congruence.
Qed.

(** ** The change report *)

Lemma changeList_classify current updated :
  changeList current updated = map sortKey (classify current updated).
Proof.
  unfold changeList, classify. rewrite map_app, !map_map. f_equal.
  apply map_ext. intros ext. now destruct (includes updated ext).
Qed.

Lemma endsWith_keep (entry : jsstring * action) :
  endsWith (sortKey entry) (lit "|keep")
  = match snd entry with Keep => true | _ => false end.
Proof.
  destruct entry as [name a]. unfold endsWith, sortKey. simpl fst. simpl snd.
  rewrite rev_app_distr. now destruct a.
Qed.

(** The test on the filtered list: nothing but 'keep' entries exactly when
    nothing is removed and nothing is added. *)
Lemma only_kept current updated :
  Nat.eqb (length (filter (fun ext => negb (endsWith ext (lit "|keep")))
                          (changeList current updated))) 0
  = negb (hasRemoved current updated || hasAdded current updated).
Proof.
  rewrite filter_none, changeList_classify, existsb_map. f_equal.
  unfold classify. rewrite existsb_app, !existsb_map. f_equal.
  - unfold hasRemoved. apply existsb_ext. intros ext.
    rewrite endsWith_keep. simpl. now destruct (includes updated ext).
  - unfold hasAdded. rewrite <- (existsb_filter_all (fun ext => negb (includes current ext))).
    apply existsb_ext.
    intros ext. now rewrite endsWith_keep.
Qed.

Lemma appendChange_line message name a :
  ~ In BAR name ->
  appendChange message (sortKey (name, a)) = Ok (message ++ reportLine (name, a)).
Proof.
  intros H. unfold appendChange, sortKey. simpl fst. simpl snd.
  change (name ++ [BAR] ++ actionName a) with (name ++ BAR :: actionName a).
  rewrite (split_app BAR name _ H).
  now destruct a.
Qed.

Lemma appendChanges_lines entries : forall message,
  Forall (fun e => ~ In BAR (fst e)) entries ->
  appendChanges message (map sortKey entries)
  = Ok (message ++ concat (map reportLine entries)).
Proof.
  induction entries as [|[name a] entries IH]; intros message H; simpl.
  - now rewrite app_nil_r.
  - inversion H as [|? ? Hn Hrest]; subst. simpl in Hn.
    rewrite (appendChange_line message name a Hn), (IH _ Hrest).
    now rewrite <- app_assoc.
Qed.

Lemma classify_kept current updated :
  Forall (fun entry => snd entry = Keep) (classify current updated)
  <-> hasRemoved current updated || hasAdded current updated = false.
Proof.
  unfold classify, hasRemoved, hasAdded.
  rewrite Forall_app, !Forall_map, orb_false_iff. simpl.
  split; intros [H1 H2]; split.
  - destruct (existsb _ current) eqn:E; [|reflexivity].
    apply existsb_exists in E. destruct E as (ext & Hin & E).
    apply (proj1 (Forall_forall _ _) H1) in Hin.
    destruct (includes updated ext); discriminate.
  - destruct (existsb _ updated) eqn:E; [|reflexivity].
    apply existsb_exists in E. destruct E as (ext & Hin & E).
    assert (Hf : In ext (filter (fun ext => negb (includes current ext)) updated))
      by (apply filter_In; now split).
    apply (proj1 (Forall_forall _ _) H2) in Hf. discriminate.
  - apply Forall_forall. intros ext Hin.
    destruct (includes updated ext) eqn:E; [reflexivity|].
    assert (Ht : existsb (fun ext => negb (includes updated ext)) current = true).
    { apply existsb_exists. exists ext. split; [assumption | now rewrite E]. }
    congruence.
  - apply Forall_forall. intros ext Hin. apply filter_In in Hin.
    assert (Ht : existsb (fun ext => negb (includes current ext)) updated = true).
    { apply existsb_exists. now exists ext. }
    congruence.
Qed.

Lemma same_list_all_kept A : hasRemoved A A || hasAdded A A = false.
Proof.
  assert (H : existsb (fun ext => negb (includes A ext)) A = false).
  { destruct (existsb _ A) eqn:E; [|reflexivity].
    apply existsb_exists in E. destruct E as (ext & Hin & E).
    apply includes_In in Hin. rewrite Hin in E. discriminate. }
  unfold hasRemoved, hasAdded. now rewrite H.
Qed.

Lemma report_of_kept current updated :
  hasRemoved current updated || hasAdded current updated = false ->
  getCommitMessageByExtensionListChanges current updated = Ok [].
Proof.
  intros H. unfold getCommitMessageByExtensionListChanges.
  now rewrite only_kept, H.
Qed.

Lemma classify_names (P : jsstring -> Prop) current updated :
  Forall P current -> Forall P updated ->
  Forall (fun entry => P (fst entry)) (classify current updated).
Proof.
  intros Hc Hu. unfold classify. rewrite Forall_app, !Forall_map. simpl.
  split; [exact Hc|].
  apply Forall_forall. intros ext Hin. apply filter_In in Hin.
  now apply (proj1 (Forall_forall _ _) Hu).
Qed.

(** The report of a change: the header and the lines of the entries in the
    order of their sort keys. *)
Lemma report_of_change current updated :
  Forall (fun ext => ~ In BAR ext) current ->
  Forall (fun ext => ~ In BAR ext) updated ->
  hasRemoved current updated || hasAdded current updated = true ->
  exists entries,
    Permutation (classify current updated) entries
    /\ StronglySorted str_le (map sortKey entries)
    /\ getCommitMessageByExtensionListChanges current updated
       = Ok (reportHeader ++ concat (map reportLine entries)).
Proof.
  intros Hc Hu H.
  assert (HP : Permutation (sort (changeList current updated))
                           (map sortKey (classify current updated))).
  { rewrite <- changeList_classify. symmetry. apply sort_perm. }
  destruct (Permutation_map_inv sortKey (classify current updated) HP)
    as (entries & Hsort & Hperm).
  exists entries. split; [exact Hperm|]. split.
  - rewrite <- Hsort. apply sort_sorted.
  - unfold getCommitMessageByExtensionListChanges.
    rewrite only_kept, H, Hsort. simpl negb. cbv iota.
    rewrite appendChanges_lines; [reflexivity|].
    eapply Permutation_Forall; [exact Hperm|].
    now apply (classify_names (fun ext => ~ In BAR ext)).
Qed.

(** The order of the keys is the order of the names unless one name is the
    beginning of the other. *)
Lemma key_order_names x : forall y a b,
  str_le (x ++ BAR :: a) (y ++ BAR :: b) ->
  (startsWith y x = true -> x = y) ->
  (startsWith x y = true -> x = y) ->
  str_le x y.
Proof.
  unfold str_le.
  induction x as [|c x IH]; intros [|d y] a b H Hxy Hyx;
    cbn [compare_units]; try discriminate.
  - specialize (Hyx eq_refl). discriminate Hyx.
  - cbn [app compare_units] in H.
    destruct (c ?= d) eqn:E; try discriminate; [|exact H].
    apply N.compare_eq in E. subst d.
    apply (IH y a b H).
    + intros S. cbn [startsWith] in Hxy. rewrite N.eqb_refl, S in Hxy.
      specialize (Hxy eq_refl). congruence.
    + intros S. cbn [startsWith] in Hyx. rewrite N.eqb_refl, S in Hyx.
      specialize (Hyx eq_refl). congruence.
Qed.

Lemma sorted_keys_sorted_names entries :
  prefixFree (map fst entries) ->
  StronglySorted str_le (map sortKey entries) ->
  StronglySorted str_le (map fst entries).
Proof.
  induction entries as [|[name a] entries IH]; intros Hp Hs; cbn [map];
    [constructor|].
  cbn [map] in Hs. apply StronglySorted_inv in Hs. destruct Hs as [Hs Hall].
  constructor.
  - apply IH; [|exact Hs].
    intros x y Hx Hy. apply Hp; now right.
  - cbn [fst]. rewrite Forall_map in *. rewrite Forall_forall in *.
    intros [name' a'] Hin. specialize (Hall _ Hin).
    unfold sortKey in Hall. cbn [fst snd app] in *.
    apply (key_order_names name name' _ _ Hall).
    + apply Hp; [now left | right; apply in_map_iff; now exists (name', a')].
    + intros S. symmetry. revert S.
      apply Hp; [right; apply in_map_iff; now exists (name', a') | now left].
Qed.

Lemma classify_names_In current updated entry :
  In entry (classify current updated) -> In (fst entry) (current ++ updated).
Proof.
  unfold classify. rewrite !in_app_iff, !in_map_iff.
  intros [(ext & <- & H)|(ext & <- & H)]; cbn [fst].
  - now left.
  - right. now apply filter_In in H.
Qed.

(** C4.  The report of a list against itself is empty; whenever every entry
    is classified as kept the report is empty; otherwise, for names without
    a vertical bar, the report is the templated header followed by one
    marker-prefixed line per classified entry (bullet for kept, minus for
    removed, plus for added), the lines in the sorted order of the entries'
    keys, which is the sorted order of the names when no name is the
    beginning of another. *)
Theorem changeReport_empty_or_sorted_lines (A current updated : list jsstring) :
  getCommitMessageByExtensionListChanges A A = Ok []
  /\ (Forall (fun entry => snd entry = Keep) (classify current updated) ->
      getCommitMessageByExtensionListChanges current updated = Ok [])
  /\ (Forall (fun ext => ~ In BAR ext) current ->
      Forall (fun ext => ~ In BAR ext) updated ->
      ~ Forall (fun entry => snd entry = Keep) (classify current updated) ->
      exists entries,
        Permutation (classify current updated) entries
        /\ StronglySorted str_le (map sortKey entries)
        /\ getCommitMessageByExtensionListChanges current updated
           = Ok (reportHeader ++ concat (map reportLine entries))
        /\ (prefixFree (current ++ updated) ->
            StronglySorted str_le (map fst entries))).
Proof.
  split; [|split].
  - apply report_of_kept, same_list_all_kept.
  - intros H. now apply report_of_kept, classify_kept.
  - intros Hc Hu H.
    destruct (report_of_change current updated Hc Hu) as (entries & P & S & E).
    { rewrite classify_kept in H.
      now destruct (hasRemoved current updated || hasAdded current updated). }
    exists entries. split; [exact P|]. split; [exact S|]. split; [exact E|].
    intros Hp. apply sorted_keys_sorted_names; [|exact S].
    intros x y Hx Hy. apply Hp.
    + apply in_map_iff in Hx. destruct Hx as (e & <- & Hx).
      apply classify_names_In. eapply Permutation_in; [|exact Hx].
      now apply Permutation_sym.
    + apply in_map_iff in Hy. destruct Hy as (e & <- & Hy).
      apply classify_names_In. eapply Permutation_in; [|exact Hy].
      now apply Permutation_sym.
Qed.

Lemma changeReport_empty_or_sorted_lines_witness :
  let current := [lit "a.b"; lit "c.d"] in
  let updated := [lit "c.d"; lit "e.f"] in
  Forall (fun ext => ~ In BAR ext) current
  /\ Forall (fun ext => ~ In BAR ext) updated
  /\ ~ Forall (fun entry => snd entry = Keep) (classify current updated)
  /\ exists entries,
       Permutation (classify current updated) entries
       /\ StronglySorted str_le (map sortKey entries)
       /\ getCommitMessageByExtensionListChanges current updated
          = Ok (reportHeader ++ concat (map reportLine entries))
       /\ (prefixFree (current ++ updated) ->
           StronglySorted str_le (map fst entries)).
Proof.
  intros current updated.
  assert (Hc : Forall (fun ext => ~ In BAR ext) current)
    by (repeat constructor; apply not_In_check; reflexivity).
  assert (Hu : Forall (fun ext => ~ In BAR ext) updated)
    by (repeat constructor; apply not_In_check; reflexivity).
  assert (Hn : ~ Forall (fun entry => snd entry = Keep) (classify current updated))
    by (intros H; inversion H as [|? ? Hk _]; discriminate Hk).
  split; [exact Hc|]. split; [exact Hu|]. split; [exact Hn|].
  exact (proj2 (proj2 (changeReport_empty_or_sorted_lines [] current updated))
           Hc Hu Hn).
Defined.

(** The claim as it stands asks for sorted lines.  Of the repository's own
    identifiers one is the beginning of another, and the hyphen that
    follows sorts before the vertical bar of the key: when both are removed
    the longer one is listed first.  The two lines have the same marker, so
    the report is in order neither by the names nor by the lines
    themselves. *)
Lemma changeReport_lines_not_sorted :
  let current :=
    [lit "streetsidesoftware.code-spell-checker";
     lit "streetsidesoftware.code-spell-checker-portuguese-brazilian"] in
  ~ exists entries,
      Permutation (classify current []) entries
      /\ (StronglySorted str_le (map fst entries)
          \/ StronglySorted str_le (map reportLine entries))
      /\ getCommitMessageByExtensionListChanges current []
         = Ok (reportHeader ++ concat (map reportLine entries)).
Proof.
  intros current (entries & P & S & E).
  change (classify current [])
    with [(lit "streetsidesoftware.code-spell-checker", Remove);
          (lit "streetsidesoftware.code-spell-checker-portuguese-brazilian",
           Remove)] in P.
  apply Permutation_length_2_inv in P. destruct P as [-> | ->].
  - vm_compute in E. discriminate E.
  - destruct S as [S|S]; cbn [map fst] in S;
      apply StronglySorted_inv in S; destruct S as [_ S];
      inversion S as [|? ? H _]; vm_compute in H; now apply H.
Qed.

(** ** The version type read off the report *)

Lemma removeANSI_plain s t :
  ~ In ESC s -> removeANSI (s ++ t) = s ++ removeANSI t.
Proof.
  induction s as [|c s IH]; intros H; simpl; [reflexivity|].
  rewrite removeANSI_cons by (intros ->; apply H; now left).
  f_equal. apply IH. intros Hin. apply H. now right.
Qed.

Lemma strip_In x s : forall k, In x (strip k s) -> In x s.
Proof.
  induction s as [|c s IH]; intros k H; cbn [strip] in H; [assumption|].
  destruct k as [|k].
  - destruct (ansi_match (c :: s)) as [[|n]|].
    + destruct H as [<-|H]; [now left | right; eauto].
    + right; eauto.
    + destruct H as [<-|H]; [now left | right; eauto].
  - right; eauto.
Qed.

Lemma removeANSI_reportLine entry rest :
  removeANSI (reportLine entry ++ rest)
  = plainLine entry ++ LF :: removeANSI rest.
Proof.
  destruct entry as [name a]. unfold reportLine, plainLine. simpl fst. simpl snd.
  transitivity (removeANSI (([32; 32; marker a; 32] ++ name)
                            ++ LF :: [ESC; LBRACKET; 48; LOWER_M] ++ rest)).
  { rewrite <- !app_assoc. now destruct a. }
  rewrite (removeANSI_app _ LF _ breaks_LF).
  rewrite (removeANSI_cons LF) by discriminate.
  f_equal.
  change ([32; 32; marker a; 32] ++ name)
    with (32 :: 32 :: marker a :: 32 :: name).
  rewrite !removeANSI_cons; try discriminate; [reflexivity|].
  now destruct a.
Qed.

Lemma removeANSI_report entries :
  removeANSI (concat (map reportLine entries))
  = concat (map (fun entry => plainLine entry ++ [LF]) entries).
Proof.
  induction entries as [|entry entries IH]; cbn [map concat]; [reflexivity|].
  rewrite removeANSI_reportLine, IH. now rewrite <- app_assoc.
Qed.

Lemma plainLine_one_line entry : ~ In LF (fst entry) -> ~ In LF (plainLine entry).
Proof.
  intros H Hin. unfold plainLine in Hin. apply in_app_or in Hin.
  destruct Hin as [Hin|Hin].
  - destruct entry as [name []]; simpl in Hin;
      repeat (destruct Hin as [Hin|Hin]; [discriminate Hin|]); contradiction.
  - apply H. now apply strip_In in Hin.
Qed.

Lemma split_report entries :
  Forall (fun entry => ~ In LF (fst entry)) entries ->
  split (concat (map (fun entry => plainLine entry ++ [LF]) entries)) LF
  = map plainLine entries ++ [[]].
Proof.
  induction 1 as [|entry entries Hn _ IH]; cbn [map concat app]; [reflexivity|].
  rewrite <- app_assoc. cbn [app].
  rewrite split_app by now apply plainLine_one_line.
  now rewrite IH.
Qed.

Lemma marker_not_ws a : is_ws (marker a) = false.
Proof. now destruct a. Qed.

Lemma lines_start_with x entries :
  existsb (fun l => startsWith (trim l) [x]) (map plainLine entries ++ [[]])
  = existsb (fun entry => x =? marker (snd entry)) entries.
Proof.
  rewrite existsb_app, existsb_map. simpl. rewrite orb_false_r.
  apply existsb_ext. intros entry. unfold plainLine.
  apply trim_marked, marker_not_ws.
Qed.

Lemma not_In_ESC_header : ~ In ESC reportHeader.
Proof. apply not_In_check. reflexivity. Qed.

Lemma header_lines rest :
  split (reportHeader ++ rest) LF
  = lit "feat(extension): Updates to v{{version}}"
    :: [] :: lit "New extension list:" :: split rest LF.
Proof. reflexivity. Qed.

Lemma versionType_report entries :
  Forall (fun entry => ~ In LF (fst entry)) entries ->
  versionType (reportHeader ++ concat (map reportLine entries))
  = if existsb (fun entry => MINUS =? marker (snd entry)) entries
    then lit "major"
    else if existsb (fun entry => PLUS =? marker (snd entry)) entries
         then lit "minor"
         else lit "patch".
Proof.
  intros H. unfold versionType.
  rewrite (removeANSI_plain _ _ not_In_ESC_header), removeANSI_report.
  rewrite header_lines, (split_report _ H).
  cbn [existsb].
  rewrite !lines_start_with. reflexivity.
Qed.

Lemma existsb_never {A} (f : A -> bool) l :
  (forall x, f x = false) -> existsb f l = false.
Proof.
  intros H. induction l as [|x l IH]; simpl; [reflexivity | now rewrite H].
Qed.

Lemma classify_minus current updated :
  existsb (fun entry => MINUS =? marker (snd entry)) (classify current updated)
  = hasRemoved current updated.
Proof.
  unfold classify, hasRemoved. rewrite existsb_app, !existsb_map.
  rewrite (existsb_never _ (filter _ updated)) by reflexivity.
  rewrite orb_false_r. apply existsb_ext. intros ext.
  now destruct (includes updated ext).
Qed.

Lemma classify_plus current updated :
  existsb (fun entry => PLUS =? marker (snd entry)) (classify current updated)
  = hasAdded current updated.
Proof.
  unfold classify, hasAdded. rewrite existsb_app, !existsb_map.
  rewrite (existsb_never _ current)
    by (intros ext; now destruct (includes updated ext)).
  apply (existsb_filter_all (fun ext => negb (includes current ext))).
Qed.

Lemma Ok_inj {A} (a b : A) : Ok a = Ok b -> a = b.
Proof. congruence. Qed.

(** The version type of the report of a change: 'major' when something is
    removed, else 'minor' when something is added, else 'patch'. *)
Lemma versionType_of_report current updated report :
  Forall identifier current -> Forall identifier updated ->
  getCommitMessageByExtensionListChanges current updated = Ok report ->
  versionType report
  = if hasRemoved current updated then lit "major"
    else if hasAdded current updated then lit "minor"
    else lit "patch".
Proof.
  intros Hc Hu Hr.
  destruct (hasRemoved current updated || hasAdded current updated) eqn:E.
  - destruct (report_of_change current updated) as (entries & HP & _ & Hrep).
    + eapply Forall_impl; [|exact Hc]. now intros ext [H _].
    + eapply Forall_impl; [|exact Hu]. now intros ext [H _].
    + exact E.
    + rewrite Hrep in Hr. apply Ok_inj in Hr. subst report.
      rewrite versionType_report.
      * rewrite <- !(existsb_perm _ _ _ HP), classify_minus, classify_plus.
        reflexivity.
      * eapply Permutation_Forall; [exact HP|].
        apply (classify_names (fun ext => ~ In LF ext)).
        -- eapply Forall_impl; [|exact Hc]. now intros ext [_ H].
        -- eapply Forall_impl; [|exact Hu]. now intros ext [_ H].
  - rewrite (report_of_kept _ _ E) in Hr. apply Ok_inj in Hr. subst report.
    apply orb_false_iff in E. destruct E as [-> ->]. reflexivity.
Qed.

(** ** Versions *)

Lemma digitsOf_unitsOf u : digitsOf (unitsOf u) = Some u.
Proof. induction u; simpl; rewrite ?IHu; reflexivity. Qed.

Lemma unitsOf_no_dot u : ~ In DOT (unitsOf u).
Proof.
  induction u; simpl; intros H; try contradiction;
    (destruct H as [H|H]; [discriminate H | contradiction]).
Qed.

Lemma split_formatVersion major minor patch :
  split (formatVersion major minor patch) DOT
  = [decimal major; decimal minor; decimal patch].
Proof.
  unfold formatVersion. cbn [app].
  rewrite split_app by apply unitsOf_no_dot.
  rewrite split_app by apply unitsOf_no_dot.
  now rewrite split_whole by apply unitsOf_no_dot.
Qed.

Section Versions.

Context {R : Runtime}.

Lemma Number_decimal n : n <= two53 -> Number (decimal n) = Int n.
Proof.
  intros H. unfold Number, decimal.
  rewrite digitsOf_unitsOf, DecimalN.Unsigned.of_to.
  apply N.leb_le in H. now rewrite H.
Qed.

Lemma increaseVersion_major major minor patch :
  major < two53 ->
  increaseVersion (formatVersion major minor patch) (lit "major")
  = formatVersion (major + 1) 0 0.
Proof.
  intros H. unfold increaseVersion. rewrite split_formatVersion.
  cbn [map nth_error]. rewrite Number_decimal by lia.
  cbn [str_eqb compare_units plusOne].
  apply N.ltb_lt in H. now rewrite H.
Qed.

Lemma increaseVersion_minor major minor patch :
  major < two53 -> minor < two53 ->
  increaseVersion (formatVersion major minor patch) (lit "minor")
  = formatVersion major (minor + 1) 0.
Proof.
  intros H1 H2. unfold increaseVersion. rewrite split_formatVersion.
  cbn [map nth_error]. rewrite !Number_decimal by lia.
  apply N.ltb_lt in H2. cbn [plusOne show]. now rewrite H2.
Qed.

Lemma increaseVersion_patch major minor patch :
  major < two53 -> minor < two53 -> patch < two53 ->
  increaseVersion (formatVersion major minor patch) (lit "patch")
  = formatVersion major minor (patch + 1).
Proof.
  intros H1 H2 H3. unfold increaseVersion. rewrite split_formatVersion.
  cbn [map nth_error]. rewrite !Number_decimal by lia.
  apply N.ltb_lt in H3. cbn [plusOne show]. now rewrite H3.
Qed.

(** C3.  The three examples of [increaseVersion] on 1.2.3. *)
Theorem increaseVersion_examples :
  increaseVersion (lit "1.2.3") (lit "major") = lit "2.0.0"
  /\ increaseVersion (lit "1.2.3") (lit "minor") = lit "1.3.0"
  /\ increaseVersion (lit "1.2.3") (lit "patch") = lit "1.2.4".
Proof. repeat split; reflexivity. Qed.

(** C2.  The bump policy on the report of the diff.  For extension names
    that hold no vertical bar and no line feed and a current version
    [major.minor.patch]: when the report has a removed line (some current
    extension is not among the updated ones) the new version is
    [major+1.0.0]; otherwise, when it has an added line (some updated
    extension is not among the current ones), it is [major.minor+1.0];
    otherwise it is [major.minor.patch+1]. *)
Theorem bumpVersion_policy (data : ExtensionPackData) (major minor patch : N) :
  Forall identifier (currentExtensions data) ->
  Forall identifier (updatedExtensions data) ->
  getCommitMessageByExtensionListChanges
    (currentExtensions data) (updatedExtensions data) = Ok (message data) ->
  currentVersion data = formatVersion major minor patch ->
  major < two53 -> minor < two53 -> patch < two53 ->
  updatedVersion (bumpVersion data)
  = Some (if hasRemoved (currentExtensions data) (updatedExtensions data)
          then formatVersion (major + 1) 0 0
          else if hasAdded (currentExtensions data) (updatedExtensions data)
               then formatVersion major (minor + 1) 0
               else formatVersion major minor (patch + 1)).
Proof.
  intros Hc Hu Hr Hv H1 H2 H3. unfold bumpVersion. cbn [updatedVersion set_updatedVersion].
  rewrite (versionType_of_report _ _ _ Hc Hu Hr), Hv. f_equal.
  destruct (hasRemoved _ _); [now apply increaseVersion_major|].
  destruct (hasAdded _ _);
    [now apply increaseVersion_minor | now apply increaseVersion_patch].
Qed.

End Versions.

Lemma identifierb_identifier ext : identifierb ext = true -> identifier ext.
Proof.
  unfold identifierb, identifier. intros H.
  apply andb_true_iff in H. destruct H as [H1 H2].
  apply negb_true_iff in H1, H2.
  split; now apply not_In_check.
Defined.

Lemma bumpVersion_policy_witness :
  let report :=
    match getCommitMessageByExtensionListChanges
            [lit "a.b"; lit "c.d"] [lit "c.d"; lit "e.f"] with
    | Ok m => m
    | Raise _ => []
    end in
  let data := set_message exampleData report in
  Forall identifier (currentExtensions data)
  /\ Forall identifier (updatedExtensions data)
  /\ getCommitMessageByExtensionListChanges
       (currentExtensions data) (updatedExtensions data) = Ok (message data)
  /\ currentVersion data = formatVersion 1 2 3
  /\ 1 < two53 /\ 2 < two53 /\ 3 < two53
  /\ updatedVersion (@bumpVersion exampleRuntime data) = Some (lit "2.0.0").
Proof.
  intros report data.
  assert (Hc : Forall identifier (currentExtensions data))
    by (repeat constructor; apply identifierb_identifier; reflexivity).
  assert (Hu : Forall identifier (updatedExtensions data))
    by (repeat constructor; apply identifierb_identifier; reflexivity).
  assert (Hr : getCommitMessageByExtensionListChanges
                 (currentExtensions data) (updatedExtensions data)
               = Ok (message data)) by reflexivity.
  assert (Hv : currentVersion data = formatVersion 1 2 3) by reflexivity.
  split; [exact Hc|]. split; [exact Hu|]. split; [exact Hr|].
  split; [exact Hv|]. split; [reflexivity|]. split; [reflexivity|].
  split; [reflexivity|].
  exact (@bumpVersion_policy exampleRuntime data 1 2 3 Hc Hu Hr Hv
           eq_refl eq_refl eq_refl).
Defined.

(** ** [JSON.stringify] tells arrays of strings apart *)

Lemma hex_roundtrip c : c < 65536 ->
  4096 * (c / 4096) + 256 * ((c / 256) mod 16) + 16 * ((c / 16) mod 16)
  + c mod 16 = c
  /\ c / 4096 < 16.
Proof.
  intros H.
  replace (c / 4096) with (c / 16 / 16 / 16)
    by (rewrite !N.Div0.div_div; reflexivity).
  replace (c / 256) with (c / 16 / 16) by (rewrite !N.Div0.div_div; reflexivity).
  assert (H1 := N.div_mod c 16 ltac:(discriminate)).
  assert (H2 := N.div_mod (c / 16) 16 ltac:(discriminate)).
  assert (H3 := N.div_mod (c / 16 / 16) 16 ltac:(discriminate)).
  assert (L1 := N.mod_lt c 16 ltac:(discriminate)).
  assert (L2 := N.mod_lt (c / 16) 16 ltac:(discriminate)).
  assert (L3 := N.mod_lt (c / 16 / 16) 16 ltac:(discriminate)).
  generalize dependent (c mod 16). generalize dependent ((c / 16) mod 16).
  generalize dependent ((c / 16 / 16) mod 16).
  generalize dependent (c / 16 / 16 / 16). generalize dependent (c / 16 / 16).
  generalize dependent (c / 16). intros. lia.
Qed.

Lemma unhexDigit_hexDigit n : n < 16 -> unhexDigit (hexDigit n) = n.
Proof.
  intros H. unfold unhexDigit, hexDigit.
  destruct (n <? 10) eqn:E.
  - apply N.ltb_lt in E.
    assert (E' : (48 + n <? 58) = true) by (apply N.ltb_lt; lia).
    rewrite E'. lia.
  - apply N.ltb_ge in E.
    assert (E' : (87 + n <? 58) = false) by (apply N.ltb_ge; lia).
    rewrite E'. lia.
Qed.

Lemma unquote_unicodeEscape c t rest s :
  c < 65536 -> unquote s = Some (t, rest) ->
  unquote (unicodeEscape c ++ s) = Some (c :: t, rest).
Proof.
  intros Hc Hs. unfold unicodeEscape. cbn [app unquote].
  change (BACKSLASH =? QUOTE) with false.
  change (BACKSLASH =? BACKSLASH) with true.
  change (117 =? 117) with true. cbv iota. rewrite Hs.
  destruct (hex_roundtrip c Hc) as [E L].
  rewrite !unhexDigit_hexDigit by (assumption || (apply N.mod_lt; discriminate)).
  now rewrite E.
Qed.

Lemma unquote_plain c t rest s :
  c <> QUOTE -> c <> BACKSLASH -> unquote s = Some (t, rest) ->
  unquote (c :: s) = Some (c :: t, rest).
Proof.
  intros H1 H2 Hs. cbn [unquote].
  apply N.eqb_neq in H1, H2. now rewrite H1, H2, Hs.
Qed.

Lemma surrogate_plain c :
  is_lead c || is_trail c = true -> c <> QUOTE /\ c <> BACKSLASH /\ c < 65536.
Proof.
  unfold is_lead, is_trail, QUOTE, BACKSLASH. intros H.
  apply orb_true_iff in H.
  destruct H as [H|H]; apply andb_true_iff in H; destruct H as [H1 H2];
    apply N.leb_le in H1, H2; lia.
Qed.

Lemma unquote_quoteUnit c t rest s :
  unquote s = Some (t, rest) ->
  unquote (quoteUnit c ++ s) = Some (c :: t, rest).
Proof.
  intros Hs. unfold quoteUnit.
  repeat match goal with
         | |- context [if ?x =? ?y then _ else _] =>
             destruct (N.eqb_spec x y);
             [subst; cbn [app unquote]; simpl N.eqb; cbv iota; rewrite Hs;
              reflexivity |]
         end.
  destruct ((c <? 32) || is_lead c || is_trail c) eqn:E.
  - apply unquote_unicodeEscape; [|assumption].
    rewrite <- orb_assoc in E. apply orb_true_iff in E. destruct E as [E|E].
    + apply N.ltb_lt in E. lia.
    + now apply surrogate_plain.
  - now apply unquote_plain.
Qed.

Lemma unquote_quoteUnits rest s : forall paired,
  (paired = true -> exists c s', s = c :: s' /\ is_trail c = true) ->
  unquote (quoteUnits paired s ++ QUOTE :: rest) = Some (s, rest).
Proof.
  induction s as [|c s IH]; intros paired Hp.
  - simpl. reflexivity.
  - cbn [quoteUnits]. destruct paired.
    + destruct (Hp eq_refl) as (c' & s' & E & Ht). injection E as <- <-.
      destruct (surrogate_plain c) as (H1 & H2 & _); [now rewrite Ht, orb_true_r|].
      cbn [app]. apply unquote_plain; try assumption.
      apply IH. discriminate.
    + destruct (is_lead c && _) eqn:E.
      * apply andb_true_iff in E. destruct E as [El Et].
        destruct (surrogate_plain c) as (H1 & H2 & _); [now rewrite El|].
        cbn [app]. apply unquote_plain; try assumption.
        apply IH. intros _.
        destruct s as [|d s']; [discriminate|]. now exists d, s'.
      * rewrite <- app_assoc. apply unquote_quoteUnit.
        apply IH. discriminate.
Qed.

Lemma unquote_quoteJSONString s rest :
  unquote (tl (quoteJSONString s ++ rest)) = Some (s, rest).
Proof.
  unfold quoteJSONString. cbn [app tl]. rewrite <- app_assoc.
  apply unquote_quoteUnits. discriminate.
Qed.

Lemma stringify_cons x l :
  join (map quoteJSONString (x :: l)) [44] ++ [93]
  = quoteJSONString x ++ afterFirst l.
Proof.
  revert x. induction l as [|y l IH]; intros x; [reflexivity|].
  change (join (map quoteJSONString (x :: y :: l)) [44])
    with (quoteJSONString x ++ [44] ++ join (map quoteJSONString (y :: l)) [44]).
  rewrite <- !app_assoc, IH. reflexivity.
Qed.

Lemma afterFirst_inj l : forall l', afterFirst l = afterFirst l' -> l = l'.
Proof.
  induction l as [|x l IH]; intros [|x' l'] E; try discriminate E;
    [reflexivity|].
  apply (f_equal (@tl N)) in E. cbn [afterFirst tl] in E.
  assert (U : unquote (tl (quoteJSONString x ++ afterFirst l))
              = unquote (tl (quoteJSONString x' ++ afterFirst l')))
    by now rewrite E.
  rewrite !unquote_quoteJSONString in U.
  injection U as -> U. f_equal. now apply IH.
Qed.

Lemma stringifyStrings_inj l l' :
  stringifyStrings l = stringifyStrings l' -> l = l'.
Proof.
  intros E. unfold stringifyStrings in E.
  apply (f_equal (@tl N)) in E. cbn [app tl] in E.
  destruct l as [|x l], l' as [|x' l'].
  - reflexivity.
  - rewrite stringify_cons in E. discriminate E.
  - rewrite stringify_cons in E. discriminate E.
  - rewrite !stringify_cons in E.
    apply (afterFirst_inj (x :: l) (x' :: l')).
    cbn [afterFirst]. now rewrite E.
Qed.

(** ** Runs that return *)

Lemma bind_Ret {A B} (m : M A) (k : A -> M B) w b w' :
  bind m k w = (Ret b, w') ->
  exists a w1, m w = (Ret a, w1) /\ k a w1 = (Ret b, w').
Proof.
  unfold bind. destruct (m w) as [[a| | |] w1]; try discriminate.
  intros H. now exists a, w1.
Qed.

Lemma Ret_inj {A} (a b : A) (w w' : World) :
  ret a w = (Ret b, w') -> a = b /\ w = w'.
Proof. unfold ret. intros H. split; congruence. Qed.

Lemma try_catch_Ret {A} (m : M A) (f : exn -> exn) w a w' :
  try_catch m (fun err => throw (f err)) w = (Ret a, w') -> m w = (Ret a, w').
Proof.
  unfold try_catch, throw. destruct (m w) as [[a0| | |] w1]; try discriminate.
  auto.
Qed.

(** ** Git commands that succeed *)

Lemma execGit_add paths w :
  gitFailure w (GitAdd paths) = None ->
  execGitCommand (GitAdd paths) w = (Ret [], with_staged w (stageOf paths w)).
Proof. intros H. unfold execGitCommand, git. now rewrite H. Qed.

Lemma execGit_restore w :
  gitFailure w GitRestoreStaged = None ->
  execGitCommand GitRestoreStaged w = (Ret [], with_staged w []).
Proof. intros H. unfold execGitCommand, git. now rewrite H. Qed.

Lemma getStagedFiles_listed w :
  gitFailure w GitDiffCached = None ->
  getStagedFiles w = (Ret (listedFiles (staged w)), w).
Proof.
  intros H. unfold getStagedFiles, bind, execGitCommand, git. now rewrite H.
Qed.

Lemma some_pass {A} (f : A -> bool) l :
  Nat.ltb 0 (length (filter f l)) = existsb f l.
Proof.
  induction l as [|x l IH]; simpl; [reflexivity|].
  destruct (f x); simpl; [reflexivity | exact IH].
Qed.

(** ** The Enrich stage *)

(** The run of [addAdditionalInfoToMessage] when the three git commands
    succeed. *)
Lemma addAdditionalInfoToMessage_run (data : ExtensionPackData) (w : World) :
  gitFailure w (GitAdd (extensionFiles data)) = None ->
  gitFailure w GitDiffCached = None ->
  gitFailure w GitRestoreStaged = None ->
  let stagedFiles := listedFiles (stageOf (extensionFiles data) w) in
  let hasMessage := negb (blank (message data)) in
  addAdditionalInfoToMessage data w
  = (Ret (if existsb (fun f => if hasMessage then nonManifest f else true)
                     stagedFiles
          then set_message data
                 ((if hasMessage then message data ++ [LF; LF]
                   else lit "feat(extension): Updates to v{{version}}" ++ [LF; LF])
                  ++ getCommitMessageByStagedFiles stagedFiles
                       (lit "Extension files updated:"))
          else data),
     with_staged w []).
Proof.
  intros Hadd Hdiff Hrestore stagedFiles hasMessage.
  unfold addAdditionalInfoToMessage, bind.
  rewrite (execGit_add _ _ Hadd), getStagedFiles_listed by exact Hdiff.
  rewrite execGit_restore by exact Hrestore.
  unfold listsStagedFiles. rewrite some_pass. reflexivity.
Qed.

(** A run that returns has seen its three git commands succeed. *)
Lemma addAdditionalInfoToMessage_returns data w data' w' :
  addAdditionalInfoToMessage data w = (Ret data', w') ->
  gitFailure w (GitAdd (extensionFiles data)) = None
  /\ gitFailure w GitDiffCached = None
  /\ gitFailure w GitRestoreStaged = None.
Proof.
  unfold addAdditionalInfoToMessage, getStagedFiles, bind, execGitCommand, git.
  destruct (gitFailure w (GitAdd (extensionFiles data))); [discriminate|].
  cbn [gitFailure with_staged].
  destruct (gitFailure w GitDiffCached); [discriminate|].
  cbn [ret gitFailure with_staged].
  destruct (gitFailure w GitRestoreStaged); [discriminate|].
  now repeat split.
Qed.

(** C6, as the script has it.  On normal completion
    [addAdditionalInfoToMessage] leaves the staging area empty, and the
    listing of the staged files is appended exactly when some staged file
    passes the filter of the script: any staged file when there is no
    message yet, a staged file other than the manifest when there is one. *)
Theorem addAdditionalInfoToMessage_listing (data data' : ExtensionPackData)
  (w w' : World) :
  addAdditionalInfoToMessage data w = (Ret data', w') ->
  let stagedFiles := listedFiles (stageOf (extensionFiles data) w) in
  let hasMessage := negb (blank (message data)) in
  staged w' = []
  /\ message data'
     = if existsb (fun f => if hasMessage then nonManifest f else true)
                  stagedFiles
       then (if hasMessage then message data ++ [LF; LF]
             else lit "feat(extension): Updates to v{{version}}" ++ [LF; LF])
            ++ getCommitMessageByStagedFiles stagedFiles
                 (lit "Extension files updated:")
       else message data.
Proof.
  intros Hrun stagedFiles hasMessage.
  destruct (addAdditionalInfoToMessage_returns _ _ _ _ Hrun)
    as (Hadd & Hdiff & Hrestore).
  rewrite (addAdditionalInfoToMessage_run data w Hadd Hdiff Hrestore) in Hrun.
  apply Ret_inj in Hrun. destruct Hrun as [<- <-].
  split; [reflexivity|].
  fold stagedFiles. fold hasMessage.
  now destruct (existsb _ stagedFiles).
Qed.

Lemma addAdditionalInfoToMessage_listing_witness :
  exists data' w',
    addAdditionalInfoToMessage exampleData exampleWorld = (Ret data', w')
    /\ staged w' = []
    /\ message data'
       = lit "feat(extension): Updates to v{{version}}" ++ [LF; LF]
         ++ lit "Extension files updated:" ++ [LF; LF]
         ++ lit "- package.json" ++ [LF].
Proof.
  assert (Hrun : addAdditionalInfoToMessage exampleData exampleWorld
                 = (Ret (set_message exampleData
                           (lit "feat(extension): Updates to v{{version}}"
                            ++ [LF; LF] ++ lit "Extension files updated:"
                            ++ [LF; LF] ++ lit "- package.json" ++ [LF])),
                    exampleWorld)) by reflexivity.
  destruct (addAdditionalInfoToMessage_listing _ _ _ _ Hrun) as [Hs Hm].
  eexists. eexists. split; [exact Hrun|]. split; [exact Hs | exact Hm].
Defined.

(** The claim as the specification words it fails: with no message yet and
    the manifest as the only staged file, no staged file is other than the
    manifest and the listing is appended all the same. *)
Lemma addAdditionalInfoToMessage_manifest_only :
  existsb nonManifest (listedFiles (stageOf (extensionFiles exampleData) exampleWorld))
  = false
  /\ exists data' w',
       addAdditionalInfoToMessage exampleData exampleWorld = (Ret data', w')
       /\ message exampleData = []
       /\ message data'
          = lit "feat(extension): Updates to v{{version}}" ++ [LF; LF]
            ++ lit "Extension files updated:" ++ [LF; LF]
            ++ lit "- package.json" ++ [LF].
Proof.
  split; [reflexivity|].
  eexists. eexists. split; [lazy; reflexivity|]. split; reflexivity.
Qed.

(** ** The two commits *)

Lemma confirm_answer message w answer rest :
  stdin w = answer :: rest ->
  exists text,
    confirm message question w
    = (Ret (startsWithYes answer),
       with_event (with_stdin w rest) (Logged TQuestion text None)).
Proof.
  intros H. unfold confirm.
  destruct (colorize (lit "green") (lit "y")) as [y|] eqn:Ey;
    [|discriminate Ey].
  destruct (colorize (lit "red") (lit "n")) as [n|] eqn:En;
    [|discriminate En].
  destruct (colorize (lit "magenta") (lit "[QUESTION] ")) as [tag|] eqn:Et;
    [|discriminate Et].
  unfold bind, lift, ret, prompt, question, log. rewrite H.
  eexists. reflexivity.
Qed.

Lemma escapeQuotes_cons c s :
  c <> QUOTE -> escapeQuotes (c :: s) = c :: escapeQuotes s.
Proof.
  intros H. unfold escapeQuotes. cbn [flat_map].
  apply N.eqb_neq in H. now rewrite H.
Qed.

Lemma staged_message_not_blank stagedFiles c title :
  stagedFiles <> [] -> is_ws c = false -> c <> QUOTE ->
  blank (getCommitMessageByStagedFiles stagedFiles (c :: title)) = false.
Proof.
  intros Hs Hc Hq. destruct stagedFiles as [|f l]; [congruence|].
  unfold getCommitMessageByStagedFiles. cbn [length Nat.ltb Nat.leb app].
  rewrite escapeQuotes_cons by assumption. now apply blank_cons.
Qed.

(** C7.  When the user declines at the prompt of either commit function
    (and the unstaging command itself succeeds), the staging area ends
    empty, the process ends with status 0, no commit is added, and whatever
    follows the function in the script is not run. *)
Theorem decline_unstages_and_exits (w : World) (answer : jsstring)
  (rest : list jsstring) (projectFiles : list jsstring)
  (data : ExtensionPackData) :
  stdin w = answer :: rest ->
  startsWithYes answer = false ->
  gitFailure w GitRestoreStaged = None ->
  (gitFailure w (GitAdd projectFiles) = None ->
   gitFailure w GitDiffCached = None ->
   listedFiles (stageOf projectFiles w) <> [] ->
   exists w',
     commitProjectFiles projectFiles w = (Exit 0, w')
     /\ staged w' = [] /\ commits w' = commits w
     /\ forall (B : Type) (next : bool -> M B),
          bind (commitProjectFiles projectFiles) next w = (Exit 0, w'))
  /\ (gitFailure w (GitAdd [lit "."]) = None ->
      blank (message data) = false ->
      exists w',
        commitExtensionFiles data w = (Exit 0, w')
        /\ staged w' = [] /\ commits w' = commits w
        /\ forall (B : Type) (next : bool -> M B),
             bind (commitExtensionFiles data) next w = (Exit 0, w')).
Proof.
  intros Hin Hno Hrestore. split.
  - intros Hadd Hdiff Hstaged.
    assert (Hrun : exists w',
               commitProjectFiles projectFiles w = (Exit 0, w')
               /\ staged w' = [] /\ commits w' = commits w).
    { unfold commitProjectFiles, try_catch, bind.
      rewrite (execGit_add _ _ Hadd), getStagedFiles_listed by exact Hdiff.
      cbn [staged with_staged].
      change (lit "chore: Updated project files")
        with (99 :: lit "hore: Updated project files").
      rewrite staged_message_not_blank by (assumption || discriminate || reflexivity).
      unfold info, log, console_log.
      destruct (confirm_answer (lit "Do you want to apply the changes?")
                  (with_event
                     (with_event (with_staged w (stageOf projectFiles w))
                        (Logged TInfo
                           (lit "The following changes will be applied:" ++ [LF])
                           (Some (getCommitMessageByStagedFiles
                                    (listedFiles (stageOf projectFiles w))
                                    (99 :: lit "hore: Updated project files")))))
                     (Printed (getCommitMessageByStagedFiles
                                 (listedFiles (stageOf projectFiles w))
                                 (99 :: lit "hore: Updated project files"))))
                  answer rest Hin) as (text & ->).
      rewrite Hno. cbn [negb]. rewrite execGit_restore by exact Hrestore.
      eexists. split; [reflexivity|]. split; reflexivity. }
    destruct Hrun as (w' & Hrun & Hs & Hc).
    exists w'. repeat split; try assumption.
    intros B next. unfold bind. now rewrite Hrun.
  - intros Hadd Hmsg.
    assert (Hrun : exists w',
               commitExtensionFiles data w = (Exit 0, w')
               /\ staged w' = [] /\ commits w' = commits w).
    { unfold commitExtensionFiles, try_catch, bind.
      rewrite (execGit_add _ _ Hadd), Hmsg.
      unfold info, log, console_log.
      destruct (confirm_answer (lit "Do you want to apply the changes?")
                  (with_event
                     (with_event (with_staged w (stageOf [lit "."] w))
                        (Logged TInfo
                           (lit "The following changes will be applied:" ++ [LF])
                           (Some (message data))))
                     (Printed (message data)))
                  answer rest Hin) as (text & ->).
      rewrite Hno. cbn [negb]. rewrite execGit_restore by exact Hrestore.
      eexists. split; [reflexivity|]. split; reflexivity. }
    destruct Hrun as (w' & Hrun & Hs & Hc).
    exists w'. repeat split; try assumption.
    intros B next. unfold bind. now rewrite Hrun.
Qed.

Lemma decline_unstages_and_exits_witness :
  stdin exampleWorld = [lit "n"]
  /\ startsWithYes (lit "n") = false
  /\ gitFailure exampleWorld GitRestoreStaged = None
  /\ listedFiles (stageOf [lit "src/index.js"] exampleWorld) <> []
  /\ blank (lit "feat(extension): Updates to v1.2.4") = false
  /\ (exists w',
        commitProjectFiles [lit "src/index.js"] exampleWorld = (Exit 0, w')
        /\ staged w' = [] /\ commits w' = commits exampleWorld)
  /\ (exists w',
        commitExtensionFiles
          (set_message exampleData (lit "feat(extension): Updates to v1.2.4"))
          exampleWorld = (Exit 0, w')
        /\ staged w' = [] /\ commits w' = commits exampleWorld).
Proof.
  assert (Hs : listedFiles (stageOf [lit "src/index.js"] exampleWorld) <> [])
    by discriminate.
  destruct (decline_unstages_and_exits exampleWorld (lit "n") []
              [lit "src/index.js"]
              (set_message exampleData (lit "feat(extension): Updates to v1.2.4"))
              eq_refl eq_refl eq_refl) as [Hp He].
  destruct (Hp eq_refl eq_refl Hs) as (w1 & R1 & S1 & C1 & _).
  destruct (He eq_refl eq_refl) as (w2 & R2 & S2 & C2 & _).
  split; [reflexivity|]. split; [reflexivity|]. split; [reflexivity|].
  split; [exact Hs|]. split; [reflexivity|]. split.
  - exists w1. split; [exact R1|]. split; [exact S1 | exact C1].
  - exists w2. split; [exact R2|]. split; [exact S2 | exact C2].
Defined.

(** ** The manifest *)

Lemma get_field_set_same k v fields :
  get_field k (set_field k v fields) = Some v.
Proof.
  induction fields as [|[k' v'] fields IH]; simpl.
  - now rewrite str_eqb_refl.
  - destruct (str_eqb k k') eqn:E; simpl; [now rewrite str_eqb_refl|].
    now rewrite E.
Qed.

Lemma get_field_set_other k k0 v fields :
  k <> k0 -> get_field k (set_field k0 v fields) = get_field k fields.
Proof.
  intros H. apply str_eqb_neq in H.
  induction fields as [|[k' v'] fields IH]; simpl.
  - now rewrite H.
  - destruct (str_eqb k0 k') eqn:E; simpl.
    + apply str_eqb_eq in E. subst. now rewrite H.
    + now rewrite IH.
Qed.

Lemma get_field_drop_other k k0 fields :
  k <> k0 -> get_field k (drop_field k0 fields) = get_field k fields.
Proof.
  intros H. apply str_eqb_neq in H.
  induction fields as [|[k' v'] fields IH]; simpl; [reflexivity|].
  destruct (str_eqb k0 k') eqn:E; simpl.
  - apply str_eqb_eq in E. subst. now rewrite H.
  - now rewrite IH.
Qed.

(** The properties a predicate on keys lets through are untouched, values
    and order, by an assignment to a key it does not let through. *)
Lemma filter_set_field (p : jsstring -> bool) k0 v fields :
  p k0 = false ->
  filter (fun kv => p (fst kv)) (set_field k0 v fields)
  = filter (fun kv => p (fst kv)) fields.
Proof.
  intros H. induction fields as [|[k' v'] fields IH]; simpl.
  - now rewrite H.
  - destruct (str_eqb k0 k') eqn:E; simpl.
    + apply str_eqb_eq in E. subst. now rewrite H.
    + now rewrite IH.
Qed.

Lemma filter_drop_field (p : jsstring -> bool) k0 fields :
  p k0 = false ->
  filter (fun kv => p (fst kv)) (drop_field k0 fields)
  = filter (fun kv => p (fst kv)) fields.
Proof.
  intros H. induction fields as [|[k' v'] fields IH]; simpl; [reflexivity|].
  destruct (str_eqb k0 k') eqn:E; simpl.
  - apply str_eqb_eq in E. subst. now rewrite H.
  - now rewrite IH.
Qed.

Section Manifest.

Context {R : Runtime}.

(** C8.  [updatePackageJson] writes the serialisation of a manifest in which
    every property other than [version] and [extensionPack] is the one of
    the manifest it was given: same value under every other key, and the
    other properties in the same order. *)
Theorem updatePackageJson_frame (data : ExtensionPackData) (w : World) :
  exists data',
    updatePackageJson data w
    = (Ret data',
       with_file w (packageJsonPath data)
                 (JSON_stringify (JObject (packageJson data'))))
    /\ (forall k, k <> lit "version" -> k <> lit "extensionPack" ->
                  get_field k (packageJson data') = get_field k (packageJson data))
    /\ filter (fun kv => otherKey (fst kv)) (packageJson data')
       = filter (fun kv => otherKey (fst kv)) (packageJson data)
    /\ get_field (lit "extensionPack") (packageJson data')
       = Some (strings (updatedExtensions data))
    /\ (forall v, updatedVersion data = Some v ->
                  get_field (lit "version") (packageJson data') = Some (JString v)).
Proof.
  exists (set_packageJson data (updatedManifest data)).
  split; [reflexivity|]. cbn [packageJson set_packageJson].
  unfold updatedManifest.
  split; [|split; [|split]].
  - intros k Hv He. rewrite get_field_set_other by assumption.
    destruct (updatedVersion data);
      [now apply get_field_set_other | now apply get_field_drop_other].
  - rewrite filter_set_field by reflexivity.
    destruct (updatedVersion data);
      [now apply filter_set_field | now apply filter_drop_field].
  - apply get_field_set_same.
  - intros v ->. rewrite get_field_set_other by discriminate.
    apply get_field_set_same.
Qed.

End Manifest.

(** ** The message of a run *)

Lemma appendChange_prefix message ext message' :
  appendChange message ext = Ok message' -> exists rest, message' = message ++ rest.
Proof.
  unfold appendChange.
  destruct (split ext BAR) as [|name [|action pieces]];
    try (intros H; apply Ok_inj in H; subst; exists []; now rewrite app_nil_r).
  destruct (str_eqb action (lit "keep"));
    [intros H; apply Ok_inj in H; subst; eexists; reflexivity|].
  destruct (str_eqb action (lit "remove"));
    [intros H; apply Ok_inj in H; subst; eexists; reflexivity|].
  destruct (str_eqb action (lit "add"));
    [intros H; apply Ok_inj in H; subst; eexists; reflexivity|].
  intros H; apply Ok_inj in H; subst; exists []; now rewrite app_nil_r.
Qed.

Lemma appendChanges_prefix list : forall message message',
  appendChanges message list = Ok message' ->
  exists rest, message' = message ++ rest.
Proof.
  induction list as [|ext list IH]; intros message message' H; simpl in H.
  - apply Ok_inj in H. subst. exists []. now rewrite app_nil_r.
  - destruct (appendChange message ext) as [m1|] eqn:E; [|discriminate].
    destruct (appendChange_prefix _ _ _ E) as (r1 & ->).
    destruct (IH _ _ H) as (r2 & ->).
    exists (r1 ++ r2). now rewrite app_assoc.
Qed.

Lemma report_titled current updated report :
  getCommitMessageByExtensionListChanges current updated = Ok report ->
  titled report.
Proof.
  unfold getCommitMessageByExtensionListChanges.
  destruct (Nat.eqb _ 0).
  - intros H. apply Ok_inj in H. now left.
  - destruct (appendChanges reportHeader _) as [m|] eqn:E; [|discriminate].
    intros H. apply Ok_inj in H. subst.
    destruct (appendChanges_prefix _ _ _ E) as (rest & ->).
    right. exists ([LF; LF] ++ lit "New extension list:" ++ [LF] ++ rest).
    unfold reportHeader. now rewrite <- !app_assoc.
Qed.

Lemma blank_nil : blank [] = true.
Proof. reflexivity. Qed.

Lemma titled_blank m : titled m -> blank m = true -> m = [].
Proof.
  intros [->|(rest & ->)] H; [reflexivity|].
  change (lit "feat(extension): Updates to v{{version}}" ++ rest)
    with (102 :: (lit "eat(extension): Updates to v{{version}}" ++ rest)) in H.
  rewrite blank_cons in H by reflexivity. discriminate.
Qed.

Lemma replace_titled m v :
  titled m ->
  replace m (lit "{{version}}") v = []
  \/ blank (replace m (lit "{{version}}") v) = false.
Proof.
  intros [->|(rest & ->)]; [now left | right].
  assert (E : exists s,
             replace (lit "feat(extension): Updates to v{{version}}" ++ rest)
                     (lit "{{version}}") v = 102 :: s)
    by (eexists; reflexivity).
  destruct E as (s & ->). now apply blank_cons.
Qed.

Lemma replace_nil_inv m v :
  titled m -> replace m (lit "{{version}}") v = [] -> m = [].
Proof.
  intros [->|(rest & ->)] H; [reflexivity|].
  assert (E : exists s,
             replace (lit "feat(extension): Updates to v{{version}}" ++ rest)
                     (lit "{{version}}") v = 102 :: s)
    by (eexists; reflexivity).
  destruct E as (s & E). rewrite E in H. discriminate.
Qed.

(** What [addAdditionalInfoToMessage] returns differs from what it was
    given in the message only, which stays titled. *)
Lemma addAdditionalInfoToMessage_data data w data' w' :
  addAdditionalInfoToMessage data w = (Ret data', w') ->
  titled (message data) ->
  titled (message data')
  /\ currentExtensions data' = currentExtensions data
  /\ updatedExtensions data' = updatedExtensions data
  /\ updatedVersion data' = updatedVersion data
  /\ packageJsonPath data' = packageJsonPath data.
Proof.
  intros H Ht. unfold addAdditionalInfoToMessage in H.
  apply bind_Ret in H. destruct H as (o1 & w1 & _ & H).
  apply bind_Ret in H. destruct H as (stagedFiles & w2 & _ & H).
  apply bind_Ret in H. destruct H as (o3 & w3 & _ & H).
  apply Ret_inj in H. destruct H as [<- _].
  destruct (listsStagedFiles _ stagedFiles); [|now repeat split].
  repeat split. cbn [message set_message].
  destruct (blank (message data)) eqn:Eb; cbn [negb].
  - right. eexists. rewrite <- app_assoc. reflexivity.
  - destruct Ht as [Ht|(rest & Ht)]; rewrite Ht in *; [discriminate Eb|].
    right. eexists. rewrite <- !app_assoc. reflexivity.
Qed.

(** ** The manifest update *)

Lemma filter_nil {A} (f : A -> bool) l :
  (forall x, In x l -> f x = false) -> filter f l = [].
Proof.
  induction l as [|x l IH]; intros H; simpl; [reflexivity|].
  rewrite (H x) by now left. apply IH. intros y Hy. apply H. now right.
Qed.

(** For a merged list, the comparison of the two sorted arrays is the
    comparison of the two lists as sets. *)
Lemma merged_same_elements current recommended :
  sort current = sort (mergeExtensions current recommended)
  <-> (forall x, In x current <-> In x (mergeExtensions current recommended)).
Proof.
  split.
  - intros E x. rewrite <- (sort_In current), E. apply sort_In.
  - intros H. rewrite (sort_of_sorted (mergeExtensions _ _)) by apply sort_sorted.
    unfold mergeExtensions. f_equal.
    assert (H1 : filter (fun ext => includes recommended ext) current = current).
    { apply forallb_filter_id. apply forallb_forall. intros x Hx.
      apply includes_In. apply mergeExtensions_In with (cur := current).
      now apply H. }
    assert (H2 : filter (fun ext => negb (includes current ext)) recommended = []).
    { apply filter_nil. intros x Hx. apply negb_false_iff, includes_In, H.
      now apply mergeExtensions_In. }
    now rewrite H1, H2, app_nil_r.
Qed.

Section ManifestUpdate.

Context {R : Runtime}.

Lemma readJsonFile_found path w text :
  lookup path (files w) = Some text ->
  readJsonFile path w
  = (match JSON_parse (join (filter keptLine (split text LF)) [LF]) with
     | inl value => Ret value
     | inr message =>
         Throw (LoggerErrorHandler (lit "Failed to read file: " ++ path) message)
     end, w).
Proof.
  intros H. unfold readJsonFile, try_catch, bind, readFileSync. rewrite H.
  fold keptLine.
  change (fun line => negb (blank line) && negb (startsWith (trim line) (lit "//")))
    with keptLine.
  now destruct (JSON_parse _).
Qed.

Lemma readJsonFile_missing path w :
  lookup path (files w) = None ->
  readJsonFile path w
  = (Throw (LoggerErrorHandler
              (lit "Failed to read file: " ++ path)
              (lit "ENOENT: no such file or directory, open '" ++ path ++ lit "'")),
     w).
Proof.
  intros H. unfold readJsonFile, try_catch, bind, readFileSync. now rewrite H.
Qed.

Lemma readJsonFile_world path w value w' :
  readJsonFile path w = (Ret value, w') -> w' = w.
Proof.
  destruct (lookup path (files w)) as [text|] eqn:E.
  - rewrite (readJsonFile_found _ _ _ E). intros H. now injection H.
  - rewrite (readJsonFile_missing _ _ E). discriminate.
Qed.

(** A run of [getExtensionPackData] that returns: the two files hold a
    manifest with a string version and arrays of strings, the report of the
    merge is computed, and the record is what [addAdditionalInfoToMessage]
    makes of the bumped one, with the placeholder of its message filled. *)
Lemma getExtensionPackData_Ret extensionFiles w data w1 :
  getExtensionPackData extensionFiles w = (Ret data, w1) ->
  exists fields version current recommended report data2,
    getCommitMessageByExtensionListChanges
      current (mergeExtensions current recommended) = Ok report
    /\ addAdditionalInfoToMessage
         (bumpVersion
            {| extensionFiles := extensionFiles;
               packageJsonPath := path_join [cwd w; lit "package.json"];
               packageJson := fields;
               currentVersion := version;
               updatedVersion := None;
               currentExtensions := current;
               updatedExtensions := mergeExtensions current recommended;
               message := report |}) w
       = (Ret data2, w1)
    /\ data = set_message data2
                (replace (message data2) (lit "{{version}}")
                         (match updatedVersion data2 with
                          | Some v => v
                          | None => lit "undefined"
                          end)).
Proof.
  intros H. unfold getExtensionPackData in H. apply try_catch_Ret in H.
  apply bind_Ret in H. destruct H as (dir & w2 & Hd & H).
  apply Ret_inj in Hd. destruct Hd as [<- <-].
  apply bind_Ret in H. destruct H as (manifest & w3 & H3 & H).
  apply readJsonFile_world in H3. subst w3.
  apply bind_Ret in H. destruct H as (extensions & w4 & H4 & H).
  apply readJsonFile_world in H4. subst w4.
  apply bind_Ret in H. destruct H as (v & w5 & Hv & H).
  apply bind_Ret in H. destruct H as (c & w6 & Hc & H).
  apply bind_Ret in H. destruct H as (n & w7 & Hn & H).
  destruct manifest as [| | | | |fields]; try discriminate Hv;
    try (destruct c as [[| | | |?|?]|]; discriminate H).
  destruct extensions as [| | | | |fields']; try discriminate Hn;
    try (apply Ret_inj in Hn; destruct Hn as [<- _];
         destruct c as [[| | | |?|?]|]; discriminate H).
  apply Ret_inj in Hv, Hc, Hn.
  destruct Hv as [<- <-], Hc as [<- <-], Hn as [<- <-].
  destruct (get_field (lit "extensionPack") fields) as [[| | | |current|]|];
    try discriminate H.
  destruct (get_field (lit "recommendations") fields')
    as [[| | | |recommended|]|]; try discriminate H.
  destruct (asStrings current) as [current'|]; [|discriminate H].
  destruct (asStrings recommended) as [recommended'|]; [|discriminate H].
  apply bind_Ret in H. destruct H as (report & w8 & Hreport & H).
  destruct (getCommitMessageByExtensionListChanges current'
              (mergeExtensions current' recommended')) as [report'|] eqn:Er;
    [|discriminate Hreport].
  apply Ret_inj in Hreport. destruct Hreport as [-> <-].
  destruct (get_field (lit "version") fields) as [[| | |version| |]|];
    try discriminate H.
  apply bind_Ret in H. destruct H as (data2 & w9 & Hinfo & H).
  apply Ret_inj in H. destruct H as [<- <-].
  exists fields, version, current', recommended', report, data2.
  split; [exact Er|]. split; [exact Hinfo | reflexivity].
Qed.

(** What a run of [getExtensionPackData] that returns hands on: the updated
    list is the merge of the current one with the recommendations, the
    message is empty or not blank, and the updated version is set. *)
Lemma getExtensionPackData_data extensionFiles w data w1 :
  getExtensionPackData extensionFiles w = (Ret data, w1) ->
  (exists recommended,
     updatedExtensions data = mergeExtensions (currentExtensions data) recommended)
  /\ (message data = [] \/ blank (message data) = false)
  /\ (exists version, updatedVersion data = Some version).
Proof.
  intros H. apply getExtensionPackData_Ret in H.
  destruct H as (fields & version & current & recommended & report & data2
                 & Er & Hinfo & ->).
  apply addAdditionalInfoToMessage_data in Hinfo;
    [|exact (report_titled _ _ _ Er)].
  destruct Hinfo as (Ht & Hc & Hu & Hv & _).
  cbn [currentExtensions updatedExtensions updatedVersion message set_message].
  rewrite Hc, Hu, Hv. cbn [currentExtensions updatedExtensions updatedVersion
                             bumpVersion set_updatedVersion].
  split; [now exists recommended|]. split; [|eexists; reflexivity].
  destruct (replace_titled (message data2)
              (increaseVersion version (versionType report)) Ht) as [E|E];
    [left | right]; exact E.
Qed.

(** The two runs of [updateExtensionPack]. *)
Lemma updateExtensionPack_run data w :
  let data1 := snd (hasChangesOnExtensionList data) in
  updateExtensionPack data w
  = if str_eqb (stringifyStrings (sort (currentExtensions data)))
               (stringifyStrings (sort (updatedExtensions data)))
       && blank (message data)
    then (Ret data1, with_event w noChangesNotice)
    else (Ret (set_packageJson data1 (updatedManifest data1)),
          with_file w (packageJsonPath data)
                    (JSON_stringify (JObject (updatedManifest data1)))).
Proof.
  unfold updateExtensionPack, try_catch, hasChangesOnExtensionList.
  cbv beta iota zeta. cbn [message snd].
  destruct (str_eqb _ _); cbn [negb andb]; [|reflexivity].
  now destruct (blank (message data)).
Qed.

(** Through [updateExtensionPack], the in-place sort included, the
    properties of the manifest other than [version] and [extensionPack]
    stay as they were parsed. *)
Lemma updateExtensionPack_frame data w data' w' :
  updateExtensionPack data w = (Ret data', w') ->
  filter (fun kv => otherKey (fst kv)) (packageJson data')
  = filter (fun kv => otherKey (fst kv)) (packageJson data).
Proof.
  rewrite updateExtensionPack_run.
  assert (Hsorted :
            filter (fun kv => otherKey (fst kv))
                   (packageJson (snd (hasChangesOnExtensionList data)))
            = filter (fun kv => otherKey (fst kv)) (packageJson data)).
  { cbn [hasChangesOnExtensionList snd packageJson].
    destruct (get_field (lit "extensionPack") (packageJson data));
      [now apply filter_set_field | reflexivity]. }
  destruct (_ && _); intros H; injection H as <- _.
  - exact Hsorted.
  - cbn [packageJson set_packageJson]. unfold updatedManifest.
    rewrite filter_set_field by reflexivity.
    destruct (updatedVersion _);
      [rewrite filter_set_field by reflexivity
      | rewrite filter_drop_field by reflexivity]; exact Hsorted.
Qed.

(** C5.  For extension lists that are sets and a message that is empty or
    not blank, as the accumulated message of a run is,
    [updateExtensionPack] returns, and it writes the manifest exactly when
    the updated list differs from the current one as a set or the message
    is not empty.  What it writes is the manifest with the new version and
    the updated list, sorted; otherwise the only effect is the notice that
    no changes are needed. *)
Theorem updateExtensionPack_writes_iff (data : ExtensionPackData) (w : World) :
  NoDup (currentExtensions data) ->
  NoDup (updatedExtensions data) ->
  message data = [] \/ blank (message data) = false ->
  let differs :=
    ~ (forall x, In x (currentExtensions data) <-> In x (updatedExtensions data)) in
  exists data' w',
    updateExtensionPack data w = (Ret data', w')
    /\ ((exists content,
           events w' = Wrote (packageJsonPath data) content :: events w)
        <-> differs \/ message data <> [])
    /\ (differs \/ message data <> [] ->
        exists manifest,
          w' = with_file w (packageJsonPath data)
                         (JSON_stringify (JObject manifest))
          /\ (forall version, updatedVersion data = Some version ->
                get_field (lit "version") manifest = Some (JString version))
          /\ get_field (lit "extensionPack") manifest
             = Some (strings (sort (updatedExtensions data)))
          /\ (forall x, In x (sort (updatedExtensions data)) <->
                        In x (updatedExtensions data)))
    /\ (~ (differs \/ message data <> []) -> w' = with_event w noChangesNotice).
Proof.
  intros Hc Hu Hmsg differs.
  assert (Hsame : sort (currentExtensions data) = sort (updatedExtensions data)
                  <-> ~ differs).
  { unfold differs. split.
    - intros E D. apply D. intros x.
      rewrite <- (sort_In (currentExtensions data)), E. apply sort_In.
    - intros NN.
      destruct (list_eq_dec (list_eq_dec N.eq_dec) (sort (currentExtensions data))
                  (sort (updatedExtensions data))) as [E|NE]; [exact E|].
      exfalso. apply NN. intros G. apply NE. apply sort_of_perm.
      now apply NoDup_Permutation. }
  assert (Hempty : blank (message data) = true <-> message data = []).
  { split; [|intros ->; reflexivity].
    destruct Hmsg as [E|E]; [now intros _ | congruence]. }
  rewrite updateExtensionPack_run.
  destruct (str_eqb (stringifyStrings (sort (currentExtensions data)))
                    (stringifyStrings (sort (updatedExtensions data)))
            && blank (message data)) eqn:Etest.
  - apply andb_true_iff in Etest. destruct Etest as [Ecmp Eb].
    apply str_eqb_eq, stringifyStrings_inj, Hsame in Ecmp.
    apply Hempty in Eb.
    eexists. eexists. split; [reflexivity|].
    assert (Hno : ~ (differs \/ message data <> [])) by tauto.
    split; [|split]; [|tauto|reflexivity]. split; [|tauto].
    intros (content & Hev). cbn [events with_event] in Hev.
    unfold noChangesNotice in Hev. discriminate Hev.
  - assert (Hyes : differs \/ message data <> []).
    { apply andb_false_iff in Etest. destruct Etest as [Ecmp|Eb].
      - left. intros G. apply str_eqb_neq in Ecmp. apply Ecmp. f_equal.
        apply Hsame. intros D. now apply D.
      - right. intros E. apply Hempty in E. congruence. }
    eexists. eexists. split; [reflexivity|].
    split; [|split]; [|intros _|tauto].
    + split; [intros _; exact Hyes|]. intros _. eexists. reflexivity.
    + eexists. split; [reflexivity|].
      unfold updatedManifest.
      cbn [hasChangesOnExtensionList snd updatedVersion updatedExtensions
           packageJson].
      split; [|split].
      * intros version Hv. rewrite Hv.
        rewrite get_field_set_other by discriminate. apply get_field_set_same.
      * apply get_field_set_same.
      * intros x. apply sort_In.
Qed.

End ManifestUpdate.

Lemma updateExtensionPack_writes_iff_witness :
  NoDup (currentExtensions exampleData)
  /\ NoDup (updatedExtensions exampleData)
  /\ message exampleData = []
  /\ ~ (forall x, In x (currentExtensions exampleData) <->
                  In x (updatedExtensions exampleData))
  /\ exists data' w' content,
       @updateExtensionPack exampleRuntime exampleData exampleWorld
       = (Ret data', w')
       /\ events w' = [Wrote (lit "/repo/package.json") content].
Proof.
  assert (Hc : NoDup (currentExtensions exampleData))
    by (apply nodupb_NoDup; reflexivity).
  assert (Hu : NoDup (updatedExtensions exampleData))
    by (apply nodupb_NoDup; reflexivity).
  assert (Hd : ~ (forall x, In x (currentExtensions exampleData) <->
                            In x (updatedExtensions exampleData))).
  { intros H. assert (X : In (lit "a.b") (updatedExtensions exampleData))
      by (apply H; now left).
    cbn [updatedExtensions exampleData In] in X.
    destruct X as [X|[X|X]]; [discriminate X | discriminate X | exact X]. }
  split; [exact Hc|]. split; [exact Hu|]. split; [reflexivity|].
  split; [exact Hd|].
  destruct (@updateExtensionPack_writes_iff exampleRuntime exampleData
              exampleWorld Hc Hu (or_introl eq_refl))
    as (data' & w' & Hrun & Hiff & _).
  assert (Hw : exists content,
             events w' = Wrote (packageJsonPath exampleData) content
                         :: events exampleWorld)
    by (apply Hiff; left; exact Hd).
  destruct Hw as (content & Hw).
  exists data', w', content. split; [exact Hrun | exact Hw].
Defined.

(** ** The whole run *)

Section WholeRun.

Context {R : Runtime}.

(** A refusal at the first prompt ends [makeRelease] where it ends
    [commitProjectFiles]: the error handler is not entered and nothing of
    the later stages runs. *)
Lemma makeRelease_exits_at_first projectFiles data w w1 w2 w3 code :
  getProjectFiles releaseFiles w = (Ret projectFiles, w1) ->
  getExtensionPackData releaseFiles w1 = (Ret data, w2) ->
  commitProjectFiles projectFiles w2 = (Exit code, w3) ->
  makeRelease w = (Exit code, w3).
Proof.
  intros H1 H2 H3. unfold makeRelease, try_catch, bind.
  change [lit ".vscode/extensions.json"; lit "package.json";
          lit "assets/icon_128.png"; lit "README.md"] with releaseFiles.
  now rewrite H1, H2, H3.
Qed.

(** A refusal at the second prompt ends [makeRelease] where it ends
    [commitExtensionFiles]. *)
Lemma makeRelease_exits_at_second projectFiles data data' done
  w w1 w2 w3 w4 w5 code :
  getProjectFiles releaseFiles w = (Ret projectFiles, w1) ->
  getExtensionPackData releaseFiles w1 = (Ret data, w2) ->
  commitProjectFiles projectFiles w2 = (Ret done, w3) ->
  updateExtensionPack data w3 = (Ret data', w4) ->
  commitExtensionFiles data' w4 = (Exit code, w5) ->
  makeRelease w = (Exit code, w5).
Proof.
  intros H1 H2 H3 H4 H5. unfold makeRelease, try_catch, bind.
  change [lit ".vscode/extensions.json"; lit "package.json";
          lit "assets/icon_128.png"; lit "README.md"] with releaseFiles.
  now rewrite H1, H2, H3, H4, H5.
Qed.

End WholeRun.

(** ** Worked examples: the scenarios of the specification *)

Example merge_scenario :
  mergeExtensions [lit "a.b"; lit "c.d"] [lit "c.d"; lit "e.f"]
  = [lit "c.d"; lit "e.f"].
Proof. reflexivity. Qed.

Example report_scenario :
  option_map removeANSI
    (match getCommitMessageByExtensionListChanges
             [lit "a.b"; lit "c.d"] [lit "c.d"; lit "e.f"] with
     | Ok m => Some m
     | Raise _ => None
     end)
  = Some (lit "feat(extension): Updates to v{{version}}" ++ [LF; LF]
          ++ lit "New extension list:" ++ [LF]
          ++ lit "  - a.b" ++ [LF]
          ++ [32; 32; BULLET; 32] ++ lit "c.d" ++ [LF]
          ++ lit "  + e.f" ++ [LF]).
Proof. reflexivity. Qed.

Example minor_scenario :
  mergeExtensions [lit "a.b"] [lit "a.b"; lit "c.d"] = [lit "a.b"; lit "c.d"]
  /\ match getCommitMessageByExtensionListChanges
             [lit "a.b"] [lit "a.b"; lit "c.d"] with
     | Ok m => versionType m = lit "minor"
     | Raise _ => False
     end.
Proof. split; reflexivity. Qed.

(** The order of the report is the order of the keys: a name that is a
    proper prefix of another comes after it when the next code unit of the
    longer name is below the vertical bar. *)
Example report_prefix_order :
  option_map removeANSI
    (match getCommitMessageByExtensionListChanges
             [lit "a"; lit "a.b"] [lit "a"] with
     | Ok m => Some m
     | Raise _ => None
     end)
  = Some (lit "feat(extension): Updates to v{{version}}" ++ [LF; LF]
          ++ lit "New extension list:" ++ [LF]
          ++ lit "  - a.b" ++ [LF]
          ++ [32; 32; BULLET; 32] ++ lit "a" ++ [LF]).
Proof. reflexivity. Qed.

(** Nothing changed: no commit, no write, the three notices. *)
Example makeRelease_nothing_to_do :
  exists w',
    @makeRelease exampleRuntime quietWorld = (Ret tt, w')
    /\ commits w' = [] /\ staged w' = [] /\ files w' = files quietWorld
    /\ events w'
       = [Logged TInfo (lit "No changes to commit for extension files.") None;
          noChangesNotice;
          Logged TInfo (lit "No changes to commit for project files.") None].
Proof. eexists. split; [vm_compute; reflexivity|]. repeat split. Qed.

(** The user declines at the first prompt: status 0, nothing committed,
    nothing staged, the manifest not written. *)
Example makeRelease_declined_at_once :
  exists w',
    @makeRelease exampleRuntime exampleWorld = (Exit 0, w')
    /\ commits w' = [] /\ staged w' = [] /\ files w' = files exampleWorld.
Proof. eexists. split; [vm_compute; reflexivity|]. repeat split. Qed.

(** The user accepts the first commit and declines the second: status 0,
    the project commit stays the only one, nothing is left staged. *)
Example makeRelease_declined_at_second :
  exists w',
    @makeRelease exampleRuntime (with_stdin exampleWorld [lit "y"; lit "no"])
    = (Exit 0, w')
    /\ staged w' = []
    /\ commits w'
       = [(lit "chore: Updated project files" ++ [LF; LF]
           ++ lit "- src/index.js" ++ [LF],
           [lit "src/index.js"])].
Proof. eexists. split; [vm_compute; reflexivity|]. repeat split. Qed.

(** * Further properties of the script *)

(** ** The merge, run again *)

Lemma filter_all {A} (f : A -> bool) l :
  (forall x, In x l -> f x = true) -> filter f l = l.
Proof.
  induction l as [|a l IH]; intros H; cbn [filter]; [reflexivity|].
  rewrite (H a (or_introl eq_refl)). f_equal. apply IH.
  intros x Hx. apply H. now right.
Qed.

(** X1.  Merging the merged list with the same recommendations again gives
    the merged list back, and the change report of that second merge is
    empty: a second run of the script finds nothing to change in the
    list.  No hypothesis on duplicates is needed. *)
Theorem mergeExtensions_again (current recommended : list jsstring) :
  let merged := mergeExtensions current recommended in
  mergeExtensions merged recommended = merged
  /\ getCommitMessageByExtensionListChanges
       merged (mergeExtensions merged recommended) = Ok [].
Proof.
  intros merged.
  assert (E : mergeExtensions merged recommended = merged).
  { unfold mergeExtensions at 1.
    rewrite filter_all, filter_nil, app_nil_r.
    - apply sort_of_sorted. apply sort_sorted.
    - intros x Hx. apply negb_false_iff, includes_In.
      now apply mergeExtensions_In.
    - intros x Hx. apply includes_In. now apply mergeExtensions_In in Hx. }
  split; [exact E|].
  rewrite E. apply report_of_kept, same_list_all_kept.
Qed.

Lemma merge_permutes_recommended current recommended :
  NoDup current -> NoDup recommended ->
  Permutation (mergeExtensions current recommended) recommended.
Proof.
  intros Hc Hr. unfold mergeExtensions.
  eapply Permutation_trans; [apply Permutation_sym, sort_perm|].
  apply NoDup_Permutation.
  - apply NoDup_app.
    + now apply NoDup_filter.
    + now apply NoDup_filter.
    + intros x H1 H2. apply filter_In in H1, H2.
      destruct H1 as [H1 _], H2 as [_ H2].
      apply negb_true_iff, includes_not_In in H2. now apply H2.
  - exact Hr.
  - intros x. rewrite in_app_iff, !filter_In. split.
    + intros [[_ H]|[H _]]; [now apply includes_In in H | exact H].
    + intros H. destruct (includes current x) eqn:E.
      * left. split; [now apply includes_In in E | now apply includes_In].
      * right. now split.
Qed.

(** X2.  On duplicate-free arrays the merge keeps the array free of
    duplicates and has as many entries as there are recommendations. *)
Theorem mergeExtensions_NoDup (current recommended : list jsstring) :
  NoDup current -> NoDup recommended ->
  NoDup (mergeExtensions current recommended)
  /\ length (mergeExtensions current recommended) = length recommended.
Proof.
  intros Hc Hr.
  pose proof (merge_permutes_recommended current recommended Hc Hr) as P.
  split.
  - eapply Permutation_NoDup; [apply Permutation_sym, P | exact Hr].
  - now apply Permutation_length.
Qed.

Lemma mergeExtensions_NoDup_witness :
  let current := [lit "a.b"; lit "c.d"] in
  let recommended := [lit "e.f"; lit "c.d"; lit "g.h"] in
  NoDup current /\ NoDup recommended
  /\ NoDup (mergeExtensions current recommended)
  /\ length (mergeExtensions current recommended) = 3%nat.
Proof.
  intros current recommended.
  assert (Hc : NoDup current) by (apply nodupb_NoDup; reflexivity).
  assert (Hr : NoDup recommended) by (apply nodupb_NoDup; reflexivity).
  split; [exact Hc|]. split; [exact Hr|].
  exact (mergeExtensions_NoDup current recommended Hc Hr).
Defined.

(** ** The change report in general *)

Lemma appendChange_total message ext :
  exists rest, appendChange message ext = Ok (message ++ rest).
Proof.
  unfold appendChange.
  destruct (split ext BAR) as [|name [|action ?]];
    try (exists []; now rewrite app_nil_r).
  destruct (str_eqb action (lit "keep")); [eexists; reflexivity|].
  destruct (str_eqb action (lit "remove")); [eexists; reflexivity|].
  destruct (str_eqb action (lit "add")); [eexists; reflexivity|].
  exists []; now rewrite app_nil_r.
Qed.

Lemma appendChanges_total list : forall message,
  exists rest, appendChanges message list = Ok (message ++ rest).
Proof.
  induction list as [|ext list IH]; intros message; cbn [appendChanges].
  - exists []. now rewrite app_nil_r.
  - destruct (appendChange_total message ext) as [r1 ->].
    destruct (IH (message ++ r1)) as [r2 ->].
    exists (r1 ++ r2). now rewrite app_assoc.
Qed.

Lemma no_change_same_elements current updated :
  hasRemoved current updated || hasAdded current updated = false
  <-> (forall x, In x current <-> In x updated).
Proof.
  unfold hasRemoved, hasAdded. rewrite orb_false_iff. split.
  - intros [H1 H2] x. split; intros Hx.
    + destruct (includes updated x) eqn:E; [now apply includes_In in E|].
      assert (existsb (fun ext => negb (includes updated ext)) current = true)
        by (apply existsb_exists; exists x; split; [exact Hx | now rewrite E]).
      congruence.
    + destruct (includes current x) eqn:E; [now apply includes_In in E|].
      assert (existsb (fun ext => negb (includes current ext)) updated = true)
        by (apply existsb_exists; exists x; split; [exact Hx | now rewrite E]).
      congruence.
  - intros H. split.
    + destruct (existsb _ current) eqn:E; [|reflexivity].
      apply existsb_exists in E. destruct E as [x [Hx E]].
      apply negb_true_iff, includes_not_In in E. now apply H in Hx.
    + destruct (existsb _ updated) eqn:E; [|reflexivity].
      apply existsb_exists in E. destruct E as [x [Hx E]].
      apply negb_true_iff, includes_not_In in E. now apply H in Hx.
Qed.

Lemma changeReport_returns current updated :
  exists report,
    getCommitMessageByExtensionListChanges current updated = Ok report.
Proof.
  destruct (hasRemoved current updated || hasAdded current updated) eqn:E.
  - unfold getCommitMessageByExtensionListChanges.
    rewrite only_kept, E. cbn [negb].
    destruct (appendChanges_total (sort (changeList current updated)) reportHeader)
      as [lines ->].
    now exists (reportHeader ++ lines).
  - exists []. now apply report_of_kept.
Qed.

Lemma asStrings_strings l : asStrings (map JString l) = Some l.
Proof.
  induction l as [|x l IH]; [reflexivity|]. cbn [map asStrings].
  now rewrite IH.
Qed.

(** X3.  The change report never throws, whatever the identifiers are.  It
    is the empty string exactly when the two lists have the same elements,
    order and repetitions aside; otherwise it starts with the header. *)
Theorem changeReport_total (current updated : list jsstring) :
  exists report,
    getCommitMessageByExtensionListChanges current updated = Ok report
    /\ (report = [] <-> (forall x, In x current <-> In x updated))
    /\ (report <> [] -> exists lines, report = reportHeader ++ lines).
Proof.
  destruct (hasRemoved current updated || hasAdded current updated) eqn:E.
  - unfold getCommitMessageByExtensionListChanges.
    rewrite only_kept, E. cbn [negb].
    destruct (appendChanges_total (sort (changeList current updated)) reportHeader)
      as [lines ->].
    exists (reportHeader ++ lines). split; [reflexivity|]. split.
    + split; [discriminate|].
      intros H. apply no_change_same_elements in H. congruence.
    + intros _. now exists lines.
  - exists []. split; [now apply report_of_kept|]. split.
    + split; [|reflexivity]. intros _. now apply no_change_same_elements.
    + intros H. now elim H.
Qed.

(** ** The staged files and their message *)

Lemma split_lines l :
  Forall (fun f => ~ In LF f) l ->
  split (concat (map (fun f => f ++ [LF]) l)) LF = l ++ [[]].
Proof.
  induction 1 as [|f l Hf _ IH]; [reflexivity|].
  cbn [map concat]. rewrite <- app_assoc. cbn [app].
  rewrite split_app by exact Hf. now rewrite IH.
Qed.

Lemma plainUnit_bounds c :
  plainUnit c = true -> 32 <= c /\ c <= 126 /\ c <> QUOTE /\ c <> BACKSLASH.
Proof.
  unfold plainUnit. rewrite !andb_true_iff, !negb_true_iff.
  intros [[[H1 H2] H3] H4].
  apply N.leb_le in H1, H2. apply N.eqb_neq in H3, H4. auto.
Qed.

Lemma utf8Bytes_plain f : forallb plainUnit f = true -> utf8Bytes f = f.
Proof.
  induction f as [|c f IH]; [reflexivity|].
  cbn [forallb]. rewrite andb_true_iff. intros [Hc Hf].
  apply plainUnit_bounds in Hc. destruct Hc as (H1 & H2 & _).
  cbn [utf8Bytes]. unfold is_lead, is_trail, utf8.
  replace (55296 <=? c) with false by (symmetry; apply N.leb_gt; lia).
  replace (56320 <=? c) with false by (symmetry; apply N.leb_gt; lia).
  replace (c <? 128) with true by (symmetry; apply N.ltb_lt; lia).
  cbn [andb app]. now rewrite IH.
Qed.

Lemma cquoteByte_plain c : plainUnit c = true -> cquoteByte c = None.
Proof.
  intros H. apply plainUnit_bounds in H. destruct H as (H1 & H2 & H3 & H4).
  unfold cquoteByte.
  repeat match goal with
         | |- context [c =? ?k] =>
             replace (c =? k) with false by (symmetry; apply N.eqb_neq;
                                             first [assumption | unfold QUOTE, BACKSLASH; lia | lia])
         end.
  replace (c <? 32) with false by (symmetry; apply N.ltb_ge; lia).
  replace (127 <=? c) with false by (symmetry; apply N.leb_gt; lia).
  reflexivity.
Qed.

Lemma cquote_plain f : forallb plainUnit f = true -> cquote f = f.
Proof.
  intros H. unfold cquote. rewrite (utf8Bytes_plain f H). cbv zeta.
  replace (existsb _ f) with false; [reflexivity|].
  symmetry. clear -H. induction f as [|c f IH]; [reflexivity|].
  cbn [forallb] in H. apply andb_true_iff in H. destruct H as [Hc Hf].
  cbn [existsb]. now rewrite (cquoteByte_plain c Hc), IH.
Qed.

Lemma plain_no_LF f : forallb plainUnit f = true -> ~ In LF f.
Proof.
  intros H Hin. rewrite forallb_forall in H. specialize (H _ Hin).
  discriminate H.
Qed.

Lemma listedFiles_proper l : Forall properPath l -> listedFiles l = l.
Proof.
  intros H. unfold listedFiles.
  assert (E : map (fun f => cquote f ++ [LF]) l = map (fun f => f ++ [LF]) l).
  { apply map_ext_in. intros f Hf. rewrite Forall_forall in H.
    destruct (H f Hf) as [Hp _]. now rewrite cquote_plain. }
  rewrite E, split_lines.
  - rewrite filter_app. cbn [filter]. rewrite blank_nil. cbn [negb].
    rewrite app_nil_r. apply filter_all.
    intros x Hx. rewrite Forall_forall in H. destruct (H x Hx) as [_ ->].
    reflexivity.
  - eapply Forall_impl; [|exact H]. intros f [Hf _]. now apply plain_no_LF.
Qed.

(** X4.  [getStagedFiles] gives back the staging area as it is, path by
    path and in order, when git answers and prints every staged path as it
    is: a path of printable ASCII characters without double quote and
    backslash, which git does not put between quotes, and not blank.  The
    world is left as it was. *)
Theorem getStagedFiles_round_trip (w : World) :
  gitFailure w GitDiffCached = None ->
  Forall properPath (staged w) ->
  getStagedFiles w = (Ret (staged w), w).
Proof.
  intros Hg Hp. rewrite getStagedFiles_listed by exact Hg.
  now rewrite listedFiles_proper.
Qed.

Lemma properPathb_properPath f : properPathb f = true -> properPath f.
Proof.
  unfold properPathb, properPath. rewrite andb_true_iff, negb_true_iff.
  intros [H1 H2]. now split.
Qed.

Lemma getStagedFiles_round_trip_witness :
  let w := with_staged exampleWorld [lit "package.json"; lit "src/index.js"] in
  gitFailure w GitDiffCached = None
  /\ Forall properPath (staged w)
  /\ getStagedFiles w = (Ret [lit "package.json"; lit "src/index.js"], w).
Proof.
  intros w.
  assert (Hp : Forall properPath (staged w))
    by (repeat constructor; apply properPathb_properPath; reflexivity).
  split; [reflexivity|]. split; [exact Hp|].
  exact (getStagedFiles_round_trip w eq_refl Hp).
Defined.

Lemma escapeQuotes_app s t :
  escapeQuotes (s ++ t) = escapeQuotes s ++ escapeQuotes t.
Proof. apply flat_map_app. Qed.

Lemma escapeQuotes_quote s :
  escapeQuotes (QUOTE :: s) = BACKSLASH :: QUOTE :: escapeQuotes s.
Proof. reflexivity. Qed.

Lemma escapeQuotes_escaped s : quotesEscaped (escapeQuotes s).
Proof.
  induction s as [|c s IH]; intros before after E.
  - destruct before; discriminate E.
  - destruct (N.eq_dec c QUOTE) as [->|Hc].
    + rewrite escapeQuotes_quote in E.
      destruct before as [|x [|y before]].
      * discriminate E.
      * exists []. cbn [app] in *. congruence.
      * cbn [app] in E. injection E as E1 E2 E. subst x y.
        destruct (IH before after E) as [b' ->].
        now exists (BACKSLASH :: QUOTE :: b').
    + rewrite escapeQuotes_cons in E by exact Hc.
      destruct before as [|x before].
      * cbn [app] in E. congruence.
      * cbn [app] in E. injection E as E1 E. subst x.
        destruct (IH before after E) as [b' ->].
        now exists (c :: b').
Qed.

Lemma join_lines f files :
  lit "- " ++ join (f :: files) ([LF] ++ lit "- ") ++ [LF]
  = concat (map (fun file => lit "- " ++ file ++ [LF]) (f :: files)).
Proof.
  revert f. induction files as [|g files IH]; intros f.
  - cbn [join map concat]. now rewrite app_nil_r.
  - change (join (f :: g :: files) ([LF] ++ lit "- "))
      with (f ++ ([LF] ++ lit "- ") ++ join (g :: files) ([LF] ++ lit "- ")).
    change (concat (map (fun file => lit "- " ++ file ++ [LF]) (f :: g :: files)))
      with ((lit "- " ++ f ++ [LF])
            ++ concat (map (fun file => lit "- " ++ file ++ [LF]) (g :: files))).
    rewrite <- IH. now rewrite <- !app_assoc.
Qed.

(** X5.  The message of the staged files is empty for no file.  For one
    file or more it is the title, an empty line and one line per file, a
    dash and the path, with the quotes of each piece escaped; in every case
    each double quote of the message comes right after a backslash, so the
    message cannot close the quoted argument of the commit command. *)
Theorem getCommitMessageByStagedFiles_lines (f : jsstring)
  (files : list jsstring) (title : jsstring) :
  getCommitMessageByStagedFiles [] title = []
  /\ getCommitMessageByStagedFiles (f :: files) title
     = escapeQuotes title ++ [LF; LF]
       ++ concat (map (fun file => lit "- " ++ escapeQuotes file ++ [LF])
                      (f :: files))
  /\ quotesEscaped (getCommitMessageByStagedFiles (f :: files) title).
Proof.
  split; [reflexivity|]. split.
  - unfold getCommitMessageByStagedFiles.
    change (Nat.ltb 0 (length (f :: files))) with true. cbv iota.
    rewrite join_lines, !escapeQuotes_app.
    change (escapeQuotes [LF; LF]) with [LF; LF].
    do 2 f_equal.
    generalize (f :: files) as l. induction l as [|g l IH]; [reflexivity|].
    cbn [map concat]. rewrite !escapeQuotes_app, IH. reflexivity.
  - apply escapeQuotes_escaped.
Qed.

(** ** The comparison of the two lists *)

Section Comparison.

Context {R : Runtime}.

(** X6.  [hasChangesOnExtensionList] answers no exactly when the updated
    array is a rearrangement of the current one, repetitions counted; and
    it leaves both arrays of the record sorted, as the sort in place
    does. *)
Theorem hasChangesOnExtensionList_permutation (data : ExtensionPackData) :
  (fst (hasChangesOnExtensionList data) = false
   <-> Permutation (currentExtensions data) (updatedExtensions data))
  /\ currentExtensions (snd (hasChangesOnExtensionList data))
     = sort (currentExtensions data)
  /\ updatedExtensions (snd (hasChangesOnExtensionList data))
     = sort (updatedExtensions data)
  /\ message (snd (hasChangesOnExtensionList data)) = message data.
Proof.
  split; [|now repeat split].
  unfold hasChangesOnExtensionList. cbn [fst].
  rewrite negb_false_iff, str_eqb_eq. split.
  - intros H. apply stringifyStrings_inj in H.
    eapply Permutation_trans; [apply sort_perm|].
    rewrite H. apply Permutation_sym, sort_perm.
  - intros H. now rewrite (sort_of_perm _ _ H).
Qed.

End Comparison.

(** ** Reading the files *)

Lemma split_join lines :
  Forall (fun l => ~ In LF l) lines -> lines <> [] ->
  split (join lines [LF]) LF = lines.
Proof.
  induction 1 as [|x lines Hx Hl IH]; intros Hn; [now elim Hn|].
  destruct lines as [|y lines].
  - cbn [join]. now apply split_whole.
  - change (join (x :: y :: lines) [LF]) with (x ++ LF :: join (y :: lines) [LF]).
    rewrite split_app by exact Hx. f_equal. apply IH. discriminate.
Qed.

Lemma kept_lines_of_join lines :
  Forall (fun l => ~ In LF l) lines ->
  filter keptLine (split (join lines [LF]) LF) = filter keptLine lines.
Proof.
  intros H. destruct lines as [|x lines]; [reflexivity|].
  rewrite split_join; [reflexivity | exact H | discriminate].
Qed.

Section Reading.

Context {R : Runtime}.

(** X7.  [readJsonFile] reads two files alike when they differ only in
    lines that are blank or that start, after white space, with two
    slashes: such lines can be added or taken away anywhere without
    changing the value read or the error thrown. *)
Theorem readJsonFile_skips_comments (path1 path2 : jsstring) (w1 w2 : World)
  (lines1 lines2 : list jsstring) :
  Forall (fun l => ~ In LF l) lines1 ->
  Forall (fun l => ~ In LF l) lines2 ->
  lookup path1 (files w1) = Some (join lines1 [LF]) ->
  lookup path2 (files w2) = Some (join lines2 [LF]) ->
  filter keptLine lines1 = filter keptLine lines2 ->
  match fst (readJsonFile path1 w1), fst (readJsonFile path2 w2) with
  | Ret value1, Ret value2 => value1 = value2
  | Throw (LoggerErrorHandler _ verbose1), Throw (LoggerErrorHandler _ verbose2) =>
      verbose1 = verbose2
  | _, _ => False
  end.
Proof.
  intros H1 H2 F1 F2 E.
  rewrite (readJsonFile_found _ _ _ F1), (readJsonFile_found _ _ _ F2).
  rewrite !kept_lines_of_join by assumption. rewrite E. cbn [fst].
  now destruct (JSON_parse _).
Qed.

(** X8.  [readJsonFile] never changes the world and never ends the
    process.  A file that is missing makes it throw, and whatever it throws
    is a [LoggerErrorHandler] whose message is 'Failed to read file: '
    followed by the path. *)
Theorem readJsonFile_failure (path : jsstring) (w : World) :
  snd (readJsonFile path w) = w
  /\ (lookup path (files w) = None ->
      exists verbose,
        fst (readJsonFile path w)
        = Throw (LoggerErrorHandler (lit "Failed to read file: " ++ path) verbose))
  /\ (forall e, fst (readJsonFile path w) = Throw e ->
        exists verbose,
          e = LoggerErrorHandler (lit "Failed to read file: " ++ path) verbose)
  /\ (forall code, fst (readJsonFile path w) <> Exit code)
  /\ fst (readJsonFile path w) <> Unmodelled.
Proof.
  destruct (lookup path (files w)) as [text|] eqn:E.
  - rewrite (readJsonFile_found _ _ _ E).
    destruct (JSON_parse _) as [value|message]; cbn [fst snd].
    + repeat split; try discriminate.
    + repeat split; try discriminate.
      intros e H. injection H as <-. now exists message.
  - rewrite (readJsonFile_missing _ _ E). cbn [fst snd].
    repeat split; try discriminate.
    + intros _. eexists; reflexivity.
    + intros e H. injection H as <-. eexists; reflexivity.
Qed.

Lemma existsb_never_in {A} (f : A -> bool) l :
  (forall x, In x l -> f x = false) -> existsb f l = false.
Proof.
  induction l as [|a l IH]; intros H; [reflexivity|].
  cbn [existsb]. rewrite (H a (or_introl eq_refl)). apply IH.
  intros x Hx. apply H. now right.
Qed.

(** X9.  In [listProjectDir] an entry whose name is in the ignore list
    contributes nothing: the listing is that of the directory without such
    entries, and it is empty when every entry is ignored. *)
Theorem listProjectDir_ignores (dir : jsstring) (ignore : list jsstring)
  (entries : list (jsstring * node)) :
  listProjectDir dir ignore (Dir entries)
  = listProjectDir dir ignore
      (Dir (filter (fun entry => negb (includes ignore (fst entry))) entries))
  /\ (Forall (fun entry => In (fst entry) ignore) entries ->
      listProjectDir dir ignore (Dir entries) = []).
Proof.
  split.
  - induction entries as [|[item child] entries IH]; [reflexivity|].
    cbn [filter fst]. cbn [listProjectDir] in *.
    destruct (includes ignore item) eqn:E; cbn [negb].
    + exact IH.
    + rewrite E. now rewrite IH.
  - induction 1 as [|[item child] entries Hi _ IH]; [reflexivity|].
    cbn [listProjectDir] in *. cbn [fst] in Hi.
    apply includes_In in Hi. now rewrite Hi.
Qed.

(** X10.  With a tree that can be read, [getProjectFiles] returns and
    leaves the world as it was.  The names ignored are '.git' and, when the
    file [.gitignore] exists in the working directory, its lines.  The
    files returned are the files [listProjectDir] lists under those names,
    less those whose resolved path ends with the resolved path of an
    extension file, each made relative to the working directory, in the
    order of the listing. *)
Theorem getProjectFiles_returns (extensionFiles : list jsstring) (w : World) :
  let ignore :=
    match lookup (path_join [cwd w; lit ".gitignore"]) (files w) with
    | Some text => lit ".git" :: split text LF
    | None => [lit ".git"]
    end in
  let listed := listProjectDir (cwd w) ignore (Dir (tree w)) in
  let extension file :=
    existsb (fun ext => endsWith (path_resolve (cwd w) file)
                                 (path_resolve (cwd w) ext))
            extensionFiles in
  exists found,
    getProjectFiles extensionFiles w = (Ret found, w)
    /\ found = map (path_relative (cwd w))
                   (filter (fun file => negb (extension file)) listed)
    /\ forall f, In f found <->
                 exists file,
                   In file listed
                   /\ (forall ext, In ext extensionFiles ->
                         endsWith (path_resolve (cwd w) file)
                                  (path_resolve (cwd w) ext) = false)
                   /\ f = path_relative (cwd w) file.
Proof.
  cbv zeta. eexists. split; [|split; [reflexivity|]].
  - unfold getProjectFiles, try_catch, bind, get_cwd, existsSync, readFileSync,
      get_tree, ret.
    cbv beta iota zeta.
    destruct (lookup (path_join [cwd w; lit ".gitignore"]) (files w))
      as [text|] eqn:L; cbv beta iota zeta; rewrite ?L; reflexivity.
  - intros f. rewrite in_map_iff. split.
    + intros (file & <- & Hf). apply filter_In in Hf. destruct Hf as [Hl Hf].
      apply negb_true_iff in Hf. exists file. split; [exact Hl|].
      split; [|reflexivity]. intros ext He.
      destruct (endsWith _ _) eqn:E; [|reflexivity].
      assert (X : existsb (fun ext => endsWith (path_resolve (cwd w) file)
                                        (path_resolve (cwd w) ext))
                          extensionFiles = true)
        by (apply existsb_exists; now exists ext).
      congruence.
    + intros (file & Hl & Hn & ->). exists file. split; [reflexivity|].
      apply filter_In. split; [exact Hl|]. apply negb_true_iff.
      apply existsb_never_in. exact Hn.
Qed.

Lemma getSubstitution_plain matched before after template :
  ~ In DOLLAR template ->
  getSubstitution matched before after template = template.
Proof.
  induction template as [|a t IH]; intros H; [reflexivity|].
  cbn [getSubstitution].
  destruct (a =? DOLLAR) eqn:E.
  - apply N.eqb_eq in E. elim H. now left.
  - f_equal. apply IH. intros X. apply H. now right.
Qed.

Lemma replace_version rest version :
  ~ In DOLLAR version ->
  replace (lit "feat(extension): Updates to v{{version}}" ++ rest)
          (lit "{{version}}") version
  = lit "feat(extension): Updates to v" ++ version ++ rest.
Proof.
  intros H.
  transitivity (lit "feat(extension): Updates to v"
                ++ getSubstitution (lit "{{version}}")
                     (lit "feat(extension): Updates to v") rest version
                ++ rest); [reflexivity|].
  now rewrite getSubstitution_plain.
Qed.

(** X11.  When [getExtensionPackData] returns, all it has done to the world
    is to empty the staging area: nothing is written, committed, logged or
    read from the terminal.  The record carries the files it was given and
    the path of the manifest in the working directory, and its message is
    empty or starts with the title in which the placeholder has given way
    to the new version (a version without a dollar sign, which
    [String.prototype.replace] would read as a pattern). *)
Theorem getExtensionPackData_effect (files : list jsstring) (w w1 : World)
  (data : ExtensionPackData) :
  getExtensionPackData files w = (Ret data, w1) ->
  w1 = with_staged w []
  /\ extensionFiles data = files
  /\ packageJsonPath data = path_join [cwd w; lit "package.json"]
  /\ exists version,
       updatedVersion data = Some version
       /\ (~ In DOLLAR version ->
           message data = []
           \/ exists rest,
                message data
                = lit "feat(extension): Updates to v" ++ version ++ rest).
Proof.
  intros H. apply getExtensionPackData_Ret in H.
  destruct H as (fields & version & current & recommended & report & data2
                 & Er & Hinfo & ->).
  pose proof (addAdditionalInfoToMessage_returns _ _ _ _ Hinfo) as (G1 & G2 & G3).
  pose proof (addAdditionalInfoToMessage_data _ _ _ _ Hinfo
                (report_titled _ _ _ Er)) as (Ht & _ & _ & Hv & Hp).
  rewrite (addAdditionalInfoToMessage_run _ _ G1 G2 G3) in Hinfo.
  injection Hinfo as Hdata Hw.
  split; [now rewrite <- Hw|].
  split.
  { rewrite <- Hdata. cbn [set_message extensionFiles].
    now destruct (existsb _ _). }
  split.
  { cbn [set_message packageJsonPath]. rewrite Hp. reflexivity. }
  cbn [set_message updatedVersion message]. rewrite Hv.
  cbn [bumpVersion set_updatedVersion updatedVersion].
  eexists. split; [reflexivity|].
  intros Hdollar. destruct Ht as [->|(rest & ->)]; [now left | right].
  exists rest. now apply replace_version.
Qed.

End Reading.

Lemma readJsonFile_skips_comments_witness :
  let lines1 := [lit "// the recommended extensions"; lit "same"; lit "  "] in
  let lines2 := [lit "same"] in
  let w1 := with_file bareWorld (lit "/a.json") (join lines1 [LF]) in
  let w2 := with_file bareWorld (lit "/b.json") (join lines2 [LF]) in
  Forall (fun l => ~ In LF l) lines1
  /\ Forall (fun l => ~ In LF l) lines2
  /\ filter keptLine lines1 = filter keptLine lines2
  /\ match fst (@readJsonFile exampleRuntime (lit "/a.json") w1),
           fst (@readJsonFile exampleRuntime (lit "/b.json") w2) with
     | Ret value1, Ret value2 => value1 = value2
     | Throw (LoggerErrorHandler _ verbose1),
       Throw (LoggerErrorHandler _ verbose2) => verbose1 = verbose2
     | _, _ => False
     end.
Proof.
  intros lines1 lines2 w1 w2.
  assert (H1 : Forall (fun l => ~ In LF l) lines1)
    by (repeat constructor; apply not_In_check; reflexivity).
  assert (H2 : Forall (fun l => ~ In LF l) lines2)
    by (repeat constructor; apply not_In_check; reflexivity).
  split; [exact H1|]. split; [exact H2|]. split; [reflexivity|].
  exact (@readJsonFile_skips_comments exampleRuntime (lit "/a.json")
           (lit "/b.json") w1 w2 lines1 lines2 H1 H2 eq_refl eq_refl eq_refl).
Defined.

Lemma getExtensionPackData_effect_witness :
  exists data w1,
    @getExtensionPackData exampleRuntime releaseFiles exampleWorld = (Ret data, w1)
    /\ w1 = with_staged exampleWorld []
    /\ updatedVersion data = Some (lit "2.0.0")
    /\ exists rest,
         message data = lit "feat(extension): Updates to v" ++ lit "2.0.0" ++ rest.
Proof.
  destruct (@getExtensionPackData exampleRuntime releaseFiles exampleWorld)
    as [[data| | |] w1] eqn:E; try (vm_compute in E; discriminate E).
  exists data, w1. split; [reflexivity|].
  destruct (@getExtensionPackData_effect exampleRuntime _ _ _ _ E)
    as (Hw & _ & _ & version & Hv & Hm).
  assert (V : updatedVersion data = Some (lit "2.0.0"))
    by (vm_compute in E; injection E as <- _; reflexivity).
  split; [exact Hw|]. split; [exact V|].
  rewrite V in Hv. injection Hv as <-.
  destruct Hm as [Hm|Hm].
  - apply not_In_check. reflexivity.
  - exfalso. vm_compute in E. injection E as <- _. discriminate Hm.
  - exact Hm.
Defined.

(** ** The two commits, case by case *)

Lemma confirm_no_input message w :
  stdin w = [] -> confirm message question w = (Exit 130, w).
Proof.
  intros H. unfold confirm.
  destruct (colorize (lit "green") (lit "y")) as [y|] eqn:Ey;
    [|discriminate Ey].
  destruct (colorize (lit "red") (lit "n")) as [n|] eqn:En;
    [|discriminate En].
  destruct (colorize (lit "magenta") (lit "[QUESTION] ")) as [tag|] eqn:Et;
    [|discriminate Et].
  unfold bind, lift, ret, prompt. now rewrite H.
Qed.

Lemma execGit_fails command w err :
  match command with GitCommit _ => False | _ => True end ->
  gitFailure w command = Some err ->
  execGitCommand command w
  = (Throw (LoggerErrorHandler
              (lit "Git command failed")
              (lit "Command: " ++ commandText command ++ [LF]
               ++ lit "Error: " ++ err)), w).
Proof.
  intros Hc H. unfold execGitCommand, git.
  destruct command; [| | |contradiction]; now rewrite H.
Qed.

(** What follows the message in both commit functions, case by case.  An
    interrupt at the prompt ends the process at once, after the changes
    have been shown: nothing is unstaged. *)
Lemma confirmAndCommit_outcomes message aborted w :
  let r := confirmAndCommit message aborted w in
  files (snd r) = files w
  /\ gitFailure (snd r) = gitFailure w
  /\ match fst r with
     | Ret done =>
         done = true /\ staged w <> [] /\ staged (snd r) = []
         /\ (exists given,
               shellDoubleQuoted message = Some given
               /\ commits (snd r) = (given, staged w) :: commits w)
         /\ exists answer, stdin w = answer :: stdin (snd r)
                           /\ startsWithYes answer = true
     | Exit code =>
         (code = 0 /\ staged (snd r) = [] /\ commits (snd r) = commits w
          /\ exists answer, stdin w = answer :: stdin (snd r)
                            /\ startsWithYes answer = false)
         \/ (code = 130 /\ stdin w = [] /\ stdin (snd r) = []
             /\ staged (snd r) = staged w /\ commits (snd r) = commits w)
     | Throw e => commits (snd r) = commits w
     | Unmodelled =>
         shellDoubleQuoted message = None
         /\ staged (snd r) = staged w /\ commits (snd r) = commits w
     end.
Proof.
  unfold confirmAndCommit, bind, info, log, console_log.
  destruct (stdin w) as [|answer rest] eqn:S.
  - match goal with
    | |- context [confirm ?m question ?w0] =>
        rewrite (confirm_no_input m w0 S)
    end.
    cbn [fst snd files gitFailure staged commits stdin with_event].
    split; [reflexivity|]. split; [reflexivity|]. right.
    now rewrite S.
  - match goal with
    | |- context [confirm ?m question ?w0] =>
        destruct (confirm_answer m w0 answer rest S) as (text & ->)
    end.
    destruct (startsWithYes answer) eqn:Y; cbn [negb]; unfold ret, exit.
    + unfold execGitCommand, git. cbn [gitFailure with_event with_stdin staged].
      destruct (shellDoubleQuoted message) as [given|];
        [|cbn; rewrite ?S; auto].
      destruct (gitFailure w (GitCommit message)); [cbn; rewrite ?S; auto|].
      destruct (staged w) as [|f l] eqn:St; [cbn; rewrite ?S; auto|].
      cbn [fst snd files gitFailure staged commits stdin with_commit
           with_event with_stdin].
      rewrite St.
      split; [reflexivity|]. split; [reflexivity|]. split; [reflexivity|].
      split; [discriminate|]. split; [reflexivity|].
      split; [now exists given | now exists answer].
    + unfold execGitCommand, git. cbn [gitFailure with_event with_stdin staged].
      destruct (gitFailure w GitRestoreStaged); [cbn; rewrite ?S; auto|].
      cbn [fst snd files gitFailure staged commits stdin with_staged
           with_event with_stdin].
      split; [reflexivity|]. split; [reflexivity|]. left.
      split; [reflexivity|]. split; [reflexivity|]. split; [reflexivity|].
      now exists answer.
Qed.

Lemma commitProjectFiles_unfold projectFiles :
  commitProjectFiles projectFiles
  = try_catch
      (bind (execGitCommand (GitAdd projectFiles)) (fun _ =>
       bind getStagedFiles (fun stagedFiles =>
         let message :=
           getCommitMessageByStagedFiles stagedFiles
             (lit "chore: Updated project files") in
         if blank message then
           bind (info (lit "No changes to commit for project files.") None)
                (fun _ => ret false)
         else
           confirmAndCommit message
             (lit "User aborted the operation `commitProjectFiles`."))))
      (fun err =>
         bind (execGitCommand GitRestoreStaged) (fun _ =>
         throw (LoggerErrorHandler (lit "Failed to commit project files")
                                   (err_message err)))).
Proof. reflexivity. Qed.

Lemma commitExtensionFiles_unfold data :
  commitExtensionFiles data
  = try_catch
      (bind (execGitCommand (GitAdd [lit "."])) (fun _ =>
         if blank (message data) then
           bind (info (lit "No changes to commit for extension files.") None)
                (fun _ => ret false)
         else
           confirmAndCommit (message data)
             (lit "User aborted the operation `commitExtensionFiles`.")))
      (fun err =>
         bind (execGitCommand GitRestoreStaged) (fun _ =>
         throw (LoggerErrorHandler (lit "Failed to commit changes")
                                   (err_message err)))).
Proof. reflexivity. Qed.

(** The handler of the two commit functions. *)
Lemma commit_handler text e w w0 :
  files w0 = files w -> commits w0 = commits w ->
  gitFailure w0 = gitFailure w ->
  exists e' w',
    bind (execGitCommand GitRestoreStaged)
         (fun _ => throw (LoggerErrorHandler text (err_message e))) w0
    = (@Throw bool e', w')
    /\ files w' = files w
    /\ commits w' = commits w
    /\ (gitFailure w GitRestoreStaged = None ->
        staged w' = []
        /\ exists verbose, e' = LoggerErrorHandler text verbose)
    /\ (forall err, gitFailure w GitRestoreStaged = Some err ->
        exists verbose,
          e' = LoggerErrorHandler (lit "Git command failed") verbose).
Proof.
  intros Hf Hc Hg. unfold bind, execGitCommand, git, throw. rewrite Hg.
  destruct (gitFailure w GitRestoreStaged) as [err|].
  - eexists. eexists. split; [reflexivity|].
    repeat split; try assumption; try discriminate.
    intros err' _. eexists; reflexivity.
  - eexists. eexists. split; [reflexivity|].
    cbn [files commits staged with_staged].
    repeat split; try assumption; try discriminate.
    eexists; reflexivity.
Qed.

Ltac by_commit_handler w :=
  cbv beta iota;
  match goal with
  | |- context [bind (execGitCommand GitRestoreStaged)
                     (fun _ => throw (LoggerErrorHandler ?t (err_message ?e)))
                     ?w0] =>
      let e' := fresh "e'" in
      let w' := fresh "w'" in
      let E := fresh "E" in
      let F := fresh "F" in
      let C := fresh "C" in
      let N := fresh "N" in
      let S := fresh "S" in
      destruct (commit_handler t e w w0) as (e' & w' & E & F & C & N & S);
      [first [reflexivity | assumption] ..
      | rewrite E; cbn [fst snd];
        split; [exact F | split; [exact C | split; [exact N | exact S]]]]
  end.

(** X12.  Every run of [commitProjectFiles] on files whose names the
    shell hands to git as they are ends in one of these ways.  It returns
    false when git lists no staged file, with no commit made.  It returns
    true after an answer that starts with y or Y, with one commit of the
    staged paths and nothing left staged; the commit carries the message
    of the listed files as the shell has read it.  It ends the process
    with status 0 after any other answer, with nothing staged and no
    commit.  It ends the process with status 130 when the user presses
    Ctrl-C at the prompt, with no commit and the files left staged.  Or it
    throws, with no commit made: when the unstaging of the handler succeeds
    the error is 'Failed to commit project files' and nothing stays staged;
    when it fails, its own 'Git command failed' is what leaves the
    function.  A message that the shell would not hand on as it is written
    is not followed.  No file is written in any case. *)
Theorem commitProjectFiles_outcomes (projectFiles : list jsstring) (w : World) :
  Forall (fun f => shellWord f = true) projectFiles ->
  let w' := snd (commitProjectFiles projectFiles w) in
  let listed := listedFiles (stageOf projectFiles w) in
  let message :=
    getCommitMessageByStagedFiles listed (lit "chore: Updated project files") in
  files w' = files w
  /\ match fst (commitProjectFiles projectFiles w) with
     | Ret false =>
         listed = [] /\ commits w' = commits w
         /\ staged w' = stageOf projectFiles w
     | Ret true =>
         listed <> [] /\ staged w' = []
         /\ (exists given,
               shellDoubleQuoted message = Some given
               /\ commits w' = (given, stageOf projectFiles w) :: commits w)
         /\ exists answer, stdin w = answer :: stdin w'
                           /\ startsWithYes answer = true
     | Exit code =>
         (code = 0 /\ staged w' = [] /\ commits w' = commits w
          /\ exists answer, stdin w = answer :: stdin w'
                            /\ startsWithYes answer = false)
         \/ (code = 130 /\ stdin w = [] /\ listed <> []
             /\ staged w' = stageOf projectFiles w /\ commits w' = commits w)
     | Throw e =>
         commits w' = commits w
         /\ (gitFailure w GitRestoreStaged = None ->
             staged w' = []
             /\ exists verbose,
                  e = LoggerErrorHandler (lit "Failed to commit project files")
                                         verbose)
         /\ (forall err, gitFailure w GitRestoreStaged = Some err ->
             exists verbose,
               e = LoggerErrorHandler (lit "Git command failed") verbose)
     | Unmodelled => shellDoubleQuoted message = None
     end.
Proof.
  intros _. cbv zeta. rewrite commitProjectFiles_unfold. unfold try_catch.
  set (body := bind (execGitCommand (GitAdd projectFiles)) _).
  destruct (gitFailure w (GitAdd projectFiles)) as [err|] eqn:Ga.
  { assert (E : body w = (Throw (LoggerErrorHandler
                                   (lit "Git command failed")
                                   (lit "Command: "
                                    ++ commandText (GitAdd projectFiles) ++ [LF]
                                    ++ lit "Error: " ++ err)), w))
      by (unfold body, bind; now rewrite (execGit_fails (GitAdd _) _ _ I Ga)).
    rewrite E. by_commit_handler w. }
  destruct (gitFailure w GitDiffCached) as [err|] eqn:Gd.
  { assert (E : body w = (Throw (LoggerErrorHandler
                                   (lit "Git command failed")
                                   (lit "Command: "
                                    ++ commandText GitDiffCached ++ [LF]
                                    ++ lit "Error: " ++ err)),
                          with_staged w (stageOf projectFiles w)))
      by (unfold body, bind; rewrite (execGit_add _ _ Ga);
          unfold getStagedFiles, bind;
          now rewrite execGit_fails with (err := err) by (exact I || exact Gd)).
    rewrite E. by_commit_handler w. }
  set (listed := listedFiles (stageOf projectFiles w)).
  set (message := getCommitMessageByStagedFiles listed
                    (lit "chore: Updated project files")).
  assert (E : body w
              = if blank message
                then (Ret false,
                      with_event (with_staged w (stageOf projectFiles w))
                        (Logged TInfo
                           (lit "No changes to commit for project files.") None))
                else confirmAndCommit message
                       (lit "User aborted the operation `commitProjectFiles`.")
                       (with_staged w (stageOf projectFiles w))).
  { unfold body. unfold bind at 1. rewrite (execGit_add _ _ Ga).
    unfold bind at 1. rewrite getStagedFiles_listed by exact Gd.
    cbn [staged with_staged]. cbv zeta. fold listed. fold message.
    now destruct (blank message). }
  rewrite E. clear E body.
  destruct (blank message) eqn:B.
  { cbn [fst snd files commits staged with_event with_staged].
    repeat split. destruct listed as [|f l] eqn:L; [reflexivity|].
    unfold message in B.
    change (lit "chore: Updated project files")
      with (99 :: lit "hore: Updated project files") in B.
    rewrite staged_message_not_blank in B by (discriminate || reflexivity).
    discriminate B. }
  assert (Hl : listed <> []).
  { intros L. unfold message in B. rewrite L in B. discriminate B. }
  pose proof (confirmAndCommit_outcomes message
                (lit "User aborted the operation `commitProjectFiles`.")
                (with_staged w (stageOf projectFiles w))) as T.
  cbv zeta in T.
  destruct (confirmAndCommit _ _ _) as [[done|e|code|] w2];
    cbn [fst snd files commits staged gitFailure stdin with_staged] in T;
    destruct T as (F & G & T).
  - cbn [fst snd]. destruct T as (-> & St & S0 & C & A).
    split; [exact F|]. split; [exact Hl|]. split; [exact S0|].
    split; [exact C | exact A].
  - by_commit_handler w.
  - cbn [fst snd]. split; [exact F|].
    destruct T as [T|(T1 & T2 & T3 & T4 & T5)]; [now left | right].
    now repeat split.
  - cbn [fst snd]. split; [exact F | apply T].
Qed.

Lemma commitProjectFiles_outcomes_witness :
  Forall (fun f => shellWord f = true) [lit "src/index.js"]
  /\ exists w',
       commitProjectFiles [lit "src/index.js"] (with_stdin exampleWorld [])
       = (Exit 130, w')
       /\ staged w' = [lit "src/index.js"] /\ commits w' = [].
Proof.
  assert (H : Forall (fun f => shellWord f = true) [lit "src/index.js"])
    by (repeat constructor).
  split; [exact H|].
  pose proof (commitProjectFiles_outcomes [lit "src/index.js"]
                (with_stdin exampleWorld []) H) as T.
  cbv zeta in T.
  destruct (commitProjectFiles [lit "src/index.js"] (with_stdin exampleWorld []))
    as [[[|]|e|code|] w'] eqn:E; try (vm_compute in E; discriminate E).
  cbn [fst snd] in T. destruct T as [_ [T|T]].
  - exfalso. destruct T as (_ & _ & _ & answer & S & _). discriminate S.
  - destruct T as (-> & _ & _ & St & C).
    exists w'. split; [reflexivity|]. split; [exact St | exact C].
Defined.

Lemma stage_all w f : In f (modified w) -> In f (stageOf [lit "."] w).
Proof.
  intros H. unfold stageOf. apply in_or_app.
  destruct (includes (staged w) f) eqn:E.
  - left. now apply includes_In.
  - right. apply filter_In. split; [exact H|]. now rewrite E.
Qed.

(** X13.  The same ways for [commitExtensionFiles].  With a blank message
    it returns false and makes no commit, and everything [git add .] has
    staged stays staged: every modified path is in the staging area
    afterwards.  With a message it returns true after a commit of all that
    is staged, under that message as the shell has read it; or ends the
    process with status 0 after a refusal, with nothing staged; or ends it
    with status 130 at a Ctrl-C, with everything left staged; or throws,
    with no commit made, 'Failed to commit changes' when the unstaging of
    the handler succeeds.  A message that the shell would not hand on as it
    is written is not followed. *)
Theorem commitExtensionFiles_outcomes (data : ExtensionPackData) (w : World) :
  let w' := snd (commitExtensionFiles data w) in
  files w' = files w
  /\ match fst (commitExtensionFiles data w) with
     | Ret false =>
         blank (message data) = true /\ commits w' = commits w
         /\ forall f, In f (modified w) -> In f (staged w')
     | Ret true =>
         blank (message data) = false /\ staged w' = []
         /\ (exists given,
               shellDoubleQuoted (message data) = Some given
               /\ commits w' = (given, stageOf [lit "."] w) :: commits w)
         /\ exists answer, stdin w = answer :: stdin w'
                           /\ startsWithYes answer = true
     | Exit code =>
         (code = 0 /\ staged w' = [] /\ commits w' = commits w
          /\ exists answer, stdin w = answer :: stdin w'
                            /\ startsWithYes answer = false)
         \/ (code = 130 /\ stdin w = [] /\ blank (message data) = false
             /\ commits w' = commits w
             /\ forall f, In f (modified w) -> In f (staged w'))
     | Throw e =>
         commits w' = commits w
         /\ (gitFailure w GitRestoreStaged = None ->
             staged w' = []
             /\ exists verbose,
                  e = LoggerErrorHandler (lit "Failed to commit changes") verbose)
         /\ (forall err, gitFailure w GitRestoreStaged = Some err ->
             exists verbose,
               e = LoggerErrorHandler (lit "Git command failed") verbose)
     | Unmodelled => shellDoubleQuoted (message data) = None
     end.
Proof.
  cbv zeta. rewrite commitExtensionFiles_unfold. unfold try_catch.
  set (body := bind (execGitCommand (GitAdd [lit "."])) _).
  destruct (gitFailure w (GitAdd [lit "."])) as [err|] eqn:Ga.
  { assert (E : body w = (Throw (LoggerErrorHandler
                                   (lit "Git command failed")
                                   (lit "Command: "
                                    ++ commandText (GitAdd [lit "."]) ++ [LF]
                                    ++ lit "Error: " ++ err)), w))
      by (unfold body, bind; now rewrite (execGit_fails (GitAdd _) _ _ I Ga)).
    rewrite E. by_commit_handler w. }
  assert (E : body w
              = if blank (message data)
                then (Ret false,
                      with_event (with_staged w (stageOf [lit "."] w))
                        (Logged TInfo
                           (lit "No changes to commit for extension files.") None))
                else confirmAndCommit (message data)
                       (lit "User aborted the operation `commitExtensionFiles`.")
                       (with_staged w (stageOf [lit "."] w))).
  { unfold body. unfold bind at 1. rewrite (execGit_add _ _ Ga).
    now destruct (blank (message data)). }
  rewrite E. clear E body.
  destruct (blank (message data)) eqn:B.
  { cbn [fst snd files commits staged with_event with_staged].
    repeat split. apply stage_all. }
  pose proof (confirmAndCommit_outcomes (message data)
                (lit "User aborted the operation `commitExtensionFiles`.")
                (with_staged w (stageOf [lit "."] w))) as T.
  cbv zeta in T.
  destruct (confirmAndCommit _ _ _) as [[done|e|code|] w2];
    cbn [fst snd files commits staged gitFailure stdin with_staged] in T;
    destruct T as (F & G & T).
  - cbn [fst snd]. destruct T as (-> & St & S0 & C & A).
    split; [exact F|]. split; [reflexivity|]. split; [exact S0|].
    split; [exact C | exact A].
  - by_commit_handler w.
  - cbn [fst snd]. split; [exact F|].
    destruct T as [T|(T1 & T2 & T3 & T4 & T5)]; [now left | right].
    split; [exact T1|]. split; [exact T2|]. split; [reflexivity|].
    split; [exact T5|]. intros f Hf. rewrite T4. now apply stage_all.
  - cbn [fst snd]. split; [exact F | apply T].
Qed.

Lemma escapeQuotes_id s : ~ In QUOTE s -> escapeQuotes s = s.
Proof.
  induction s as [|c s IH]; intros H; [reflexivity|].
  rewrite escapeQuotes_cons by (intros ->; apply H; now left).
  f_equal. apply IH. intros X. apply H. now right.
Qed.

Lemma shellDoubleQuoted_handedOn s :
  forallb handedOn s = true -> shellDoubleQuoted s = Some s.
Proof.
  induction s as [|c s IH]; [reflexivity|].
  cbn [forallb]. rewrite andb_true_iff. intros [Hc Hs].
  unfold handedOn in Hc. rewrite negb_true_iff, !orb_false_iff in Hc.
  destruct Hc as ((((H1 & H2) & H3) & H4) & H5).
  cbn [shellDoubleQuoted]. rewrite H1, H2, H3, H4, H5. cbn [orb].
  now rewrite (IH Hs).
Qed.

Lemma quietUnit_handedOn c : quietUnit c = true -> handedOn c = true.
Proof.
  unfold quietUnit, handedOn. rewrite !andb_true_iff, !negb_true_iff.
  intros [[Hp H1] H2]. apply plainUnit_bounds in Hp.
  destruct Hp as (B1 & _ & B3 & B4).
  apply N.eqb_neq in B3, B4. rewrite B3, B4, H1, H2.
  replace (c =? 0) with false by (symmetry; apply N.eqb_neq; lia).
  reflexivity.
Qed.

Lemma quietUnit_plain c : quietUnit c = true -> plainUnit c = true.
Proof.
  unfold quietUnit. rewrite !andb_true_iff. now intros [[H _] _].
Qed.

Lemma quietPath_proper f : quietPath f -> properPath f.
Proof.
  intros [H B]. split; [|exact B].
  apply forallb_forall. intros c Hc. apply quietUnit_plain.
  rewrite forallb_forall in H. now apply H.
Qed.

Lemma handedOn_lines files :
  Forall quietPath files ->
  forallb handedOn (concat (map (fun file => lit "- " ++ file ++ [LF]) files))
  = true.
Proof.
  induction 1 as [|f files [Hf _] _ IH]; [reflexivity|].
  cbn [map concat]. rewrite !forallb_app, IH.
  replace (forallb handedOn f) with true; [reflexivity|].
  symmetry. apply forallb_forall. intros c Hc. apply quietUnit_handedOn.
  rewrite forallb_forall in Hf. now apply Hf.
Qed.

Lemma no_quote_lines files :
  Forall quietPath files ->
  ~ In QUOTE (concat (map (fun file => lit "- " ++ file ++ [LF]) files)).
Proof.
  intros H Hin. pose proof (handedOn_lines files H) as A.
  rewrite forallb_forall in A. specialize (A _ Hin). discriminate A.
Qed.

(** The message of files with quiet names, and what the shell makes of
    it. *)
Lemma quiet_message files title :
  files <> [] ->
  Forall quietPath files -> forallb handedOn title = true ->
  getCommitMessageByStagedFiles files title = stagedFilesMessage files title
  /\ shellDoubleQuoted (stagedFilesMessage files title)
     = Some (stagedFilesMessage files title).
Proof.
  intros Hn Hq Ht. destruct files as [|f files]; [now elim Hn|].
  assert (Hh : forallb handedOn (stagedFilesMessage (f :: files) title) = true).
  { unfold stagedFilesMessage. rewrite !forallb_app, Ht, handedOn_lines by exact Hq.
    reflexivity. }
  split; [|now apply shellDoubleQuoted_handedOn].
  unfold getCommitMessageByStagedFiles.
  change (Nat.ltb 0 (length (f :: files))) with true. cbv iota.
  rewrite join_lines. apply escapeQuotes_id.
  intros Hin. fold (stagedFilesMessage (f :: files) title) in Hin.
  rewrite forallb_forall in Hh. specialize (Hh _ Hin). discriminate Hh.
Qed.

(** X14.  An answer that starts with y or Y makes the commit.  When the
    project files are words the shell hands to git as they are, every
    staged path has a quiet name (printable ASCII without double quote,
    backslash, dollar sign and backquote), the git commands succeed and
    something is staged, [commitProjectFiles] returns true: the commit is
    made with the title, an empty line and one '- path' line per staged
    path as its message, and with the staged paths; these paths are no
    longer modified, and nothing stays staged. *)
Theorem accept_commits (w : World) (answer : jsstring) (rest : list jsstring)
  (projectFiles : list jsstring) :
  let message :=
    stagedFilesMessage (stageOf projectFiles w)
                       (lit "chore: Updated project files") in
  Forall (fun f => shellWord f = true) projectFiles ->
  Forall quietPath (stageOf projectFiles w) ->
  stageOf projectFiles w <> [] ->
  stdin w = answer :: rest ->
  startsWithYes answer = true ->
  gitFailure w (GitAdd projectFiles) = None ->
  gitFailure w GitDiffCached = None ->
  gitFailure w (GitCommit message) = None ->
  exists w',
    commitProjectFiles projectFiles w = (Ret true, w')
    /\ staged w' = []
    /\ commits w' = (message, stageOf projectFiles w) :: commits w
    /\ stdin w' = rest
    /\ forall f, In f (modified w') <->
                 In f (modified w) /\ ~ In f (stageOf projectFiles w).
Proof.
  intros message _ Hq Hst Hin Hyes Hadd Hdiff Hcommit.
  assert (Hlisted : listedFiles (stageOf projectFiles w) = stageOf projectFiles w).
  { apply listedFiles_proper. eapply Forall_impl; [|exact Hq].
    intros f. apply quietPath_proper. }
  destruct (quiet_message (stageOf projectFiles w)
              (lit "chore: Updated project files") Hst Hq eq_refl) as [Hm Hs].
  fold message in Hm, Hs.
  assert (B : blank message = false).
  { rewrite <- Hm. destruct (stageOf projectFiles w); [now elim Hst|].
    change (lit "chore: Updated project files")
      with (99 :: lit "hore: Updated project files").
    apply staged_message_not_blank; (discriminate || reflexivity). }
  unfold commitProjectFiles, try_catch, bind.
  rewrite (execGit_add _ _ Hadd), getStagedFiles_listed by exact Hdiff.
  cbn [staged with_staged]. rewrite Hlisted, Hm, B.
  unfold info, log, console_log.
  match goal with
  | |- context [confirm ?m question ?w0] =>
      destruct (confirm_answer m w0 answer rest Hin) as (text & ->)
  end.
  rewrite Hyes. cbn [negb]. unfold ret.
  unfold execGitCommand, git. cbn [gitFailure with_event with_stdin staged with_staged].
  rewrite Hs, Hcommit.
  destruct (stageOf projectFiles w) as [|f0 l] eqn:St; [now elim Hst|].
  eexists. split; [reflexivity|].
  cbn [staged commits stdin modified with_commit with_event with_stdin with_staged].
  split; [reflexivity|]. split; [reflexivity|]. split; [reflexivity|].
  intros f. rewrite filter_In, negb_true_iff, includes_not_In. reflexivity.
Qed.

Lemma quietPathb_quietPath f : quietPathb f = true -> quietPath f.
Proof.
  unfold quietPathb, quietPath. rewrite andb_true_iff, negb_true_iff.
  intros [H1 H2]. now split.
Qed.

Lemma accept_commits_witness :
  let w := with_stdin exampleWorld [lit "yes"] in
  Forall (fun f => shellWord f = true) [lit "src/index.js"]
  /\ Forall quietPath (stageOf [lit "src/index.js"] w)
  /\ exists w',
       commitProjectFiles [lit "src/index.js"] w = (Ret true, w')
       /\ staged w' = []
       /\ commits w'
          = [(lit "chore: Updated project files" ++ [LF; LF]
              ++ lit "- src/index.js" ++ [LF],
              [lit "src/index.js"])]
       /\ stdin w' = [].
Proof.
  intros w.
  assert (Hw : Forall (fun f => shellWord f = true) [lit "src/index.js"])
    by (repeat constructor).
  assert (Hq : Forall quietPath (stageOf [lit "src/index.js"] w))
    by (repeat constructor; apply quietPathb_quietPath; reflexivity).
  split; [exact Hw|]. split; [exact Hq|].
  destruct (accept_commits w (lit "yes") [] [lit "src/index.js"]
              Hw Hq ltac:(discriminate) eq_refl eq_refl eq_refl eq_refl eq_refl)
    as (w' & E & S & C & I & _).
  exists w'. split; [exact E|]. split; [exact S|]. split; [exact C | exact I].
Defined.

(** ** Where the process can end *)

Lemma bind_Exit {A B} (m : M A) (k : A -> M B) w code w' :
  bind m k w = (Exit code, w') ->
  m w = (Exit code, w')
  \/ exists a w1, m w = (Ret a, w1) /\ k a w1 = (Exit code, w').
Proof.
  unfold bind. destruct (m w) as [[a|e|c|] w1]; intros H; try discriminate H.
  - right. now exists a, w1.
  - left. injection H as -> ->. reflexivity.
Qed.

Lemma try_catch_Exit {A} (m : M A) (handler : exn -> M A) w code w' :
  try_catch m handler w = (Exit code, w') ->
  m w = (Exit code, w')
  \/ exists e w1, m w = (Throw e, w1) /\ handler e w1 = (Exit code, w').
Proof.
  unfold try_catch. destruct (m w) as [[a|e|c|] w1]; intros H; try discriminate H.
  - right. now exists e, w1.
  - left. exact H.
Qed.

Lemma execGitCommand_no_exit command w code w' :
  execGitCommand command w <> (Exit code, w').
Proof.
  unfold execGitCommand. now destruct (git command w) as [[output|err|] w1].
Qed.

Lemma getStagedFiles_no_exit w code w' : getStagedFiles w <> (Exit code, w').
Proof.
  intros H. unfold getStagedFiles in H. apply bind_Exit in H.
  destruct H as [H|(a & w1 & _ & H)]; [|discriminate H].
  now apply execGitCommand_no_exit in H.
Qed.

Lemma addAdditionalInfoToMessage_no_exit data w code w' :
  addAdditionalInfoToMessage data w <> (Exit code, w').
Proof.
  intros H. unfold addAdditionalInfoToMessage in H.
  apply bind_Exit in H.
  destruct H as [H|(a & w1 & _ & H)]; [now apply execGitCommand_no_exit in H|].
  apply bind_Exit in H.
  destruct H as [H|(l & w2 & _ & H)]; [now apply getStagedFiles_no_exit in H|].
  apply bind_Exit in H.
  destruct H as [H|(b & w3 & _ & H)]; [now apply execGitCommand_no_exit in H|].
  discriminate H.
Qed.

Lemma commit_handler_no_exit text e w code w' :
  bind (execGitCommand GitRestoreStaged)
       (fun _ => throw (LoggerErrorHandler text (err_message e))) w
  <> (@Exit bool code, w').
Proof.
  intros H. apply bind_Exit in H.
  destruct H as [H|(a & w1 & _ & H)]; [|discriminate H].
  now apply execGitCommand_no_exit in H.
Qed.

Lemma confirmAndCommit_exit message aborted w code w' :
  confirmAndCommit message aborted w = (Exit code, w') ->
  (code = 0 /\ staged w' = []) \/ (code = 130 /\ stdin w' = []).
Proof.
  intros H. pose proof (confirmAndCommit_outcomes message aborted w) as T.
  cbv zeta in T. rewrite H in T. cbn [fst snd] in T.
  destruct T as (_ & _ & [T|T]); [left | right]; split; apply T.
Qed.

Lemma commitProjectFiles_exit projectFiles w code w' :
  commitProjectFiles projectFiles w = (Exit code, w') ->
  (code = 0 /\ staged w' = []) \/ (code = 130 /\ stdin w' = []).
Proof.
  intros H. rewrite commitProjectFiles_unfold in H.
  apply try_catch_Exit in H.
  destruct H as [H|(e & w1 & _ & H)]; [|now apply commit_handler_no_exit in H].
  apply bind_Exit in H.
  destruct H as [H|(a & w1 & _ & H)]; [now apply execGitCommand_no_exit in H|].
  apply bind_Exit in H.
  destruct H as [H|(l & w2 & _ & H)]; [now apply getStagedFiles_no_exit in H|].
  cbv zeta in H.
  destruct (blank _); [discriminate H|].
  now apply confirmAndCommit_exit in H.
Qed.

Lemma commitExtensionFiles_exit data w code w' :
  commitExtensionFiles data w = (Exit code, w') ->
  (code = 0 /\ staged w' = []) \/ (code = 130 /\ stdin w' = []).
Proof.
  intros H. rewrite commitExtensionFiles_unfold in H.
  apply try_catch_Exit in H.
  destruct H as [H|(e & w1 & _ & H)]; [|now apply commit_handler_no_exit in H].
  apply bind_Exit in H.
  destruct H as [H|(a & w1 & _ & H)]; [now apply execGitCommand_no_exit in H|].
  destruct (blank _); [discriminate H|].
  now apply confirmAndCommit_exit in H.
Qed.

(** ** Where the embedding stops following *)

Lemma bind_Unmodelled {A B} (m : M A) (k : A -> M B) w w' :
  bind m k w = (Unmodelled, w') ->
  m w = (Unmodelled, w')
  \/ exists a w1, m w = (Ret a, w1) /\ k a w1 = (Unmodelled, w').
Proof.
  unfold bind. destruct (m w) as [[a|e|c|] w1]; intros H; try discriminate H.
  - right. now exists a, w1.
  - left. injection H as ->. reflexivity.
Qed.

Lemma try_catch_Unmodelled {A} (m : M A) (handler : exn -> M A) w w' :
  try_catch m handler w = (Unmodelled, w') ->
  m w = (Unmodelled, w')
  \/ exists e w1, m w = (Throw e, w1) /\ handler e w1 = (Unmodelled, w').
Proof.
  unfold try_catch. destruct (m w) as [[a|e|c|] w1]; intros H; try discriminate H.
  - right. now exists e, w1.
  - left. exact H.
Qed.

Lemma execGitCommand_followed command w w' :
  match command with GitCommit _ => False | _ => True end ->
  execGitCommand command w <> (Unmodelled, w').
Proof.
  intros Hc. unfold execGitCommand, git.
  destruct command; [| | |contradiction];
    now destruct (gitFailure w _).
Qed.

Lemma getStagedFiles_followed w w' : getStagedFiles w <> (Unmodelled, w').
Proof.
  intros H. unfold getStagedFiles in H. apply bind_Unmodelled in H.
  destruct H as [H|(a & w1 & _ & H)]; [|discriminate H].
  now apply execGitCommand_followed in H.
Qed.

Lemma addAdditionalInfoToMessage_followed data w w' :
  addAdditionalInfoToMessage data w <> (Unmodelled, w').
Proof.
  intros H. unfold addAdditionalInfoToMessage in H.
  apply bind_Unmodelled in H.
  destruct H as [H|(a & w1 & _ & H)]; [now apply execGitCommand_followed in H|].
  apply bind_Unmodelled in H.
  destruct H as [H|(l & w2 & _ & H)]; [now apply getStagedFiles_followed in H|].
  apply bind_Unmodelled in H.
  destruct H as [H|(b & w3 & _ & H)]; [now apply execGitCommand_followed in H|].
  discriminate H.
Qed.

Lemma commit_handler_followed text e w w' :
  bind (execGitCommand GitRestoreStaged)
       (fun _ => throw (LoggerErrorHandler text (err_message e))) w
  <> (@Unmodelled bool, w').
Proof.
  intros H. apply bind_Unmodelled in H.
  destruct H as [H|(a & w1 & _ & H)]; [|discriminate H].
  now apply execGitCommand_followed in H.
Qed.

(** The commit is the one step of the two commit functions that may not
    be followed: the message has been shown and the question answered. *)
Lemma confirmAndCommit_unmodelled message aborted w w' :
  confirmAndCommit message aborted w = (Unmodelled, w') ->
  shellDoubleQuoted message = None
  /\ exists text rest,
       events w' = Logged TQuestion text None :: Printed message :: rest.
Proof.
  unfold confirmAndCommit, bind, info, log, console_log.
  destruct (stdin w) as [|answer rest] eqn:S.
  - match goal with
    | |- context [confirm ?m question ?w0] =>
        rewrite (confirm_no_input m w0 S)
    end.
    discriminate.
  - match goal with
    | |- context [confirm ?m question ?w0] =>
        destruct (confirm_answer m w0 answer rest S) as (text & ->)
    end.
    destruct (startsWithYes answer) eqn:Y; cbn [negb]; unfold ret, exit.
    + unfold execGitCommand, git. cbn [gitFailure with_event with_stdin staged].
      destruct (shellDoubleQuoted message) as [given|].
      * destruct (gitFailure w (GitCommit message)); [discriminate|].
        destruct (staged w); discriminate.
      * intros H. injection H as <-. split; [reflexivity|].
        cbn [events with_event with_stdin]. eexists. eexists. reflexivity.
    + unfold execGitCommand, git. cbn [gitFailure with_event with_stdin staged].
      destruct (gitFailure w GitRestoreStaged); discriminate.
Qed.

Lemma commitProjectFiles_unmodelled projectFiles w w' :
  commitProjectFiles projectFiles w = (Unmodelled, w') ->
  exists message text rest,
    shellDoubleQuoted message = None
    /\ events w' = Logged TQuestion text None :: Printed message :: rest.
Proof.
  intros H. rewrite commitProjectFiles_unfold in H.
  apply try_catch_Unmodelled in H.
  destruct H as [H|(e & w1 & _ & H)]; [|now apply commit_handler_followed in H].
  apply bind_Unmodelled in H.
  destruct H as [H|(a & w1 & _ & H)]; [now apply execGitCommand_followed in H|].
  apply bind_Unmodelled in H.
  destruct H as [H|(l & w2 & _ & H)]; [now apply getStagedFiles_followed in H|].
  cbv zeta in H.
  destruct (blank _); [discriminate H|].
  apply confirmAndCommit_unmodelled in H.
  destruct H as (Hm & text & rest & He).
  eexists. exists text, rest. split; [exact Hm | exact He].
Qed.

Lemma commitExtensionFiles_unmodelled data w w' :
  commitExtensionFiles data w = (Unmodelled, w') ->
  exists message text rest,
    shellDoubleQuoted message = None
    /\ events w' = Logged TQuestion text None :: Printed message :: rest.
Proof.
  intros H. rewrite commitExtensionFiles_unfold in H.
  apply try_catch_Unmodelled in H.
  destruct H as [H|(e & w1 & _ & H)]; [|now apply commit_handler_followed in H].
  apply bind_Unmodelled in H.
  destruct H as [H|(a & w1 & _ & H)]; [now apply execGitCommand_followed in H|].
  destruct (blank _); [discriminate H|].
  apply confirmAndCommit_unmodelled in H.
  destruct H as (Hm & text & rest & He).
  eexists. exists text, rest. split; [exact Hm | exact He].
Qed.

Section Ending.

Context {R : Runtime}.

Lemma readJsonFile_no_exit path w code w' :
  readJsonFile path w <> (Exit code, w').
Proof.
  destruct (lookup path (files w)) as [text|] eqn:E.
  - rewrite (readJsonFile_found _ _ _ E). now destruct (JSON_parse _).
  - now rewrite (readJsonFile_missing _ _ E).
Qed.

Lemma readProperty_no_exit k j w code w' :
  readProperty k j w <> (Exit code, w').
Proof. now destruct j. Qed.

Lemma getExtensionPackData_no_exit extensionFiles w code w' :
  getExtensionPackData extensionFiles w <> (Exit code, w').
Proof.
  intros H. unfold getExtensionPackData in H. apply try_catch_Exit in H.
  destruct H as [H|(e & w1 & _ & H)]; [|discriminate H].
  apply bind_Exit in H.
  destruct H as [H|(dir & w1 & _ & H)]; [discriminate H|].
  apply bind_Exit in H.
  destruct H as [H|(manifest & w2 & _ & H)]; [now apply readJsonFile_no_exit in H|].
  apply bind_Exit in H.
  destruct H as [H|(extensions & w3 & _ & H)];
    [now apply readJsonFile_no_exit in H|].
  apply bind_Exit in H.
  destruct H as [H|(v & w4 & _ & H)]; [now apply readProperty_no_exit in H|].
  apply bind_Exit in H.
  destruct H as [H|(c & w5 & _ & H)]; [now apply readProperty_no_exit in H|].
  apply bind_Exit in H.
  destruct H as [H|(n & w6 & _ & H)]; [now apply readProperty_no_exit in H|].
  destruct manifest as [| | | | |fields]; try discriminate H.
  destruct c as [[| | | |current|]|]; try discriminate H.
  destruct n as [[| | | |recommended|]|]; try discriminate H.
  destruct (asStrings current); [|discriminate H].
  destruct (asStrings recommended); [|discriminate H].
  apply bind_Exit in H.
  destruct H as [H|(report & w7 & _ & H)].
  { destruct (getCommitMessageByExtensionListChanges _ _); discriminate H. }
  destruct v as [[| | |version| |]|]; try discriminate H.
  apply bind_Exit in H.
  destruct H as [H|(data & w8 & _ & H)];
    [now apply addAdditionalInfoToMessage_no_exit in H | discriminate H].
Qed.

Lemma updateExtensionPack_no_exit data w code w' :
  updateExtensionPack data w <> (Exit code, w').
Proof.
  rewrite updateExtensionPack_run. cbv zeta.
  now destruct (str_eqb _ _ && blank _).
Qed.

Lemma getProjectFiles_no_exit extensionFiles w code w' :
  getProjectFiles extensionFiles w <> (Exit code, w').
Proof.
  unfold getProjectFiles, try_catch, bind, get_cwd, existsSync, readFileSync,
    get_tree, ret.
  cbv beta iota zeta.
  destruct (lookup (path_join [cwd w; lit ".gitignore"]) (files w))
    as [text|] eqn:L; cbv beta iota zeta; rewrite ?L; discriminate.
Qed.

Lemma readJsonFile_followed path w w' :
  readJsonFile path w <> (Unmodelled, w').
Proof.
  destruct (lookup path (files w)) as [text|] eqn:E.
  - rewrite (readJsonFile_found _ _ _ E). now destruct (JSON_parse _).
  - now rewrite (readJsonFile_missing _ _ E).
Qed.

Lemma readProperty_followed k j w w' :
  readProperty k j w <> (Unmodelled, w').
Proof. now destruct j. Qed.

Lemma readProperty_Ret k j w value w' :
  readProperty k j w = (Ret value, w') ->
  w' = w
  /\ match value with
     | Some found => exists fields, j = JObject fields
                                   /\ get_field k fields = Some found
     | None => True
     end.
Proof.
  destruct j; intros H; try discriminate H; injection H as <- <-;
    (split; [reflexivity|]); try exact I.
  destruct (get_field k fields) as [found|] eqn:F; [|exact I].
  now exists fields.
Qed.

(** [getExtensionPackData] is followed unless an extension list holds a
    value other than a string. *)
Lemma getExtensionPackData_unmodelled extensionFiles w w' :
  getExtensionPackData extensionFiles w = (Unmodelled, w') ->
  w' = w
  /\ exists fields fields' current recommended,
    readJsonFile (path_join [cwd w; lit "package.json"]) w
    = (Ret (JObject fields), w)
    /\ readJsonFile (path_join [cwd w; lit ".vscode"; lit "extensions.json"]) w
       = (Ret (JObject fields'), w)
    /\ get_field (lit "extensionPack") fields = Some (JArray current)
    /\ get_field (lit "recommendations") fields' = Some (JArray recommended)
    /\ (asStrings current = None \/ asStrings recommended = None).
Proof.
  intros H. unfold getExtensionPackData in H. apply try_catch_Unmodelled in H.
  destruct H as [H|(e & w1 & _ & H)]; [|discriminate H].
  apply bind_Unmodelled in H.
  destruct H as [H|(dir & w1 & Hd & H)]; [discriminate H|].
  injection Hd as <- <-.
  apply bind_Unmodelled in H.
  destruct H as [H|(manifest & w2 & H2 & H)];
    [now apply readJsonFile_followed in H|].
  pose proof (readJsonFile_world _ _ _ _ H2). subst w2.
  apply bind_Unmodelled in H.
  destruct H as [H|(extensions & w3 & H3 & H)];
    [now apply readJsonFile_followed in H|].
  pose proof (readJsonFile_world _ _ _ _ H3). subst w3.
  apply bind_Unmodelled in H.
  destruct H as [H|(v & w4 & Hv & H)]; [now apply readProperty_followed in H|].
  apply readProperty_Ret in Hv. destruct Hv as [-> _].
  apply bind_Unmodelled in H.
  destruct H as [H|(c & w5 & Hc & H)]; [now apply readProperty_followed in H|].
  apply readProperty_Ret in Hc. destruct Hc as [-> Hc].
  apply bind_Unmodelled in H.
  destruct H as [H|(n & w6 & Hn & H)]; [now apply readProperty_followed in H|].
  apply readProperty_Ret in Hn. destruct Hn as [-> Hn].
  destruct manifest as [| | | | |fields]; try discriminate H.
  destruct c as [[| | | |current|]|]; try discriminate H.
  destruct n as [[| | | |recommended|]|]; try discriminate H.
  destruct Hc as (fields0 & Hf0 & Hc). injection Hf0 as <-.
  destruct Hn as (fields' & -> & Hn).
  destruct (asStrings current) as [current'|] eqn:Ac.
  - destruct (asStrings recommended) as [recommended'|] eqn:Ar.
    + exfalso. apply bind_Unmodelled in H.
      destruct H as [H|(report & w7 & _ & H)].
      { destruct (getCommitMessageByExtensionListChanges _ _); discriminate H. }
      destruct v as [[| | |version| |]|]; try discriminate H.
      apply bind_Unmodelled in H.
      destruct H as [H|(data & w8 & _ & H)];
        [now apply addAdditionalInfoToMessage_followed in H | discriminate H].
    + injection H as <-. split; [reflexivity|].
      exists fields, fields', current, recommended.
      split; [exact H2|]. split; [exact H3|]. split; [exact Hc|].
      split; [exact Hn|]. now right.
  - injection H as <-. split; [reflexivity|].
    exists fields, fields', current, recommended.
    split; [exact H2|]. split; [exact H3|]. split; [exact Hc|].
    split; [exact Hn|]. now left.
Qed.

Lemma updateExtensionPack_followed data w w' :
  updateExtensionPack data w <> (Unmodelled, w').
Proof.
  rewrite updateExtensionPack_run. cbv zeta.
  now destruct (str_eqb _ _ && blank _).
Qed.

Lemma getProjectFiles_followed extensionFiles w w' :
  getProjectFiles extensionFiles w <> (Unmodelled, w').
Proof.
  unfold getProjectFiles, try_catch, bind, get_cwd, existsSync, readFileSync,
    get_tree, ret.
  cbv beta iota zeta.
  destruct (lookup (path_join [cwd w; lit ".gitignore"]) (files w))
    as [text|] eqn:L; cbv beta iota zeta; rewrite ?L; discriminate.
Qed.

Lemma getProjectFiles_same extensionFiles w found w' :
  getProjectFiles extensionFiles w = (Ret found, w') -> w' = w.
Proof.
  unfold getProjectFiles, try_catch, bind, get_cwd, existsSync, readFileSync,
    get_tree, ret.
  cbv beta iota zeta.
  destruct (lookup (path_join [cwd w; lit ".gitignore"]) (files w))
    as [text|] eqn:L; cbv beta iota zeta; rewrite ?L;
    intros H; now injection H.
Qed.

Lemma handle_exits e w :
  exists message verbose,
    handle e w
    = (Exit 1,
       with_event (with_event w (Logged TError message (Some verbose)))
         (Printed (lit "See " ++ logPath w ++ lit " for more details." ++ [LF]))).
Proof.
  destruct e as [m|m v]; eexists; eexists; reflexivity.
Qed.

(** X15.  With a logger that does not fail, [makeRelease] never throws.
    When it ends the process, the status is 0 and nothing is staged (the
    user has refused a commit), or the status is 130 and no line of input
    is left (the user has pressed Ctrl-C at a prompt), or the status is 1
    and the last things done are the log of the error and the line that
    points to the log file (an error reached the handler): no other stage
    ends the process.  The embedding stops following a run in two cases
    only: the two files parse to objects whose extension lists are arrays,
    one of which holds a value other than a string, and nothing has been
    done yet; or the last things done are the display of a commit message
    and the question about it, and the message is one the shell does not
    hand to git as it is written. *)
Theorem makeRelease_ends (w : World) :
  let w' := snd (makeRelease w) in
  match fst (makeRelease w) with
  | Ret _ => True
  | Throw _ => False
  | Exit code =>
      (code = 0 /\ staged w' = [])
      \/ (code = 130 /\ stdin w' = [])
      \/ (code = 1
          /\ exists message verbose rest,
               events w'
               = Printed (lit "See " ++ logPath w' ++ lit " for more details."
                          ++ [LF])
                 :: Logged TError message (Some verbose) :: rest)
  | Unmodelled =>
      (w' = w
       /\ exists fields fields' current recommended,
            readJsonFile (path_join [cwd w; lit "package.json"]) w
            = (Ret (JObject fields), w)
            /\ readJsonFile
                 (path_join [cwd w; lit ".vscode"; lit "extensions.json"]) w
               = (Ret (JObject fields'), w)
            /\ get_field (lit "extensionPack") fields = Some (JArray current)
            /\ get_field (lit "recommendations") fields'
               = Some (JArray recommended)
            /\ (asStrings current = None \/ asStrings recommended = None))
      \/ (exists message text rest,
            shellDoubleQuoted message = None
            /\ events w'
               = Logged TQuestion text None :: Printed message :: rest)
  end.
Proof.
  cbv zeta. unfold makeRelease, try_catch.
  match goal with
  | |- context [match ?b w with _ => _ end] => destruct (b w) as [[u|e|code|] w1] eqn:E
  end; cbn [fst snd]; try exact I.
  - destruct (handle_exits e w1) as (message & verbose & ->). cbn [fst snd].
    right. right. split; [reflexivity|]. now exists message, verbose, (events w1).
  - cbv zeta in E.
    assert (X : (code = 0 /\ staged w1 = []) \/ (code = 130 /\ stdin w1 = []));
      [|destruct X as [X|X]; [left | right; left]; exact X].
    apply bind_Exit in E.
    destruct E as [E|(projectFiles & w2 & _ & E)];
      [now apply getProjectFiles_no_exit in E|].
    apply bind_Exit in E.
    destruct E as [E|(data & w3 & _ & E)];
      [now apply getExtensionPackData_no_exit in E|].
    apply bind_Exit in E.
    destruct E as [E|(done & w4 & _ & E)];
      [now apply commitProjectFiles_exit in E|].
    apply bind_Exit in E.
    destruct E as [E|(data' & w5 & _ & E)];
      [now apply updateExtensionPack_no_exit in E|].
    apply bind_Exit in E.
    destruct E as [E|(done' & w6 & _ & E)];
      [now apply commitExtensionFiles_exit in E | discriminate E].
  - cbv zeta in E.
    apply bind_Unmodelled in E.
    destruct E as [E|(projectFiles & w2 & Hp & E)];
      [now apply getProjectFiles_followed in E|].
    apply getProjectFiles_same in Hp. subst w2.
    apply bind_Unmodelled in E.
    destruct E as [E|(data & w3 & _ & E)].
    { left. now apply getExtensionPackData_unmodelled in E. }
    right.
    apply bind_Unmodelled in E.
    destruct E as [E|(done & w4 & _ & E)];
      [now apply commitProjectFiles_unmodelled in E|].
    apply bind_Unmodelled in E.
    destruct E as [E|(data' & w5 & _ & E)];
      [now apply updateExtensionPack_followed in E|].
    apply bind_Unmodelled in E.
    destruct E as [E|(done' & w6 & _ & E)];
      [now apply commitExtensionFiles_unmodelled in E | discriminate E].
Qed.

End Ending.

(** ** Versions at the edges *)

Lemma split_longer major minor patch extra :
  split (formatVersion major minor patch ++ [DOT] ++ extra) DOT
  = decimal major :: decimal minor :: decimal patch :: split extra DOT.
Proof.
  unfold formatVersion. rewrite <- !app_assoc. cbn [app].
  rewrite split_app by apply unitsOf_no_dot.
  rewrite split_app by apply unitsOf_no_dot.
  now rewrite split_app by apply unitsOf_no_dot.
Qed.

Section VersionEdges.

Context {R : Runtime}.

(** X16.  Only the first three components of the version count: whatever
    follows a third dot is dropped by every kind of increase. *)
Theorem increaseVersion_drops_the_rest (major minor patch : N)
  (extra : jsstring) :
  major < two53 -> minor < two53 -> patch < two53 ->
  let version := formatVersion major minor patch ++ [DOT] ++ extra in
  increaseVersion version (lit "major") = formatVersion (major + 1) 0 0
  /\ increaseVersion version (lit "minor") = formatVersion major (minor + 1) 0
  /\ increaseVersion version (lit "patch") = formatVersion major minor (patch + 1).
Proof.
  intros H1 H2 H3 version. unfold version, increaseVersion.
  rewrite split_longer. cbn [map nth_error].
  rewrite !Number_decimal by lia.
  apply N.ltb_lt in H1, H2, H3. cbn [plusOne show].
  rewrite H1, H2, H3. repeat split.
Qed.

(** X17.  [increaseVersion] at the edges.  A type other than 'major',
    'minor' and 'patch' gives the version back as it is.  A version of one
    component has no minor and no patch number: the minor increase prints
    NaN for the one, the patch increase 'undefined' and NaN.  At 2^53 the
    major number no longer grows, since 2^53 + 1 is not a number of the
    language. *)
Theorem increaseVersion_edges (version type : jsstring) (major minor patch : N) :
  type <> lit "major" -> type <> lit "minor" -> type <> lit "patch" ->
  major <= two53 ->
  increaseVersion version type = version
  /\ increaseVersion (decimal major) (lit "minor") = decimal major ++ lit ".NaN.0"
  /\ increaseVersion (decimal major) (lit "patch")
     = decimal major ++ lit ".undefined.NaN"
  /\ increaseVersion (formatVersion two53 minor patch) (lit "major")
     = formatVersion two53 0 0.
Proof.
  intros T1 T2 T3 Hm. split; [|split; [|split]].
  - unfold increaseVersion.
    apply str_eqb_neq in T1, T2, T3. now rewrite T1, T2, T3.
  - unfold increaseVersion.
    rewrite split_whole by apply unitsOf_no_dot. cbn [map nth_error].
    rewrite Number_decimal by exact Hm. reflexivity.
  - unfold increaseVersion.
    rewrite split_whole by apply unitsOf_no_dot. cbn [map nth_error].
    rewrite Number_decimal by exact Hm. reflexivity.
  - unfold increaseVersion. rewrite split_formatVersion. cbn [map nth_error].
    rewrite Number_decimal by (unfold two53; lia). reflexivity.
Qed.

End VersionEdges.

Lemma increaseVersion_drops_the_rest_witness :
  1 < two53 /\ 2 < two53 /\ 3 < two53
  /\ @increaseVersion exampleRuntime (lit "1.2.3.4-beta") (lit "patch")
     = lit "1.2.4".
Proof.
  assert (H1 : 1 < two53) by reflexivity.
  assert (H2 : 2 < two53) by reflexivity.
  assert (H3 : 3 < two53) by reflexivity.
  split; [exact H1|]. split; [exact H2|]. split; [exact H3|].
  exact (proj2 (proj2 (@increaseVersion_drops_the_rest exampleRuntime
                         1 2 3 (lit "4-beta") H1 H2 H3))).
Defined.

Lemma increaseVersion_edges_witness :
  lit "build" <> lit "major" /\ 7 <= two53
  /\ @increaseVersion exampleRuntime (lit "1.2.3") (lit "build") = lit "1.2.3"
  /\ @increaseVersion exampleRuntime (lit "7") (lit "patch")
     = lit "7.undefined.NaN".
Proof.
  assert (T1 : lit "build" <> lit "major") by discriminate.
  assert (T2 : lit "build" <> lit "minor") by discriminate.
  assert (T3 : lit "build" <> lit "patch") by discriminate.
  assert (Hm : 7 <= two53) by (unfold two53; lia).
  split; [exact T1|]. split; [exact Hm|].
  destruct (@increaseVersion_edges exampleRuntime (lit "1.2.3") (lit "build")
              7 0 0 T1 T2 T3 Hm) as (E1 & _ & E3 & _).
  split; [exact E1 | exact E3].
Defined.

(** ** Colours *)

Lemma colorCode_known color :
  In color colors <-> exists code, colorCode color = Some code.
Proof.
  unfold colorCode, colors.
  repeat match goal with
         | |- context [str_eqb color ?c] =>
             let E := fresh "E" in
             destruct (str_eqb color c) eqn:E;
             [apply str_eqb_eq in E; subst color;
              split; [intros _; eexists; reflexivity | intros _; cbn [In]; tauto]
             | apply str_eqb_neq in E]
         end.
  split.
  - cbn [In]. intros H. exfalso.
    repeat (destruct H as [H|H]; [symmetry in H; contradiction|]). exact H.
  - intros (code & H). discriminate H.
Qed.

Lemma colorCode_digits color code :
  colorCode color = Some code ->
  exists digit, is_digit digit = true /\ code = [51; digit].
Proof.
  unfold colorCode.
  repeat match goal with
         | |- context [str_eqb color ?c] =>
             destruct (str_eqb color c);
             [intros H; injection H as <-; eexists;
              split; [|reflexivity]; reflexivity|]
         end.
  discriminate.
Qed.

(** X18.  [colorize] returns exactly for the seven colours of the type
    [Color]; for any other name it throws 'Invalid color: ' followed by the
    name.  What it returns is the text between an escape sequence and the
    reset sequence, nine code units longer than the text. *)
Theorem colorize_known_colors (color text : jsstring) :
  (In color colors <-> exists colored, colorize color text = Ok colored)
  /\ (~ In color colors ->
      colorize color text = Raise (Error (lit "Invalid color: " ++ color)))
  /\ (forall colored, colorize color text = Ok colored ->
        length colored = (length text + 9)%nat
        /\ exists code,
             ANSI_code code
             /\ colored = code ++ text ++ [ESC; LBRACKET; 48; LOWER_M]).
Proof.
  pose proof (colorCode_known color) as K.
  pose proof (colorCode_digits color) as D.
  unfold colorize. destruct (colorCode color) as [code|].
  - destruct (D code eq_refl) as (digit & Hd & ->).
    split; [|split].
    + split; [intros _; eexists; reflexivity|].
      intros _. apply K. now exists [51; digit].
    + intros H. elim H. apply K. now exists [51; digit].
    + intros colored H. apply Ok_inj in H. subst colored. split.
      * cbn [length app]. rewrite length_app. cbn [length]. lia.
      * exists (ESC :: LBRACKET :: [51; digit] ++ [LOWER_M]).
        split; [|reflexivity].
        exists [51; digit]. split; [discriminate|]. split; [|reflexivity].
        repeat constructor. exact Hd.
  - split; [|split].
    + split.
      * intros H. apply K in H. destruct H as (code & H). discriminate H.
      * intros (colored & H). discriminate H.
    + reflexivity.
    + intros colored H. discriminate H.
Qed.

Lemma removeANSI_colorized piece tail :
  In (fst piece) colors -> noANSI (snd piece) ->
  removeANSI (colorized piece ++ tail) = snd piece ++ removeANSI tail.
Proof.
  destruct piece as [color s]. cbn [fst snd]. intros Hc Hs.
  assert (Hend : removeANSI ((s ++ [ESC; LBRACKET; 48; LOWER_M]) ++ tail)
                 = s ++ removeANSI tail).
  { rewrite <- app_assoc. cbn [app].
    rewrite (removeANSI_app s ESC _ breaks_ESC), (removeANSI_noANSI s Hs).
    f_equal. }
  unfold colors in Hc. cbn [In] in Hc.
  repeat (destruct Hc as [<-|Hc]; [exact Hend|]).
  contradiction.
Qed.

(** X19.  [removeANSI] undoes [colorize] piece by piece: for any number of
    pieces in the seven colours, each without an escape sequence of its
    own, what is left of their concatenation and of any text after it is
    the concatenation of the pieces and what is left of that text. *)
Theorem removeANSI_colorized_pieces (pieces : list (jsstring * jsstring))
  (tail : jsstring) :
  Forall (fun piece => In (fst piece) colors /\ noANSI (snd piece)) pieces ->
  removeANSI (concat (map colorized pieces) ++ tail)
  = concat (map snd pieces) ++ removeANSI tail.
Proof.
  induction 1 as [|piece pieces [Hc Hs] _ IH]; [reflexivity|].
  cbn [map concat]. rewrite <- !app_assoc.
  rewrite removeANSI_colorized by assumption. now rewrite IH.
Qed.

Lemma removeANSI_colorized_pieces_witness :
  let pieces := [(lit "cyan", lit "[INFO] "); (lit "white", lit "done")] in
  Forall (fun piece => In (fst piece) colors /\ noANSI (snd piece)) pieces
  /\ removeANSI (concat (map colorized pieces) ++ [LF; LF])
     = lit "[INFO] done" ++ [LF; LF].
Proof.
  intros pieces.
  assert (H : Forall (fun piece => In (fst piece) colors /\ noANSI (snd piece))
                     pieces).
  { repeat constructor; cbn [fst snd colors In]; try tauto;
      apply hasANSI_noANSI; reflexivity. }
  split; [exact H|].
  exact (removeANSI_colorized_pieces pieces [LF; LF] H).
Defined.

(** ** The question *)

Lemma breaks_space : breaks 32.
Proof. repeat split; discriminate. Qed.

(** X20.  [confirm] takes one line of the input and answers whether it
    starts with y or Y.  What it passes to the logger reads, without its
    colours, as the message, ' (y/n): ' and the answer.  When the user
    presses Ctrl-C instead of typing a line, the process ends inside the
    prompt with status 130: nothing is logged and nothing else changes. *)
Theorem confirm_asks (message : jsstring) (w : World) :
  match stdin w with
  | answer :: rest =>
      exists text,
        confirm message question w
        = (Ret (startsWithYes answer),
           with_event (with_stdin w rest) (Logged TQuestion text None))
        /\ removeANSI text
           = removeANSI message ++ lit " (y/n): " ++ removeANSI answer
  | [] => confirm message question w = (Exit 130, w)
  end.
Proof.
  unfold confirm, bind, lift.
  change (colorize (lit "green") (lit "y"))
    with (Ok [ESC; LBRACKET; 51; 50; LOWER_M; 121; ESC; LBRACKET; 48; LOWER_M]).
  change (colorize (lit "red") (lit "n"))
    with (Ok [ESC; LBRACKET; 51; 49; LOWER_M; 110; ESC; LBRACKET; 48; LOWER_M]).
  change (colorize (lit "magenta") (lit "[QUESTION] "))
    with (Ok ([ESC; LBRACKET; 51; 53; LOWER_M] ++ lit "[QUESTION] "
              ++ [ESC; LBRACKET; 48; LOWER_M])).
  unfold ret, prompt, question, log.
  destruct (stdin w) as [|answer rest]; [reflexivity|].
  eexists. split; [reflexivity|].
  rewrite <- !app_assoc. change (lit " (") with [32; 40]. cbn [app].
  rewrite (removeANSI_app message 32 _ breaks_space). f_equal.
  transitivity (lit " (y/n" ++ removeANSI (lit "): " ++ answer));
    [reflexivity|].
  rewrite removeANSI_plain by (apply not_In_check; reflexivity).
  reflexivity.
Qed.

(** ** The logger *)

Lemma colorize_colorized color text :
  In color colors -> colorize color text = Ok (colorized (color, text)).
Proof.
  unfold colors. cbn [In]. intros H.
  repeat (destruct H as [<-|H]; [reflexivity|]). contradiction.
Qed.

Lemma typeColor_known type : In (typeColor type) colors.
Proof. destruct type; cbn [typeColor colors In]; tauto. Qed.

Lemma typeTag_plain type : noANSI (typeTag type).
Proof. apply hasANSI_noANSI. now destruct type. Qed.

Lemma white_known : In (lit "white") colors.
Proof. cbn [colors In]. tauto. Qed.

Lemma blue_known : In (lit "blue") colors.
Proof. cbn [colors In]. tauto. Qed.

Lemma placeholder_match_other c s : c <> 123 -> placeholder_match (c :: s) = None.
Proof.
  intros H. apply N.eqb_neq in H. unfold placeholder_match.
  destruct s as [|b [|d s]]; try reflexivity. now rewrite H.
Qed.

Lemma fillPlaceholders_app args p : ~ In 123 p -> forall s,
  fillPlaceholders args 0 (p ++ s)
  = match fillPlaceholders args 0 s with
    | Ok rest => Ok (p ++ rest)
    | Raise e => Raise e
    end.
Proof.
  induction p as [|c p IH]; intros H s.
  - cbn [app]. now destruct (fillPlaceholders args 0 s).
  - cbn [app fillPlaceholders].
    rewrite placeholder_match_other by (intros ->; apply H; now left).
    rewrite IH by (intros X; apply H; now right).
    now destruct (fillPlaceholders args 0 s).
Qed.

Lemma fillPlaceholders_plain args s :
  ~ In 123 s -> fillPlaceholders args 0 s = Ok s.
Proof.
  intros H. rewrite <- (app_nil_r s) at 1.
  rewrite fillPlaceholders_app by exact H. cbn [fillPlaceholders].
  now rewrite app_nil_r.
Qed.

Lemma colorized_no_brace color text :
  ~ In 123 text -> ~ In 123 (colorized (color, text)).
Proof.
  intros H. unfold colorized, colorize. cbn [fst snd].
  pose proof (colorCode_digits color) as D.
  destruct (colorCode color) as [code|]; [|intros []].
  destruct (D code eq_refl) as (digit & Hd & ->).
  cbn [app In]. rewrite in_app_iff. cbn [In].
  intros [X|[X|[X|[X|[X|[X|X]]]]]]; try discriminate X.
  - subst digit. discriminate Hd.
  - now apply H.
  - destruct X as [X|[X|[X|[X|X]]]]; try discriminate X. exact X.
Qed.

(** X21.  A message without a left brace and without an escape sequence
    of its own is logged as it is, whatever the arguments: the line for the
    console is the coloured tag of the type and the message in white, shown
    unless the type is 'question', and the entry of the log file is the tag
    and the message without colours, then the verbose content on a line of
    its own when there is one, then an empty line.  The verbose content is
    shown on the console only in verbose mode, never for a question.  The
    logger does not throw. *)
Theorem Logger_log_plain (verbose : bool) (type : LogType)
  (message : jsstring) (verboseContent : option jsstring)
  (args : list jsstring) :
  noANSI message -> ~ In 123 message ->
  (forall content, verboseContent = Some content -> noANSI content) ->
  let line := colorized (typeColor type, typeTag type)
              ++ colorized (lit "white", message) in
  removeANSI line = typeTag type ++ message
  /\ Logger_log verbose type message verboseContent args
     = match verboseContent with
       | Some (c :: content) =>
           Ok (show_unless_question type line
               ++ (if verbose then show_unless_question type (c :: content)
                   else []),
               typeTag type ++ message ++ [LF] ++ (c :: content) ++ [LF; LF])
       | _ => Ok (show_unless_question type line,
                  typeTag type ++ message ++ [LF; LF])
       end.
Proof.
  intros Hm Hb Hv line.
  assert (Hline : forall tail,
             removeANSI (line ++ tail)
             = typeTag type ++ message ++ removeANSI tail).
  { intros tail. unfold line. rewrite <- app_assoc.
    rewrite removeANSI_colorized
      by (cbn [fst snd]; first [apply typeColor_known | apply typeTag_plain]).
    rewrite removeANSI_colorized by (cbn [fst snd]; first [apply white_known | exact Hm]).
    reflexivity. }
  split.
  { rewrite <- (app_nil_r line), Hline. cbn [snd]. now rewrite app_nil_r. }
  unfold Logger_log, Logger_log_body.
  rewrite (colorize_colorized _ message white_known).
  assert (F : (if Nat.ltb 0 (length args)
               then fillPlaceholders args 0 (colorized (lit "white", message))
               else Ok (colorized (lit "white", message)))
              = Ok (colorized (lit "white", message))).
  { destruct (Nat.ltb 0 (length args)); [|reflexivity].
    apply fillPlaceholders_plain. now apply colorized_no_brace. }
  rewrite F.
  rewrite (colorize_colorized _ (typeTag type) (typeColor_known type)).
  fold line.
  destruct verboseContent as [[|c content]|].
  - f_equal. f_equal. rewrite <- (app_nil_r line), Hline.
    now rewrite <- !app_assoc.
  - rewrite (colorize_colorized _ (c :: content) white_known).
    f_equal. f_equal. rewrite Hline. cbn [app].
    rewrite removeANSI_cons by discriminate.
    rewrite <- (app_nil_r (colorized _)).
    rewrite removeANSI_colorized
      by (cbn [fst snd]; first [apply white_known | now apply Hv]).
    cbn [snd]. change (removeANSI []) with (@nil N). rewrite app_nil_r.
    rewrite <- !app_assoc. cbn [app]. reflexivity.
  - f_equal. f_equal. rewrite <- (app_nil_r line), Hline.
    now rewrite <- !app_assoc.
Qed.

Lemma Logger_log_plain_witness :
  noANSI (lit "Aborted!") /\ ~ In 123 (lit "Aborted!")
  /\ exists line,
       Logger_log true TInfo (lit "Aborted!") (Some (lit "by the user")) []
       = Ok ([line; lit "by the user"],
             lit "[INFO] Aborted!" ++ [LF] ++ lit "by the user" ++ [LF; LF])
       /\ removeANSI line = lit "[INFO] Aborted!".
Proof.
  assert (Hm : noANSI (lit "Aborted!")) by (apply hasANSI_noANSI; reflexivity).
  assert (Hb : ~ In 123 (lit "Aborted!")) by (apply not_In_check; reflexivity).
  assert (Hv : forall content,
             Some (lit "by the user") = Some content -> noANSI content).
  { intros content H. injection H as <-. apply hasANSI_noANSI. reflexivity. }
  split; [exact Hm|]. split; [exact Hb|].
  destruct (Logger_log_plain true TInfo (lit "Aborted!")
              (Some (lit "by the user")) [] Hm Hb Hv) as [L E].
  eexists. split; [exact E | exact L].
Defined.

Lemma placeholder_tail_digits digits rest :
  Forall (fun d => is_digit d = true) digits ->
  placeholder_tail (digits ++ 125 :: 125 :: rest)
  = Some (digits, (length digits + 2)%nat).
Proof.
  induction 1 as [|d digits Hd _ IH]; [reflexivity|].
  cbn [app placeholder_tail length Nat.add]. now rewrite Hd, IH.
Qed.

Lemma fillPlaceholders_skip args s1 : forall s2,
  fillPlaceholders args (length s1) (s1 ++ s2) = fillPlaceholders args 0 s2.
Proof.
  induction s1 as [|c s1 IH]; intros s2; [reflexivity|].
  cbn [app length fillPlaceholders]. apply IH.
Qed.

Lemma fillPlaceholders_match args d digits rest :
  is_digit d = true -> Forall (fun c => is_digit c = true) digits ->
  fillPlaceholders args 0 (lit "{{" ++ (d :: digits) ++ lit "}}" ++ rest)
  = match fillPlaceholders args 0 rest with
    | Ok filled => Ok (colorized (lit "blue", argText args (d :: digits)) ++ filled)
    | Raise e => Raise e
    end.
Proof.
  intros Hd Hds.
  change (lit "{{" ++ (d :: digits) ++ lit "}}" ++ rest)
    with (123 :: 123 :: d :: digits ++ 125 :: 125 :: rest).
  cbn [fillPlaceholders placeholder_match].
  rewrite Hd. cbn [N.eqb Pos.eqb andb].
  rewrite placeholder_tail_digits by exact Hds.
  cbn [Nat.add].
  rewrite (colorize_colorized _ (argText args (d :: digits)) blue_known).
  assert (K : (length digits + 2)%nat = length (digits ++ [125; 125]))
    by now rewrite length_app.
  rewrite K.
  change (digits ++ 125 :: 125 :: rest) with (digits ++ [125; 125] ++ rest).
  rewrite (app_assoc digits [125; 125] rest).
  now rewrite fillPlaceholders_skip.
Qed.

Lemma unitsOf_digits u : Forall (fun d => is_digit d = true) (unitsOf u).
Proof. induction u; cbn [unitsOf]; constructor; auto. Qed.

Lemma decimal_digits n :
  exists d digits,
    decimal n = d :: digits
    /\ is_digit d = true /\ Forall (fun c => is_digit c = true) digits.
Proof.
  unfold decimal. pose proof (unitsOf_digits (N.to_uint n)) as H.
  destruct (unitsOf (N.to_uint n)) as [|d digits] eqn:E.
  - exfalso. destruct (N.to_uint n) eqn:U; try discriminate E.
    pose proof (DecimalN.Unsigned.of_to n) as O. rewrite U in O.
    cbn in O. subst n. discriminate U.
  - exists d, digits. inversion H; subst. now repeat split.
Qed.

Lemma argText_decimal args n :
  argText args (decimal n)
  = match nth_error args (N.to_nat n) with
    | Some a => a
    | None => lit "undefined"
    end.
Proof.
  unfold argText, decimal.
  now rewrite digitsOf_unitsOf, DecimalN.Unsigned.of_to.
Qed.

(** X22.  A placeholder [{{i}}] of the message gives way to the argument
    of that index, or to 'undefined' when there are arguments but not that
    many: in blue inside the white message on the console, and as plain text
    in the entry of the log file.  Stated for one placeholder between two
    texts without braces, none of the pieces holding an escape sequence. *)
Theorem Logger_log_placeholder (verbose : bool) (type : LogType)
  (before after : jsstring) (args : list jsstring) (i : N) :
  let argument := match nth_error args (N.to_nat i) with
                  | Some a => a
                  | None => lit "undefined"
                  end in
  let message : jsstring :=
    before ++ lit "{{" ++ decimal i ++ lit "}}" ++ after in
  let line : jsstring :=
    colorized (typeColor type, typeTag type)
    ++ [ESC; LBRACKET; 51; 55; LOWER_M]
    ++ before ++ colorized (lit "blue", argument) ++ after
    ++ [ESC; LBRACKET; 48; LOWER_M] in
  args <> [] ->
  noANSI before -> noANSI after -> noANSI argument ->
  ~ In 123 before -> ~ In 123 after ->
  Logger_log verbose type message None args
  = Ok (show_unless_question type line,
        typeTag type ++ before ++ argument ++ after ++ [LF; LF]).
Proof.
  intros argument message line Ha Hb Haf Harg Bb Ba.
  destruct (decimal_digits i) as (d & digits & Ed & Hd & Hds).
  assert (Hfill : (if Nat.ltb 0 (length args)
                   then fillPlaceholders args 0 (colorized (lit "white", message))
                   else Ok (colorized (lit "white", message)))
                  = Ok ([ESC; LBRACKET; 51; 55; LOWER_M]
                        ++ before ++ colorized (lit "blue", argument) ++ after
                        ++ [ESC; LBRACKET; 48; LOWER_M])).
  { replace (Nat.ltb 0 (length args)) with true
      by (destruct args; [contradiction | reflexivity]).
    change (colorized (lit "white", message))
      with ([ESC; LBRACKET; 51; 55; LOWER_M] ++ message
            ++ [ESC; LBRACKET; 48; LOWER_M]).
    unfold message. rewrite <- !app_assoc.
    rewrite (app_assoc [ESC; LBRACKET; 51; 55; LOWER_M] before).
    rewrite fillPlaceholders_app.
    2:{ rewrite in_app_iff. intros [X|X]; [|now apply Bb].
        cbn [In] in X. repeat (destruct X as [X|X]; [discriminate X|]). exact X. }
    rewrite Ed, fillPlaceholders_match by assumption.
    rewrite fillPlaceholders_plain.
    2:{ rewrite in_app_iff. intros [X|X]; [now apply Ba|].
        cbn [In] in X. repeat (destruct X as [X|X]; [discriminate X|]). exact X. }
    rewrite <- Ed, argText_decimal. fold argument.
    now rewrite <- !app_assoc. }
  assert (C : exists t, colorized (lit "blue", argument) = ESC :: t)
    by (eexists; reflexivity).
  destruct C as (t & C).
  assert (Hplain : removeANSI line = typeTag type ++ before ++ argument ++ after).
  { unfold line.
    rewrite removeANSI_colorized
      by (cbn [fst snd]; first [apply typeColor_known | apply typeTag_plain]).
    cbn [snd]. f_equal.
    change (removeANSI ([ESC; LBRACKET; 51; 55; LOWER_M] ++ ?x))
      with (removeANSI x).
    rewrite C. cbn [app].
    rewrite (removeANSI_app before ESC _ breaks_ESC), (removeANSI_noANSI _ Hb).
    f_equal.
    change (ESC :: t ++ after ++ [ESC; LBRACKET; 48; LOWER_M])
      with ((ESC :: t) ++ after ++ [ESC; LBRACKET; 48; LOWER_M]).
    rewrite <- C.
    rewrite removeANSI_colorized
      by (cbn [fst snd]; first [apply blue_known | exact Harg]).
    cbn [snd]. f_equal.
    rewrite (removeANSI_app after ESC _ breaks_ESC), (removeANSI_noANSI _ Haf).
    apply app_nil_r. }
  unfold Logger_log, Logger_log_body.
  rewrite (colorize_colorized _ message white_known). cbv beta iota.
  rewrite Hfill.
  rewrite (colorize_colorized _ (typeTag type) (typeColor_known type)).
  fold line. rewrite Hplain. now rewrite <- !app_assoc.
Qed.

Lemma Logger_log_placeholder_witness :
  let line := colorized (lit "green", lit "[SUCCESS] ")
              ++ [ESC; LBRACKET; 51; 55; LOWER_M]
              ++ lit "Released " ++ colorized (lit "blue", lit "v2.0.0")
              ++ lit "." ++ [ESC; LBRACKET; 48; LOWER_M] in
  Logger_log false TSuccess (lit "Released {{0}}.") None
             [lit "v2.0.0"; lit "unused"]
  = Ok ([line], lit "[SUCCESS] Released v2.0.0." ++ [LF; LF]).
Proof.
  apply (Logger_log_placeholder false TSuccess (lit "Released ") (lit ".")
           [lit "v2.0.0"; lit "unused"] 0).
  - discriminate.
  - apply hasANSI_noANSI. reflexivity.
  - apply hasANSI_noANSI. reflexivity.
  - apply hasANSI_noANSI. reflexivity.
  - apply not_In_check. reflexivity.
  - apply not_In_check. reflexivity.
Defined.

(** ** The enrich stage and the update, in general *)

(** X23.  [addAdditionalInfoToMessage] makes no commit and writes no file.
    When it returns nothing is staged.  It has no handler of its own: when
    it throws, the error is that of the git command that failed, and if the
    staging had been done by then the extension files stay staged. *)
Theorem addAdditionalInfoToMessage_outcomes (data : ExtensionPackData)
  (w : World) :
  let w' := snd (addAdditionalInfoToMessage data w) in
  commits w' = commits w /\ files w' = files w /\ events w' = events w
  /\ match fst (addAdditionalInfoToMessage data w) with
     | Ret _ => staged w' = []
     | Throw e =>
         (exists verbose,
            e = LoggerErrorHandler (lit "Git command failed") verbose)
         /\ staged w'
            = match gitFailure w (GitAdd (extensionFiles data)) with
              | Some _ => staged w
              | None => stageOf (extensionFiles data) w
              end
     | _ => False
     end.
Proof.
  cbv zeta.
  destruct (gitFailure w (GitAdd (extensionFiles data))) as [err|] eqn:Ga.
  { assert (E : addAdditionalInfoToMessage data w
                = (Throw (LoggerErrorHandler
                            (lit "Git command failed")
                            (lit "Command: "
                             ++ commandText (GitAdd (extensionFiles data)) ++ [LF]
                             ++ lit "Error: " ++ err)), w))
      by (unfold addAdditionalInfoToMessage, bind;
          now rewrite (execGit_fails (GitAdd _) _ _ I Ga)).
    rewrite E. cbn [fst snd]. repeat split. eexists; reflexivity. }
  destruct (gitFailure w GitDiffCached) as [err|] eqn:Gd.
  { assert (E : addAdditionalInfoToMessage data w
                = (Throw (LoggerErrorHandler
                            (lit "Git command failed")
                            (lit "Command: " ++ commandText GitDiffCached ++ [LF]
                             ++ lit "Error: " ++ err)),
                   with_staged w (stageOf (extensionFiles data) w)))
      by (unfold addAdditionalInfoToMessage, bind;
          rewrite (execGit_add _ _ Ga); unfold getStagedFiles, bind;
          now rewrite execGit_fails with (err := err) by (exact I || exact Gd)).
    rewrite E. cbn [fst snd]. repeat split. eexists; reflexivity. }
  destruct (gitFailure w GitRestoreStaged) as [err|] eqn:Gr.
  { assert (E : addAdditionalInfoToMessage data w
                = (Throw (LoggerErrorHandler
                            (lit "Git command failed")
                            (lit "Command: " ++ commandText GitRestoreStaged ++ [LF]
                             ++ lit "Error: " ++ err)),
                   with_staged w (stageOf (extensionFiles data) w)))
      by (unfold addAdditionalInfoToMessage, bind;
          rewrite (execGit_add _ _ Ga);
          rewrite getStagedFiles_listed by exact Gd;
          now rewrite execGit_fails with (err := err) by (exact I || exact Gr)).
    rewrite E. cbn [fst snd]. repeat split. eexists; reflexivity. }
  rewrite (addAdditionalInfoToMessage_run _ _ Ga Gd Gr). cbn [fst snd].
  repeat split.
Qed.

Lemma same_json_permutation current updated :
  str_eqb (stringifyStrings (sort current)) (stringifyStrings (sort updated))
  = true
  <-> Permutation current updated.
Proof.
  rewrite str_eqb_eq. split.
  - intros H. apply stringifyStrings_inj in H.
    eapply Permutation_trans; [apply sort_perm|].
    rewrite H. apply Permutation_sym, sort_perm.
  - intros H. now rewrite (sort_of_perm _ _ H).
Qed.

Section Update.

Context {R : Runtime}.

(** X24.  Whatever [getExtensionPackData] throws is a [LoggerErrorHandler]
    with the message 'Failed to get metadata'.  When the manifest is
    missing its verbose text is the message of the error of [readJsonFile],
    'Failed to read file: ' and the path; the text of the cause itself is
    not carried over.  The world is as it was. *)
Theorem getExtensionPackData_missing_manifest (extensionFiles : list jsstring)
  (w : World) :
  lookup (path_join [cwd w; lit "package.json"]) (files w) = None ->
  getExtensionPackData extensionFiles w
  = (Throw (LoggerErrorHandler
              (lit "Failed to get metadata")
              (lit "Failed to read file: "
               ++ path_join [cwd w; lit "package.json"])), w).
Proof.
  intros H. unfold getExtensionPackData, try_catch, bind at 1, get_cwd.
  unfold bind at 1. now rewrite (readJsonFile_missing _ _ H).
Qed.

(** X27.  Two files that parse to objects but not to the expected shape
    make [getExtensionPackData] throw 'Failed to get metadata', with
    nothing changed.  When the manifest has no array [extensionPack] or the
    other file no array [recommendations], the verbose text is 'Failed to
    merge extensions', the message of the error [mergeExtensions] throws.
    When both are arrays of strings and the manifest has no string
    [version], it is 'Failed to bump version'. *)
Theorem getExtensionPackData_wrong_shape (extensionFiles : list jsstring)
  (w : World) (fields fields' : list (jsstring * json)) :
  readJsonFile (path_join [cwd w; lit "package.json"]) w
  = (Ret (JObject fields), w) ->
  readJsonFile (path_join [cwd w; lit ".vscode"; lit "extensions.json"]) w
  = (Ret (JObject fields'), w) ->
  ((forall items, get_field (lit "extensionPack") fields <> Some (JArray items))
   \/ (forall items,
         get_field (lit "recommendations") fields' <> Some (JArray items)) ->
   getExtensionPackData extensionFiles w
   = (Throw (LoggerErrorHandler (lit "Failed to get metadata")
                                (lit "Failed to merge extensions")), w))
  /\ (forall current recommended,
        get_field (lit "extensionPack") fields
        = Some (JArray (map JString current)) ->
        get_field (lit "recommendations") fields'
        = Some (JArray (map JString recommended)) ->
        (forall version,
           get_field (lit "version") fields <> Some (JString version)) ->
        getExtensionPackData extensionFiles w
        = (Throw (LoggerErrorHandler (lit "Failed to get metadata")
                                     (lit "Failed to bump version")), w)).
Proof.
  intros H1 H2. split.
  - intros H. unfold getExtensionPackData, try_catch, bind at 1, get_cwd.
    unfold bind at 1. rewrite H1. unfold bind at 1. rewrite H2.
    unfold bind, readProperty, ret, throw.
    destruct (get_field (lit "extensionPack") fields) as [[| | | |current|]|];
      try reflexivity.
    destruct (get_field (lit "recommendations") fields')
      as [[| | | |recommended|]|]; try reflexivity.
    exfalso. destruct H as [H|H]; [now apply (H current) | now apply (H recommended)].
  - intros current recommended Hc Hr Hv.
    unfold getExtensionPackData, try_catch, bind at 1, get_cwd.
    unfold bind at 1. rewrite H1. unfold bind at 1. rewrite H2.
    unfold bind, readProperty, ret, throw. rewrite Hc, Hr, !asStrings_strings.
    destruct (changeReport_returns current (mergeExtensions current recommended))
      as [report ->].
    unfold lift, ret.
    destruct (get_field (lit "version") fields) as [[| | |version| |]|];
      try reflexivity.
    now elim (Hv version).
Qed.

(** X25.  [updateExtensionPack] always returns, for any record, and does
    not touch git or the terminal.  It writes nothing exactly when the
    updated array is a rearrangement of the current one and the message is
    blank; otherwise it writes the manifest with the updated array in
    sorted order.  Either way the properties of the manifest other than
    [version] and [extensionPack] keep their values and their order. *)
Theorem updateExtensionPack_general (data : ExtensionPackData) (w : World) :
  let w' := snd (updateExtensionPack data w) in
  let same := Permutation (currentExtensions data) (updatedExtensions data)
              /\ blank (message data) = true in
  exists data',
    fst (updateExtensionPack data w) = Ret data'
    /\ staged w' = staged w /\ commits w' = commits w /\ stdin w' = stdin w
    /\ filter (fun kv => otherKey (fst kv)) (packageJson data')
       = filter (fun kv => otherKey (fst kv)) (packageJson data)
    /\ (same -> w' = with_event w noChangesNotice)
    /\ (~ same ->
        w' = with_file w (packageJsonPath data)
                       (JSON_stringify (JObject (packageJson data')))
        /\ get_field (lit "extensionPack") (packageJson data')
           = Some (strings (sort (updatedExtensions data)))).
Proof.
  cbv zeta.
  destruct (updateExtensionPack data w) as [o w'] eqn:E.
  pose proof E as E'. rewrite updateExtensionPack_run in E'. cbv zeta in E'.
  destruct (str_eqb _ _) eqn:J; cbn [andb] in E'.
  - apply same_json_permutation in J.
    destruct (blank (message data)) eqn:B; injection E' as <- <-.
    + eexists. split; [reflexivity|]. cbn [fst snd staged commits stdin with_event].
      split; [reflexivity|]. split; [reflexivity|]. split; [reflexivity|].
      split; [eapply updateExtensionPack_frame; exact E|].
      split; [reflexivity|].
      intros H. elim H. now split.
    + eexists. split; [reflexivity|]. cbn [fst snd staged commits stdin with_file].
      split; [reflexivity|]. split; [reflexivity|]. split; [reflexivity|].
      split; [eapply updateExtensionPack_frame; exact E|].
      split; [intros [_ X]; discriminate X|].
      intros _. split; [reflexivity|].
      cbn [packageJson set_packageJson]. unfold updatedManifest.
      now rewrite get_field_set_same.
  - assert (N : ~ Permutation (currentExtensions data) (updatedExtensions data)).
    { intros P. apply same_json_permutation in P. congruence. }
    injection E' as <- <-.
    eexists. split; [reflexivity|]. cbn [fst snd staged commits stdin with_file].
    split; [reflexivity|]. split; [reflexivity|]. split; [reflexivity|].
    split; [eapply updateExtensionPack_frame; exact E|].
    split; [intros [X _]; now elim N|].
    intros _. split; [reflexivity|].
    cbn [packageJson set_packageJson]. unfold updatedManifest.
    now rewrite get_field_set_same.
Qed.

End Update.

Lemma getExtensionPackData_missing_manifest_witness :
  lookup (@path_join exampleRuntime [cwd bareWorld; lit "package.json"])
         (files bareWorld) = None
  /\ @getExtensionPackData exampleRuntime releaseFiles bareWorld
     = (Throw (LoggerErrorHandler
                 (lit "Failed to get metadata")
                 (lit "Failed to read file: /repo/package.json")), bareWorld).
Proof.
  split; [reflexivity|].
  exact (@getExtensionPackData_missing_manifest exampleRuntime releaseFiles
           bareWorld eq_refl).
Defined.

(** ** A run with nothing to release *)

Lemma report_nil_same current updated :
  getCommitMessageByExtensionListChanges current updated = Ok [] ->
  forall x, In x current <-> In x updated.
Proof.
  unfold getCommitMessageByExtensionListChanges. rewrite only_kept.
  destruct (hasRemoved current updated || hasAdded current updated) eqn:E;
    cbn [negb].
  - destruct (appendChanges_total (sort (changeList current updated)) reportHeader)
      as [lines ->].
    intros H. apply Ok_inj in H. discriminate H.
  - intros _. now apply no_change_same_elements.
Qed.

Section Quiet.

Context {R : Runtime}.

Lemma getExtensionPackData_quiet extensionFiles w data w1 :
  getExtensionPackData extensionFiles w = (Ret data, w1) ->
  message data = [] ->
  forall x, In x (currentExtensions data) <-> In x (updatedExtensions data).
Proof.
  intros H. apply getExtensionPackData_Ret in H.
  destruct H as (fields & version & current & recommended & report & data2
                 & Er & Hinfo & ->).
  pose proof (addAdditionalInfoToMessage_returns _ _ _ _ Hinfo) as (G1 & G2 & G3).
  pose proof (addAdditionalInfoToMessage_data _ _ _ _ Hinfo
                (report_titled _ _ _ Er)) as (Ht & Hc & Hu & _ & _).
  rewrite (addAdditionalInfoToMessage_run _ _ G1 G2 G3) in Hinfo.
  injection Hinfo as Hdata _.
  cbn [set_message message currentExtensions updatedExtensions].
  intros Hm. apply replace_nil_inv in Hm; [|exact Ht].
  rewrite Hc, Hu. cbn [bumpVersion set_updatedVersion currentExtensions
                         updatedExtensions].
  apply report_nil_same.
  rewrite <- Hdata in Hm. cbv zeta in Hm.
  destruct (existsb _ _).
  - cbn [set_message message] in Hm. exfalso.
    destruct (negb (blank _)); apply app_eq_nil in Hm; destruct Hm as [Hm _].
    + apply app_eq_nil in Hm. destruct Hm as [_ Hm]. discriminate Hm.
    + discriminate Hm.
  - cbn [bumpVersion set_updatedVersion message] in Hm. now rewrite <- Hm.
Qed.

(** X26.  When the analysis of a run ends with an empty message, the two
    stages that follow write and commit nothing: [updateExtensionPack] only
    logs its notice, and [commitExtensionFiles] returns false.  The
    [git add .] of the latter is not undone: every modified path is staged
    when the run ends. *)
Theorem quiet_release (extensionFiles : list jsstring) (w0 w1 w : World)
  (data : ExtensionPackData) :
  getExtensionPackData extensionFiles w0 = (Ret data, w1) ->
  message data = [] ->
  gitFailure w (GitAdd [lit "."]) = None ->
  exists data' w',
    updateExtensionPack data w = (Ret data', with_event w noChangesNotice)
    /\ commitExtensionFiles data' (with_event w noChangesNotice) = (Ret false, w')
    /\ commits w' = commits w /\ files w' = files w
    /\ forall f, In f (modified w) -> In f (staged w').
Proof.
  intros Hdata Hm Hadd.
  pose proof (getExtensionPackData_quiet _ _ _ _ Hdata Hm) as Hsame.
  destruct (getExtensionPackData_data _ _ _ _ Hdata) as ((recommended & Hu) & _).
  rewrite Hu in Hsame. apply merged_same_elements in Hsame.
  rewrite updateExtensionPack_run. cbv zeta.
  rewrite Hu, <- Hsame, str_eqb_refl, Hm, blank_nil. cbn [andb].
  eexists. eexists. split; [reflexivity|].
  unfold commitExtensionFiles, try_catch, bind.
  rewrite execGit_add by exact Hadd.
  cbn [hasChangesOnExtensionList snd message]. rewrite Hm, blank_nil.
  unfold info, log, ret.
  split; [reflexivity|]. split; [reflexivity|]. split; [reflexivity|].
  intros f Hf. cbn [staged with_event with_staged].
  apply (stage_all (with_event w noChangesNotice)). exact Hf.
Qed.

End Quiet.

Lemma quiet_release_witness :
  exists data w1 data' w',
    @getExtensionPackData exampleRuntime releaseFiles quietWorld = (Ret data, w1)
    /\ message data = []
    /\ @updateExtensionPack exampleRuntime data exampleWorld
       = (Ret data', with_event exampleWorld noChangesNotice)
    /\ commitExtensionFiles data' (with_event exampleWorld noChangesNotice)
       = (Ret false, w')
    /\ commits w' = [] /\ In (lit "src/index.js") (staged w').
Proof.
  destruct (@getExtensionPackData exampleRuntime releaseFiles quietWorld)
    as [[data| | |] w1] eqn:E; try (vm_compute in E; discriminate E).
  assert (Hm : message data = [])
    by (vm_compute in E; injection E as <- _; reflexivity).
  destruct (@quiet_release exampleRuntime releaseFiles quietWorld w1 exampleWorld
              data E Hm eq_refl) as (data' & w' & U & C & Hc & _ & Hs).
  exists data, w1, data', w'.
  split; [reflexivity|]. split; [exact Hm|]. split; [exact U|].
  split; [exact C|]. split; [exact Hc|].
  apply Hs. cbn [modified exampleWorld In]. tauto.
Defined.

Lemma getExtensionPackData_wrong_shape_witness :
  let w := with_file (with_file bareWorld (lit "/repo/.vscode/extensions.json")
                                (lit "recommendations"))
                     (lit "/repo/package.json") (lit "recommendations") in
  @getExtensionPackData exampleRuntime releaseFiles w
  = (Throw (LoggerErrorHandler (lit "Failed to get metadata")
                               (lit "Failed to merge extensions")), w).
Proof.
  intros w.
  apply (proj1 (@getExtensionPackData_wrong_shape exampleRuntime releaseFiles w
                  [(lit "recommendations", strings [lit "c.d"; lit "e.f"])]
                  [(lit "recommendations", strings [lit "c.d"; lit "e.f"])]
                  eq_refl eq_refl)).
  left. intros items H. discriminate H.
Defined.

(** ** The command lines of the script *)

Lemma wordUnit_open c :
  wordUnit c = true ->
  (c =? 32) || (c =? 9) = false /\ (c =? QUOTE) = false.
Proof.
  intros Hc. split.
  - destruct (c =? 32) eqn:E1; [apply N.eqb_eq in E1; subst c; discriminate Hc|].
    destruct (c =? 9) eqn:E2; [apply N.eqb_eq in E2; subst c; discriminate Hc|].
    reflexivity.
  - destruct (c =? QUOTE) eqn:E1; [|reflexivity].
    apply N.eqb_eq in E1; subst c; discriminate Hc.
Qed.

Lemma shellWords_word u : forall word rest,
  forallb wordUnit u = true -> u <> [] ->
  shellWords word false (u ++ rest) = shellWords (push word u) false rest.
Proof.
  induction u as [|c u IH]; intros word rest H Hne; [now elim Hne|].
  cbn [forallb] in H. apply andb_true_iff in H. destruct H as [Hc Hu].
  destruct (wordUnit_open c Hc) as [B Q].
  cbn [app shellWords]. rewrite B, Q, Hc.
  destruct u as [|d u]; [reflexivity|].
  etransitivity; [apply IH; [exact Hu | discriminate]|].
  f_equal. unfold push. f_equal.
  destruct word as [w|]; [now rewrite <- app_assoc | reflexivity].
Qed.

Lemma shellWord_units f :
  shellWord f = true -> forallb wordUnit f = true /\ f <> [].
Proof.
  destruct f as [|c f]; [discriminate|]. unfold shellWord.
  rewrite andb_true_iff. intros [_ H]. split; [exact H | discriminate].
Qed.

Lemma shellWords_blank w rest :
  shellWords (push None w) false (32 :: rest)
  = option_map (cons w) (shellWords None false rest).
Proof. reflexivity. Qed.

Lemma shellWords_paths paths :
  Forall (fun f => shellWord f = true) paths ->
  shellWords None false (join paths (lit " ")) = Some paths.
Proof.
  induction 1 as [|f paths Hf Hp IH]; [reflexivity|].
  destruct (shellWord_units f Hf) as [Hu Hne].
  destruct paths as [|g paths].
  - cbn [join]. rewrite <- (app_nil_r f) at 1.
    etransitivity; [apply shellWords_word; assumption|]. reflexivity.
  - change (join (f :: g :: paths) (lit " "))
      with (f ++ 32 :: join (g :: paths) (lit " ")).
    etransitivity; [apply shellWords_word; assumption|].
    etransitivity; [apply shellWords_blank|].
    now rewrite IH.
Qed.

Lemma shellWords_quoted : forall n message given acc rest,
  (length message <= n)%nat ->
  shellDoubleQuoted message = Some given ->
  shellWords (Some acc) true (message ++ QUOTE :: rest)
  = shellWords (push (Some acc) given) false rest.
Proof.
  induction n as [|n IH]; intros message given acc rest Hn H.
  - destruct message; [|cbn in Hn; lia].
    injection H as <-. cbn [app shellWords]. change (QUOTE =? QUOTE) with true.
    cbv iota. unfold push. now rewrite app_nil_r.
  - destruct message as [|c message].
    { injection H as <-. cbn [app shellWords]. change (QUOTE =? QUOTE) with true.
      cbv iota. unfold push. now rewrite app_nil_r. }
    cbn [length] in Hn. cbn [shellDoubleQuoted] in H. cbn [app shellWords].
    destruct (c =? BACKSLASH) eqn:Eb.
    + apply N.eqb_eq in Eb. subst c.
      change (BACKSLASH =? QUOTE) with false. cbv iota.
      destruct message as [|d message]; [discriminate H|].
      cbn [length] in Hn. cbn [app].
      destruct ((d =? DOLLAR) || (d =? 96) || (d =? QUOTE) || (d =? BACKSLASH)).
      * destruct (shellDoubleQuoted message) as [read|] eqn:Er; [|discriminate H].
        injection H as <-.
        etransitivity; [apply (IH message read); [lia | exact Er]|].
        f_equal. unfold push. f_equal. now rewrite <- app_assoc.
      * destruct (d =? LF).
        { apply IH; [lia | exact H]. }
        destruct (d =? 0); [discriminate H|].
        destruct (shellDoubleQuoted message) as [read|] eqn:Er; [|discriminate H].
        injection H as <-.
        etransitivity; [apply (IH message read); [lia | exact Er]|].
        f_equal. unfold push. f_equal. now rewrite <- app_assoc.
    + destruct ((c =? DOLLAR) || (c =? 96) || (c =? QUOTE) || (c =? 0)) eqn:Es;
        [discriminate H|].
      apply orb_false_iff in Es. destruct Es as [Es E0].
      apply orb_false_iff in Es. destruct Es as [Es Eq].
      rewrite Eq, Es, E0. cbn [orb].
      destruct (shellDoubleQuoted message) as [read|] eqn:Er; [|discriminate H].
      injection H as <-.
      etransitivity; [apply (IH message read); [lia | exact Er]|].
      f_equal. unfold push. f_equal. now rewrite <- app_assoc.
Qed.

(** X28.  The four command lines of the script, as /bin/sh cuts them into
    words.  The line of [git add] gives git the project files one by one
    when each is a word of letters, digits, dots, underscores, slashes and
    hyphens that does not start with a hyphen.  The lines of the listing
    and of the unstaging are the five and the four words they show.  The
    line of [git commit] gives git, after [-m], one word: the message as it
    is read between the double quotes, whenever it has a reading there. *)
Theorem commandText_read :
  (forall paths,
     Forall (fun f => shellWord f = true) paths ->
     commandLine (commandText (GitAdd paths))
     = Some (lit "git" :: lit "add" :: paths))
  /\ commandLine (commandText GitDiffCached)
     = Some [lit "git"; lit "diff"; lit "--name-only"; lit "--cached"; lit "."]
  /\ commandLine (commandText GitRestoreStaged)
     = Some [lit "git"; lit "restore"; lit "--staged"; lit "."]
  /\ (forall message given,
        shellDoubleQuoted message = Some given ->
        commandLine (commandText (GitCommit message))
        = Some [lit "git"; lit "commit"; lit "-m"; given]).
Proof.
  split; [|split; [reflexivity | split; [reflexivity|]]].
  - intros paths H. unfold commandLine, commandText.
    change (lit "git add " ++ join paths (lit " "))
      with (lit "git" ++ 32 :: lit "add" ++ 32 :: join paths (lit " ")).
    etransitivity; [apply shellWords_word; [reflexivity | discriminate]|].
    etransitivity; [apply shellWords_blank|].
    etransitivity;
      [apply f_equal; apply shellWords_word; [reflexivity | discriminate]|].
    etransitivity; [apply f_equal; apply shellWords_blank|].
    now rewrite shellWords_paths by exact H.
  - intros message given H. unfold commandLine, commandText.
    change (lit "git commit -m " ++ [QUOTE] ++ message ++ [QUOTE])
      with (lit "git" ++ 32 :: lit "commit" ++ 32 :: lit "-m" ++ 32
            :: QUOTE :: message ++ [QUOTE]).
    etransitivity; [apply shellWords_word; [reflexivity | discriminate]|].
    etransitivity; [apply shellWords_blank|].
    etransitivity;
      [apply f_equal; apply shellWords_word; [reflexivity | discriminate]|].
    etransitivity; [apply f_equal; apply shellWords_blank|].
    etransitivity;
      [do 2 apply f_equal; apply shellWords_word; [reflexivity | discriminate]|].
    etransitivity; [do 2 apply f_equal; apply shellWords_blank|].
    etransitivity;
      [do 3 apply f_equal;
       apply (shellWords_quoted (length message) message given []);
       [apply le_n | exact H]|].
    reflexivity.
Qed.
